(** * dwell: the notification dispatch service and the S3 file service

    A shallow embedding of the notification service of
    [internal/services] (type [NotificationService] and its methods) and of
    the properties of its channel routing, template registry, variable
    substitution and bulk dispatch; then of the notifications of
    maintenance requests and payments, and of the S3 file service
    ([S3Service]) with its keys, uploads and listings.

    Go strings are modelled as [string] (sequences of 8-bit characters), Go
    maps as [gmap], the results [(value, error)] of fallible functions as
    [result], a panic as an outcome of its own, and the external
    collaborators (SES, SNS, the clock, the UUID generator and the runtime's
    choice of a map iteration order) as oracles over an abstract world. *)

From Stdlib Require Import Ascii NArith.
From stdpp Require Import gmap strings list fin_maps.

Local Open Scope stdpp_scope.

(** ** Strings *)

Module Str.

(** [strings.HasPrefix(s, prefix)]. *)
Fixpoint HasPrefix (s prefix : string) {struct prefix} : bool :=
  match prefix with
  | "" => true
  | String a p =>
      match s with
      | "" => false
      | String b t => Ascii.eqb a b && HasPrefix t p
      end
  end.

(** [strings.Contains(s, substr)]. *)
Fixpoint Contains (s substr : string) : bool :=
  HasPrefix s substr ||
  match s with
  | "" => false
  | String _ t => Contains t substr
  end.

(** The slice [s[n:]] (for [n] within the length of [s]). *)
Fixpoint drop (n : nat) (s : string) : string :=
  match n, s with
  | S n, String _ t => drop n t
  | _, _ => s
  end.

(** The slice [s[:n]] (for [n] within the length of [s]). *)
Fixpoint take (n : nat) (s : string) : string :=
  match n, s with
  | S n, String c t => String c (take n t)
  | _, _ => ""
  end.

Definition lower (c : ascii) : ascii :=
  let n := N_of_ascii c in
  if ((65 <=? n) && (n <=? 90))%N then ascii_of_N (n + 32) else c.

(** [strings.EqualFold(s, t)] when [t] is made of ASCII letters whose only
    case variants are ASCII (as in ["urn:uuid:"]): equality up to the case
    of ASCII letters. *)
Fixpoint EqualFold (s t : string) : bool :=
  match s, t with
  | "", "" => true
  | String a s, String b t => Ascii.eqb (lower a) (lower b) && EqualFold s t
  | _, _ => false
  end.

(** No character of [s] is an opening or a closing brace. *)
Fixpoint bracefree (s : string) : bool :=
  match s with
  | "" => true
  | String c t =>
      negb (Ascii.eqb c "{") && negb (Ascii.eqb c "}") && bracefree t
  end.

End Str.

(** [strings.ReplaceAll(s, old, new)] for a non-empty [old]: the leftmost
    occurrence of [old] is replaced and the scan goes on after it, so the
    replaced occurrences do not overlap.  [skip] counts the characters of a
    matched occurrence that are still to be passed over.

    With an empty [old], Go inserts [new] at every UTF-8 sequence boundary;
    [replaceVariables], the only caller, passes ["{{" + key + "}}"], so that
    case is not reachable and [ReplaceAll] returns [s] there. *)
Fixpoint ReplaceAll_go (old new : string) (skip : nat) (s : string) : string :=
  match s with
  | "" => ""
  | String c t =>
      match skip with
      | S k => ReplaceAll_go old new k t
      | O =>
          if Str.HasPrefix s old
          then new +:+ ReplaceAll_go old new (String.length old - 1) t
          else String c (ReplaceAll_go old new 0 t)
      end
  end.

Definition ReplaceAll (s old new : string) : string :=
  match old with
  | "" => s
  | _ => ReplaceAll_go old new 0 s
  end.

(** ** Results, errors and panics *)

(** The pair [(value, error)] a fallible Go function returns: the functions
    here return either a value with a nil error or a nil value with an
    error. *)
Inductive result (E A : Type) : Type :=
  | Ok (a : A)
  | Err (e : E).
Arguments Ok {E A} a.
Arguments Err {E A} e.

(** ** github.com/google/uuid (v1.5.0, an external library): [Parse] and
    [MustParse] *)

Module uuid.

Definition UUID : Type := list N.

Inductive ParseError : Type :=
  | InvalidLength (n : nat)         (* invalid UUID length: n *)
  | InvalidURNPrefix (p : string)   (* invalid urn prefix: p *)
  | InvalidFormat.                  (* invalid UUID format *)

(** The table [xvalues]: the value of a hexadecimal digit. *)
Definition xvalue (c : ascii) : option N :=
  let n := N_of_ascii c in
  if ((48 <=? n) && (n <=? 57))%N then Some (n - 48)%N
  else if ((65 <=? n) && (n <=? 70))%N then Some (n - 55)%N
  else if ((97 <=? n) && (n <=? 102))%N then Some (n - 87)%N
  else None.

Definition xtob (x1 x2 : ascii) : option N :=
  match xvalue x1, xvalue x2 with
  | Some b1, Some b2 => Some (N.lor (N.shiftl b1 4) b2)
  | _, _ => None
  end.

(** The bytes decoded from the digit pairs of [s] at the given offsets. *)
Fixpoint decode (s : string) (offsets : list nat) : option UUID :=
  match offsets with
  | [] => Some []
  | x :: rest =>
      match String.get x s, String.get (S x) s with
      | Some a, Some b =>
          match xtob a b, decode s rest with
          | Some v, Some u => Some (v :: u)
          | _, _ => None
          end
      | _, _ => None
      end
  end.

Definition is_dash (s : string) (i : nat) : bool :=
  match String.get i s with
  | Some c => Ascii.eqb c "-"
  | None => false
  end.

(** The form xxxxxxxx-xxxx-xxxx-xxxx-xxxxxxxxxxxx, on the first 36 bytes. *)
Definition parse_hyphenated (s : string) : result ParseError UUID :=
  if is_dash s 8 && is_dash s 13 && is_dash s 18 && is_dash s 23 then
    match decode s [0; 2; 4; 6; 9; 11; 14; 16; 19; 21; 24; 26; 28; 30; 32; 34] with
    | Some u => Ok u
    | None => Err InvalidFormat
    end
  else Err InvalidFormat.

Definition Parse (s : string) : result ParseError UUID :=
  let n := String.length s in
  if n =? 36 then parse_hyphenated s
  else if n =? 36 + 9 then
    if Str.EqualFold (Str.take 9 s) "urn:uuid:"
    then parse_hyphenated (Str.drop 9 s)
    else Err (InvalidURNPrefix (Str.take 9 s))
  else if n =? 36 + 2 then parse_hyphenated (Str.drop 1 s)
  else if n =? 32 then
    match decode s ((λ i, i * 2) <$> seq 0 16) with
    | Some u => Ok u
    | None => Err InvalidFormat
    end
  else Err (InvalidLength n).

End uuid.

(** [s] parses as a UUID. *)
Definition valid_uuid (s : string) : bool :=
  match uuid.Parse s with
  | Ok _ => true
  | Err _ => false
  end.

(** What a goroutine panics with. *)
Inductive PanicValue : Type :=
  | PanicUUIDParse (s : string) (e : uuid.ParseError).
      (* uuid: Parse(s): e, from [uuid.MustParse] *)

Inductive outcome (A : Type) : Type :=
  | Returns (a : A)
  | Panics (p : PanicValue).
Arguments Returns {A} a.
Arguments Panics {A} p.

(** ** The data model *)

(** An [error] that is not inspected is its message. *)
Definition error : Type := string.

Module NotificationRequest.
Record t : Type := {
  Type_ : string;
  Title : string;
  Message : string;
  LandlordID : string;
  RecipientID : string;
  RecipientType : string;
  RecipientEmail : string;
  RecipientPhone : string;
  RelatedEntityID : option uuid.UUID;
  RelatedEntityType : string;
  Priority : string
}.
End NotificationRequest.

Module EmailTemplate.
Record t : Type := {
  Subject : string;
  HTMLBody : string;
  TextBody : string;
  Variables : gmap string string
}.
End EmailTemplate.

Module SMSTemplate.
Record t : Type := {
  Message : string;
  Variables : gmap string string
}.
End SMSTemplate.

(** [domain.Notification], with the fields [SendNotification] sets. *)
Module Notification.
Record t : Type := {
  LandlordID : uuid.UUID;
  RecipientID : uuid.UUID;
  RecipientType : string;
  Type_ : string;
  Title : string;
  Message : string;
  RelatedEntityID : option uuid.UUID;
  RelatedEntityType : string;
  IsRead : bool
}.
End Notification.

(** [ses.SendEmailInput]; the nesting of [types.Destination],
    [types.Message] and [types.Body] is flattened. *)
Module ses.
Record Content : Type := { Data : string; Charset : string }.
Record SendEmailInput : Type := {
  Source : string;
  ToAddresses : list string;
  Subject : Content;
  Html : Content;
  Text : Content
}.
End ses.

(** [sns.PublishInput]; a message attribute is its [DataType] and its
    [StringValue]. *)
Module sns.
Record PublishInput : Type := {
  Message : string;
  PhoneNumber : string;
  MessageAttributes : gmap string (string * string)
}.
End sns.

(** [config.Config]: the service reads [AWS.SES.FromEmail] only. *)
Record Config : Type := { AWS_SES_FromEmail : string }.

(** ** The collaborators

    The SES and SNS clients of [aws.Clients] (taken to be initialised), the
    clock, the UUID generator and the order in which the runtime ranges over
    a map.  Each reads and changes the world; a transport answers with its
    error, if any. *)
Class Collaborators : Type := {
  World : Type;
  time_Time : Type;
  SES_SendEmail : ses.SendEmailInput → World → option error * World;
  SNS_Publish : sns.PublishInput → World → option error * World;
  time_Now : World → time_Time * World;
  time_Format : time_Time → string → string;
  uuid_NewString : World → string * World;
  map_range : gmap string string → World → list (string * string) * World;
  map_range_perm : ∀ m w, (map_range m w).1 ≡ₚ map_to_list m
}.

Module NotificationResponse.
Record t `{Collaborators} : Type := {
  NotificationID : string;
  Status : string;
  SentAt : time_Time;
  Channel : string
}.
End NotificationResponse.

Record NotificationService : Type := { config : Config }.

(** ** The service *)

Section service.
Context `{C : Collaborators}.

(** A transport call and the error it answered with. *)
Inductive Call : Type :=
  | CallSendEmail (input : ses.SendEmailInput) (err : option error)
  | CallPublish (input : sns.PublishInput) (err : option error).

Record State : Type := { world : World; calls : list Call }.

(** A computation reads and changes the state and returns or panics. *)
Definition M (A : Type) : Type := State → outcome A * State.

Definition ret {A} (a : A) : M A := λ st, (Returns a, st).

Definition bind {A B} (m : M A) (k : A → M B) : M B :=
  λ st,
    match m st with
    | (Returns a, st') => k a st'
    | (Panics p, st') => (Panics p, st')
    end.

Definition panic {A} (p : PanicValue) : M A := λ st, (Panics p, st).

Definition ask {A} (f : World → A * World) : M A :=
  λ st,
    let '(a, w) := f (world st) in
    (Returns a, {| world := w; calls := calls st |}).

Definition SendEmail (input : ses.SendEmailInput) : M (option error) :=
  λ st,
    let '(err, w) := SES_SendEmail input (world st) in
    (Returns err,
     {| world := w; calls := calls st ++ [CallSendEmail input err] |}).

Definition Publish (input : sns.PublishInput) : M (option error) :=
  λ st,
    let '(err, w) := SNS_Publish input (world st) in
    (Returns err,
     {| world := w; calls := calls st ++ [CallPublish input err] |}).

Definition is_email_call (c : Call) : bool :=
  match c with CallSendEmail _ _ => true | CallPublish _ _ => false end.

Definition is_sms_call (c : Call) : bool :=
  match c with CallSendEmail _ _ => false | CallPublish _ _ => true end.

Definition is_failed_email_call (c : Call) : bool :=
  match c with CallSendEmail _ (Some _) => true | _ => false end.

End service.

Declare Scope go_scope.
Delimit Scope go_scope with go.
Notation "x <- m ;; k" := (bind m (λ x, k))
  (at level 100, m at next level, right associativity) : go_scope.
Notation "m ;;; k" := (bind m (λ _, k))
  (at level 100, right associativity) : go_scope.
Local Open Scope go_scope.

Section methods.
Context `{C : Collaborators}.

(** [uuid.MustParse]. *)
Definition MustParse (s : string) : M uuid.UUID :=
  match uuid.Parse s with
  | Ok u => ret u
  | Err e => panic (PanicUUIDParse s e)
  end.

(** The loop of [replaceVariables] when the runtime ranges over the map in
    the given [order]. *)
Definition replaceVariables_over
    (order : list (string * string)) (template : string) : string :=
  fold_left
    (λ result kv,
       let placeholder := "{{" +:+ kv.1 +:+ "}}" in
       ReplaceAll result placeholder kv.2)
    order template.

Definition replaceVariables
    (template : string) (variables : gmap string string) : M string :=
  order <- ask (map_range variables) ;;
  ret (replaceVariables_over order template).

Definition criticalTypes : gmap string bool :=
  {[ "maintenance_emergency" := true;
     "payment_overdue" := true;
     "lease_violation" := true;
     "property_damage" := true;
     "security_breach" := true ]}.

Definition isCriticalNotificationType (notificationType : string) : bool :=
  default false (criticalTypes !! notificationType).

End methods.

(** ** The template texts

    The raw string literals of [getEmailTemplate], character for character
    (the indentation is made of tabs); [dq] is the double quote. *)

Definition dq : string := String "034" "".

Definition maintenance_request_HTMLBody : string :=
"
				<!DOCTYPE html>
				<html>
				<head>
					<style>
						body { font-family: Arial, sans-serif; line-height: 1.6; color: #333; }
						.container { max-width: 600px; margin: 0 auto; padding: 20px; }
						.header { background-color: #f8f9fa; padding: 20px; border-radius: 5px; }
						.content { padding: 20px; }
						.button { display: inline-block; padding: 10px 20px; background-color: #007bff; color: white; text-decoration: none; border-radius: 5px; }
					</style>
				</head>
				<body>
					<div class=" +:+ dq +:+
"container" +:+ dq +:+
">
						<div class=" +:+ dq +:+
"header" +:+ dq +:+
">
							<h2>Maintenance Request</h2>
						</div>
						<div class=" +:+ dq +:+
"content" +:+ dq +:+
">
							<p>Hello {{recipient_name}},</p>
							<p>A new maintenance request has been submitted:</p>
							<h3>{{title}}</h3>
							<p>{{message}}</p>
							<p><strong>Priority:</strong> {{priority}}</p>
							<p><strong>Category:</strong> {{category}}</p>
							<p><strong>Date:</strong> {{date}} at {{time}}</p>
							<p>Please review and take appropriate action.</p>
						</div>
					</div>
				</body>
				</html>".

Definition maintenance_request_TextBody : string :=
"
Maintenance Request

Hello {{recipient_name}},

A new maintenance request has been submitted:

{{title}}

{{message}}

Priority: {{priority}}
Category: {{category}}
Date: {{date}} at {{time}}

Please review and take appropriate action.".

Definition payment_due_HTMLBody : string :=
"
				<!DOCTYPE html>
				<html>
				<head>
					<style>
						body { font-family: Arial, sans-serif; line-height: 1.6; color: #333; }
						.container { max-width: 600px; margin: 0 auto; padding: 20px; }
						.header { background-color: #fff3cd; padding: 20px; border-radius: 5px; border: 1px solid #ffeaa7; }
						.content { padding: 20px; }
						.amount { font-size: 24px; font-weight: bold; color: #d63031; }
					</style>
				</head>
				<body>
					<div class=" +:+ dq +:+
"container" +:+ dq +:+
">
						<div class=" +:+ dq +:+
"header" +:+ dq +:+
">
							<h2>Payment Due Reminder</h2>
						</div>
						<div class=" +:+ dq +:+
"content" +:+ dq +:+
">
							<p>Hello {{recipient_name}},</p>
							<p>This is a friendly reminder that your payment is due:</p>
							<p class=" +:+ dq +:+
"amount" +:+ dq +:+
">Amount: ${{amount}}</p>
							<p><strong>Due Date:</strong> {{due_date}}</p>
							<p><strong>Property:</strong> {{property_name}}</p>
							<p>Please ensure your payment is submitted on time to avoid any late fees.</p>
						</div>
					</div>
				</body>
				</html>".

Definition payment_due_TextBody : string :=
"
Payment Due Reminder

Hello {{recipient_name}},

This is a friendly reminder that your payment is due:

Amount: ${{amount}}
Due Date: {{due_date}}
Property: {{property_name}}

Please ensure your payment is submitted on time to avoid any late fees.".

Definition generic_HTMLBody : string :=
"
				<!DOCTYPE html>
				<html>
				<head>
					<style>
						body { font-family: Arial, sans-serif; line-height: 1.6; color: #333; }
						.container { max-width: 600px; margin: 0 auto; padding: 20px; }
						.header { background-color: #f8f9fa; padding: 20px; border-radius: 5px; }
						.content { padding: 20px; }
					</style>
				</head>
				<body>
					<div class=" +:+ dq +:+
"container" +:+ dq +:+
">
						<div class=" +:+ dq +:+
"header" +:+ dq +:+
">
							<h2>{{title}}</h2>
						</div>
						<div class=" +:+ dq +:+
"content" +:+ dq +:+
">
							<p>Hello {{recipient_name}},</p>
							<p>{{message}}</p>
							<p>Date: {{date}} at {{time}}</p>
						</div>
					</div>
				</body>
				</html>".

Definition generic_TextBody : string :=
"
{{title}}

Hello {{recipient_name}},

{{message}}

Date: {{date}} at {{time}}".

Section dispatch.
Context `{C : Collaborators}.

(** [getEmailTemplate]. The clock is read twice, for the date and for the
    time of day. *)
Definition getEmailTemplate
    (notificationType : string) (req : NotificationRequest.t)
    : M EmailTemplate.t :=
  date <- ask time_Now ;;
  time <- ask time_Now ;;
  let variables : gmap string string :=
    {[ "recipient_name" := NotificationRequest.RecipientType req;
       "landlord_name" := "Property Management";
       "date" := time_Format date "January 2, 2006";
       "time" := time_Format time "3:04 PM" ]} in
  if decide (notificationType = "maintenance_request") then
    ret {| EmailTemplate.Subject := "New Maintenance Request - {{title}}";
           EmailTemplate.HTMLBody := maintenance_request_HTMLBody;
           EmailTemplate.TextBody := maintenance_request_TextBody;
           EmailTemplate.Variables := variables |}
  else if decide (notificationType = "payment_due") then
    ret {| EmailTemplate.Subject := "Payment Due Reminder";
           EmailTemplate.HTMLBody := payment_due_HTMLBody;
           EmailTemplate.TextBody := payment_due_TextBody;
           EmailTemplate.Variables := variables |}
  else
    ret {| EmailTemplate.Subject := "{{title}}";
           EmailTemplate.HTMLBody := generic_HTMLBody;
           EmailTemplate.TextBody := generic_TextBody;
           EmailTemplate.Variables := variables |}.

(** [getSMSTemplate]. *)
Definition getSMSTemplate
    (notificationType : string) (req : NotificationRequest.t)
    : SMSTemplate.t :=
  let variables : gmap string string :=
    {[ "recipient_name" := NotificationRequest.RecipientType req ]} in
  if decide (notificationType = "maintenance_emergency") then
    {| SMSTemplate.Message :=
         "URGENT: Emergency maintenance request at {{property_name}}. Please respond immediately.";
       SMSTemplate.Variables := variables |}
  else if decide (notificationType = "payment_overdue") then
    {| SMSTemplate.Message :=
         "Payment overdue: ${{amount}} due for {{property_name}}. Please contact us immediately.";
       SMSTemplate.Variables := variables |}
  else
    {| SMSTemplate.Message := "{{title}}: {{message}}";
       SMSTemplate.Variables := variables |}.

Definition utf8 (data : string) : ses.Content :=
  {| ses.Data := data; ses.Charset := "UTF-8" |}.

(** [sendEmailNotification]. *)
Definition sendEmailNotification
    (s : NotificationService) (req : NotificationRequest.t)
    : M (result error NotificationResponse.t) :=
  template <- getEmailTemplate (NotificationRequest.Type_ req) req ;;
  subject <- replaceVariables (EmailTemplate.Subject template)
                              (EmailTemplate.Variables template) ;;
  htmlBody <- replaceVariables (EmailTemplate.HTMLBody template)
                               (EmailTemplate.Variables template) ;;
  textBody <- replaceVariables (EmailTemplate.TextBody template)
                               (EmailTemplate.Variables template) ;;
  let emailInput :=
    {| ses.Source := AWS_SES_FromEmail (config s);
       ses.ToAddresses := [NotificationRequest.RecipientEmail req];
       ses.Subject := utf8 subject;
       ses.Html := utf8 htmlBody;
       ses.Text := utf8 textBody |} in
  err <- SendEmail emailInput ;;
  match err with
  | Some e => ret (Err ("failed to send email: " +:+ e))
  | None =>
      id <- ask uuid_NewString ;;
      now <- ask time_Now ;;
      ret (Ok {| NotificationResponse.NotificationID := id;
                 NotificationResponse.Status := "sent";
                 NotificationResponse.SentAt := now;
                 NotificationResponse.Channel := "email" |})
  end.

(** [sendSMSNotification]. *)
Definition sendSMSNotification (req : NotificationRequest.t)
    : M (result error NotificationResponse.t) :=
  if decide (NotificationRequest.RecipientPhone req = "") then
    ret (Err "recipient phone number is required for SMS notifications")
  else
    let template := getSMSTemplate (NotificationRequest.Type_ req) req in
    message <- replaceVariables (SMSTemplate.Message template)
                                (SMSTemplate.Variables template) ;;
    let smsInput :=
      {| sns.Message := message;
         sns.PhoneNumber := NotificationRequest.RecipientPhone req;
         sns.MessageAttributes :=
           {[ "AWS.SNS.SMS.SMSType" := ("String", "Transactional") ]} |} in
    err <- Publish smsInput ;;
    match err with
    | Some e => ret (Err ("failed to send SMS: " +:+ e))
    | None =>
        id <- ask uuid_NewString ;;
        now <- ask time_Now ;;
        ret (Ok {| NotificationResponse.NotificationID := id;
                   NotificationResponse.Status := "sent";
                   NotificationResponse.SentAt := now;
                   NotificationResponse.Channel := "sms" |})
    end.

(** [sendUrgentNotification]: the email first; the SMS when there is a phone
    number, its result dropped. *)
Definition sendUrgentNotification
    (s : NotificationService) (req : NotificationRequest.t)
    : M (result error NotificationResponse.t) :=
  r <- sendEmailNotification s req ;;
  match r with
  | Err err => ret (Err ("failed to send urgent email: " +:+ err))
  | Ok emailResp =>
      (if bool_decide (NotificationRequest.RecipientPhone req ≠ "") then
         _ <- sendSMSNotification req ;; ret tt
       else ret tt) ;;;
      ret (Ok emailResp)
  end.

(** [sendHighPriorityNotification]. *)
Definition sendHighPriorityNotification
    (s : NotificationService) (req : NotificationRequest.t)
    : M (result error NotificationResponse.t) :=
  r <- sendEmailNotification s req ;;
  match r with
  | Err err => ret (Err ("failed to send high priority email: " +:+ err))
  | Ok emailResp =>
      (if bool_decide (NotificationRequest.RecipientPhone req ≠ "")
          && isCriticalNotificationType (NotificationRequest.Type_ req) then
         _ <- sendSMSNotification req ;; ret tt
       else ret tt) ;;;
      ret (Ok emailResp)
  end.

(** [SendNotification]. The notification record is built and dropped (it is
    not saved); building it parses the two identifiers. *)
Definition SendNotification
    (s : NotificationService) (req : NotificationRequest.t)
    : M (result error NotificationResponse.t) :=
  landlordID <- MustParse (NotificationRequest.LandlordID req) ;;
  recipientID <- MustParse (NotificationRequest.RecipientID req) ;;
  let _ : Notification.t :=
    {| Notification.LandlordID := landlordID;
       Notification.RecipientID := recipientID;
       Notification.RecipientType := NotificationRequest.RecipientType req;
       Notification.Type_ := NotificationRequest.Type_ req;
       Notification.Title := NotificationRequest.Title req;
       Notification.Message := NotificationRequest.Message req;
       Notification.RelatedEntityID := NotificationRequest.RelatedEntityID req;
       Notification.RelatedEntityType :=
         NotificationRequest.RelatedEntityType req;
       Notification.IsRead := false |} in
  r <- (if decide (NotificationRequest.Priority req = "urgent") then
          sendUrgentNotification s req
        else if decide (NotificationRequest.Priority req = "high") then
          sendHighPriorityNotification s req
        else
          sendEmailNotification s req) ;;
  match r with
  | Err err => ret (Err ("failed to send notification: " +:+ err))
  | Ok response => ret (Ok response)
  end.

(** The loop of [SendBulkNotifications]: [responses] is the slice built so
    far. *)
Fixpoint SendBulkNotifications_loop
    (s : NotificationService) (requests : list NotificationRequest.t)
    (responses : list NotificationResponse.t)
    : M (list NotificationResponse.t) :=
  match requests with
  | [] => ret responses
  | req :: rest =>
      r <- SendNotification s req ;;
      match r with
      | Err _ => SendBulkNotifications_loop s rest responses
      | Ok resp => SendBulkNotifications_loop s rest (responses ++ [resp])
      end
  end.

(** [SendBulkNotifications]: the responses and a nil error. *)
Definition SendBulkNotifications
    (s : NotificationService) (requests : list NotificationRequest.t)
    : M (list NotificationResponse.t * option error) :=
  responses <- SendBulkNotifications_loop s requests [] ;;
  ret (responses, None).

End dispatch.

(** ** Observations on a run *)

Section observations.
Context `{C : Collaborators}.

(** The transport calls a computation makes when run from [st], in order. *)
Definition emitted {A} (m : M A) (st : State) : list Call :=
  drop (length (calls st)) (calls (m st).2).

Definition returned {A} (m : M A) (st : State) : outcome A := (m st).1.

(** A run from [st] that returns [a], makes the calls [cs] and leaves the
    world [w]. *)
Definition runs {A} (m : M A) (st : State) (a : A) (cs : list Call)
    (w : World) : Prop :=
  m st = (Returns a, {| world := w; calls := calls st ++ cs |}).

(** What a run of [SendNotification] on [req] from [st] does when it gets
    to the transports: the email call comes first; when it fails, no other
    call is made and an error is returned; when it succeeds, the SMS call
    follows exactly when [with_sms], to the phone number of the request, and
    the response returned is the one of the email, with status "sent" and
    channel "email", whatever the SMS transport answered. *)
Definition dispatched
    (send : M (result error NotificationResponse.t))
    (email : M (result error NotificationResponse.t))
    (req : NotificationRequest.t) (st : State) (with_sms : bool) : Prop :=
  ∃ input err sms,
    emitted send st = CallSendEmail input err :: sms ∧
    match err with
    | Some _ => sms = [] ∧ ∃ msg, returned send st = Returns (Err msg)
    | None =>
        (if with_sms then
           ∃ sinput serr,
             sms = [CallPublish sinput serr] ∧
             sns.PhoneNumber sinput = NotificationRequest.RecipientPhone req
         else sms = []) ∧
        ∃ resp,
          returned send st = Returns (Ok resp) ∧
          returned email st = Returns (Ok resp) ∧
          NotificationResponse.Status resp = "sent" ∧
          NotificationResponse.Channel resp = "email"
    end.

(** The batch as the specification words it: the requests are taken in
    order, each is sent, a request whose sending returns an error is
    skipped, and the responses of the others are kept in order.
    [processed s requests st responses st'] relates the requests and the
    state before to the responses and the state after. *)
Inductive processed (s : NotificationService)
    : list NotificationRequest.t → State →
      list NotificationResponse.t → State → Prop :=
  | processed_nil st : processed s [] st [] st
  | processed_sent req rest st resp cs w responses st' :
      runs (SendNotification s req) st (Ok resp) cs w →
      processed s rest {| world := w; calls := calls st ++ cs |}
        responses st' →
      processed s (req :: rest) st (resp :: responses) st'
  | processed_skipped req rest st err cs w responses st' :
      runs (SendNotification s req) st (Err err) cs w →
      processed s rest {| world := w; calls := calls st ++ cs |}
        responses st' →
      processed s (req :: rest) st responses st'.

End observations.

(** ** Placeholders *)

(** The text ["{{" + key + "}}"] that [replaceVariables] looks for. *)
Definition placeholder (key : string) : string := "{{" +:+ key +:+ "}}".

(** [s] holds a token: two opening braces and, somewhere after them, two
    closing braces. *)
Fixpoint has_token (s : string) : bool :=
  match s with
  | "" => false
  | String _ t =>
      (Str.HasPrefix s "{{" && Str.Contains (Str.drop 2 s) "}}")
      || has_token t
  end.

(** A template is well formed when each pair of opening braces in it opens a
    placeholder whose name has no brace: read from the left, [{{] is followed
    by a brace-free name and [}}].  Single braces (as in a style sheet) are
    plain text.  [in_key] tells that the scan is inside a name. *)
Fixpoint wf_scan (in_key : bool) (s : string) : bool :=
  match s with
  | "" => negb in_key
  | String c t =>
      if in_key then
        if Ascii.eqb c "}" then
          match t with
          | String c' t' => Ascii.eqb c' "}" && wf_scan false t'
          | "" => false
          end
        else negb (Ascii.eqb c "{") && wf_scan true t
      else if Ascii.eqb c "{" then
        match t with
        | String c' t' =>
            if Ascii.eqb c' "{" then wf_scan true t' else wf_scan false t
        | "" => true
        end
      else wf_scan false t
  end.

Definition well_formed (template : string) : bool := wf_scan false template.

Definition starts_with_brace (s : string) : bool := Str.HasPrefix s "{".

(** The same, as the ways a well-formed template is built. *)
Inductive wf_template : string → Prop :=
  | wf_nil : wf_template ""
  | wf_char c s :
      c ≠ "{"%char → wf_template s → wf_template (String c s)
  | wf_brace s :
      starts_with_brace s = false → wf_template s →
      wf_template (String "{" s)
  | wf_token k s :
      Str.bracefree k = true → wf_template s →
      wf_template (placeholder k +:+ s).

(** The keys and the values of a mapping have no brace. *)
Definition bracefree_entry (kv : string * string) : bool :=
  Str.bracefree kv.1 && Str.bracefree kv.2.

Definition bracefree_map (variables : gmap string string) : bool :=
  forallb bracefree_entry (map_to_list variables).

Definition bracefree_keys (variables : gmap string string) : bool :=
  forallb (λ kv, Str.bracefree kv.1) (map_to_list variables).

(** ** Scripted collaborators

    A world in which the transports answer from a script (an exhausted
    script answers with success), the clock reads Go's reference time (so
    that formatting it with a layout gives the text of the layout), every
    new UUID is the same, and a map is ranged over in the order of
    [map_to_list], or in the reverse order when [reversed] is set. *)

Module Scripted.

Record script : Type := {
  ses_script : list (option error);
  sns_script : list (option error)
}.

Definition send_email (_ : ses.SendEmailInput) (w : script)
    : option error * script :=
  match ses_script w with
  | [] => (None, w)
  | a :: rest => (a, {| ses_script := rest; sns_script := sns_script w |})
  end.

Definition publish (_ : sns.PublishInput) (w : script)
    : option error * script :=
  match sns_script w with
  | [] => (None, w)
  | a :: rest => (a, {| ses_script := ses_script w; sns_script := rest |})
  end.

Definition range (reversed : bool) (m : gmap string string) (w : script)
    : list (string * string) * script :=
  (if reversed then reverse (map_to_list m) else map_to_list m, w).

Definition range_perm (reversed : bool) (m : gmap string string) (w : script)
    : (range reversed m w).1 ≡ₚ map_to_list m :=
  match reversed as b return (range b m w).1 ≡ₚ map_to_list m with
  | true => reverse_Permutation (map_to_list m)
  | false => Permutation_refl (map_to_list m)
  end.

Definition collaborators (reversed : bool) : Collaborators :=
  {| World := script;
     time_Time := unit;
     SES_SendEmail := send_email;
     SNS_Publish := publish;
     time_Now := λ w, (tt, w);
     time_Format := λ _ layout, layout;
     uuid_NewString := λ w, ("6f1c1b0e-3c2a-4d5e-9f00-a1b2c3d4e5f6", w);
     map_range := range reversed;
     map_range_perm := range_perm reversed |}.

Definition start (ses sns : list (option error)) : @State (collaborators false) :=
  {| world := {| ses_script := ses; sns_script := sns |} : @World (collaborators false);
     calls := [] |}.

Definition start_reversed (ses sns : list (option error))
    : @State (collaborators true) :=
  {| world := {| ses_script := ses; sns_script := sns |} : @World (collaborators true);
     calls := [] |}.

Definition service : NotificationService :=
  {| config := {| AWS_SES_FromEmail := "noreply@dwell.example" |} |}.

(** A request with well-formed identifiers. *)
Definition request (type priority phone : string) : NotificationRequest.t :=
  {| NotificationRequest.Type_ := type;
     NotificationRequest.Title := "Rent notice";
     NotificationRequest.Message := "Please read the attached notice";
     NotificationRequest.LandlordID := "123e4567-e89b-12d3-a456-426614174000";
     NotificationRequest.RecipientID := "123e4567-e89b-12d3-a456-426614174001";
     NotificationRequest.RecipientType := "tenant";
     NotificationRequest.RecipientEmail := "a@b.com";
     NotificationRequest.RecipientPhone := phone;
     NotificationRequest.RelatedEntityID := None;
     NotificationRequest.RelatedEntityType := "";
     NotificationRequest.Priority := priority |}.

(** The same request with a landlord identifier that is not a UUID. *)
Definition malformed_request (type priority phone : string)
    : NotificationRequest.t :=
  {| NotificationRequest.Type_ := type;
     NotificationRequest.Title := "Rent notice";
     NotificationRequest.Message := "Please read the attached notice";
     NotificationRequest.LandlordID := "not-a-uuid";
     NotificationRequest.RecipientID := "123e4567-e89b-12d3-a456-426614174001";
     NotificationRequest.RecipientType := "tenant";
     NotificationRequest.RecipientEmail := "a@b.com";
     NotificationRequest.RecipientPhone := phone;
     NotificationRequest.RelatedEntityID := None;
     NotificationRequest.RelatedEntityType := "";
     NotificationRequest.Priority := priority |}.

End Scripted.

(** ** The notifications of maintenance requests and payments *)

(** [encoding/hex]: [Encode] with the table "0123456789abcdef", written in
    front of [rest]. *)
Module hex.

Definition hextable : string := "0123456789abcdef".

Definition digit (n : N) : ascii :=
  match String.get (N.to_nat n) hextable with
  | Some c => c
  | None => "0"%char
  end.

Fixpoint Encode (src : list N) (rest : string) : string :=
  match src with
  | [] => rest
  | b :: src =>
      String (digit (N.shiftr b 4)) (String (digit (N.land b 15)) (Encode src rest))
  end.

End hex.

(** A UUID of the library is an array of 16 bytes. *)
Definition is_uuid (u : uuid.UUID) : bool :=
  (length u =? 16) && forallb (λ b, (b <? 256)%N) u.

(** [UUID.String] of github.com/google/uuid: the form
    xxxxxxxx-xxxx-xxxx-xxxx-xxxxxxxxxxxx, in lower case. *)
Definition UUID_String (u : uuid.UUID) : string :=
  hex.Encode (take 4 u)
    (String "-" (hex.Encode (take 2 (drop 4 u))
       (String "-" (hex.Encode (take 2 (drop 6 u))
          (String "-" (hex.Encode (take 2 (drop 8 u))
             (String "-" (hex.Encode (drop 10 u) "")))))))).

(** [domain.MaintenanceRequest] and [domain.Payment], with the fields the
    notifications read. *)
Module MaintenanceRequest.
Record t : Type := {
  ID : uuid.UUID;
  LandlordID : uuid.UUID;
  TenantID : uuid.UUID;
  Title : string;
  Description : string;
  Priority : string
}.
End MaintenanceRequest.

(** The amount of a payment is a [float64]; it is kept abstract, with the
    text [fmt.Sprintf("%.2f", _)] gives for it. *)
Class Float64 : Type := {
  float64 : Type;
  Sprintf_2f : float64 → string
}.

Module Payment.
Record t `{Float64} : Type := {
  ID : uuid.UUID;
  LandlordID : uuid.UUID;
  TenantID : uuid.UUID;
  Amount : float64
}.
End Payment.

Section notifications_of_entities.
Context `{C : Collaborators} `{F : Float64}.

(** [SendMaintenanceNotification]: the error of [SendNotification]. *)
Definition SendMaintenanceNotification
    (s : NotificationService) (maintenanceReq : MaintenanceRequest.t)
    (recipientType recipientEmail recipientPhone : string)
    : M (option error) :=
  let req :=
    {| NotificationRequest.Type_ := "maintenance_request";
       NotificationRequest.Title := MaintenanceRequest.Title maintenanceReq;
       NotificationRequest.Message :=
         MaintenanceRequest.Description maintenanceReq;
       NotificationRequest.LandlordID :=
         UUID_String (MaintenanceRequest.LandlordID maintenanceReq);
       NotificationRequest.RecipientID :=
         UUID_String (MaintenanceRequest.TenantID maintenanceReq);
       NotificationRequest.RecipientType := recipientType;
       NotificationRequest.RecipientEmail := recipientEmail;
       NotificationRequest.RecipientPhone := recipientPhone;
       NotificationRequest.RelatedEntityID :=
         Some (MaintenanceRequest.ID maintenanceReq);
       NotificationRequest.RelatedEntityType := "maintenance_request";
       NotificationRequest.Priority :=
         MaintenanceRequest.Priority maintenanceReq |} in
  r <- SendNotification s req ;;
  match r with
  | Ok _ => ret None
  | Err err => ret (Some err)
  end.

(** [SendPaymentNotification]. *)
Definition SendPaymentNotification
    (s : NotificationService) (payment : Payment.t)
    (recipientType recipientEmail recipientPhone : string)
    : M (option error) :=
  let req :=
    {| NotificationRequest.Type_ := "payment_due";
       NotificationRequest.Title := "Payment Due";
       NotificationRequest.Message :=
         "Payment of $" +:+ Sprintf_2f (Payment.Amount payment)
         +:+ " is due for your property";
       NotificationRequest.LandlordID :=
         UUID_String (Payment.LandlordID payment);
       NotificationRequest.RecipientID :=
         UUID_String (Payment.TenantID payment);
       NotificationRequest.RecipientType := recipientType;
       NotificationRequest.RecipientEmail := recipientEmail;
       NotificationRequest.RecipientPhone := recipientPhone;
       NotificationRequest.RelatedEntityID := Some (Payment.ID payment);
       NotificationRequest.RelatedEntityType := "payment";
       NotificationRequest.Priority := "medium" |} in
  r <- SendNotification s req ;;
  match r with
  | Ok _ => ret None
  | Err err => ret (Some err)
  end.

End notifications_of_entities.

(** ** Rendering in one pass

    The rendering to compare the loop of [replaceVariables] with: the
    template is read once from the left; a placeholder whose name is a key of
    the mapping gives the value of the key, and everything else is copied.
    [key] holds the name that is being read, if any. *)
Fixpoint substitute_scan
    (variables : gmap string string) (key : option string) (s : string)
    : string :=
  match s with
  | "" =>
      match key with
      | Some k => "{{" +:+ k
      | None => ""
      end
  | String c t =>
      match key with
      | Some k =>
          if Ascii.eqb c "}" then
            match t with
            | String c' t' =>
                if Ascii.eqb c' "}" then
                  default (placeholder k) (variables !! k)
                  +:+ substitute_scan variables None t'
                else substitute_scan variables (Some (k +:+ String c "")) t
            | "" => "{{" +:+ k +:+ "}"
            end
          else substitute_scan variables (Some (k +:+ String c "")) t
      | None =>
          if Ascii.eqb c "{" then
            match t with
            | String c' t' =>
                if Ascii.eqb c' "{" then substitute_scan variables (Some "") t'
                else String c (substitute_scan variables None t)
            | "" => "{"
            end
          else String c (substitute_scan variables None t)
      end
  end.

Definition substitute (variables : gmap string string) (template : string)
    : string :=
  substitute_scan variables None template.

(** ** Sample entities

    A maintenance request and a payment to run the notifications on. *)

Module Sample.

(** Two amounts, with their texts. *)
Definition money : Float64 :=
  {| float64 := bool;
     Sprintf_2f := λ b : bool, if b then "1200.00" else "950.50" |}.

(** The UUID 123e4567-e89b-12d3-a456-4266141740xx. *)
Definition id (last : N) : uuid.UUID :=
  [18; 62; 69; 103; 232; 155; 18; 211; 164; 86; 66; 102; 20; 23; 64; last]%N.

Definition maintenance (priority : string) : MaintenanceRequest.t :=
  {| MaintenanceRequest.ID := id 2;
     MaintenanceRequest.LandlordID := id 0;
     MaintenanceRequest.TenantID := id 1;
     MaintenanceRequest.Title := "Leaking tap";
     MaintenanceRequest.Description := "The kitchen tap leaks";
     MaintenanceRequest.Priority := priority |}.

Definition payment (amount : @float64 money) : @Payment.t money :=
  {| Payment.ID := id 3;
     Payment.LandlordID := id 0;
     Payment.TenantID := id 1;
     Payment.Amount := amount |}.

End Sample.

(** ** The S3 service *)

(** [filepath.Ext] where the path separator is the slash: the index goes down
    from the last character and stops at a separator; at the first dot it
    meets, the rest of the path from that dot is the extension.  [i] is one
    more than the index that is looked at. *)
Module filepath.

Fixpoint Ext_loop (path : string) (i : nat) : string :=
  match i with
  | 0 => ""
  | S j =>
      match String.get j path with
      | Some c =>
          if Ascii.eqb c "/" then ""
          else if Ascii.eqb c "." then Str.drop j path
          else Ext_loop path j
      | None => ""
      end
  end.

Definition Ext (path : string) : string := Ext_loop path (String.length path).

End filepath.

(** [strings.HasSuffix] and [strings.TrimSuffix]. *)
Definition HasSuffix (s suffix : string) : bool :=
  (String.length suffix <=? String.length s)
  && String.eqb (Str.drop (String.length s - String.length suffix) s) suffix.

Definition TrimSuffix (s suffix : string) : string :=
  if HasSuffix s suffix
  then Str.take (String.length s - String.length suffix) s
  else s.

(** [multipart.FileHeader]; [Header_Get] is [Header.Get] for a key in
    canonical form: the first value of the key, or the empty string. *)
Module multipart.

Record FileHeader : Type := {
  Filename : string;
  Header : gmap string (list string);
  Size : Z
}.

Definition Header_Get (h : gmap string (list string)) (key : string) : string :=
  match h !! key with
  | Some (v :: _) => v
  | _ => ""
  end.

End multipart.

(** The inputs and outputs of the S3 client, with the fields the service
    sets and reads. *)
Module s3.

Module PutObjectInput.
Record t (File : Type) : Type := {
  Bucket : string;
  Key : string;
  Body : File;
  ContentType : string;
  ContentLength : Z;
  Metadata : gmap string string
}.
Arguments Bucket {_} _.
Arguments Key {_} _.
Arguments Body {_} _.
Arguments ContentType {_} _.
Arguments ContentLength {_} _.
Arguments Metadata {_} _.
End PutObjectInput.

Module DeleteObjectInput.
Record t : Type := { Bucket : string; Key : string }.
End DeleteObjectInput.

Module ListObjectsV2Input.
Record t : Type := { Bucket : string; Prefix : string }.
End ListObjectsV2Input.

Module GetObjectInput.
Record t : Type := { Bucket : string; Key : string }.
End GetObjectInput.

Module HeadObjectInput.
Record t : Type := { Bucket : string; Key : string }.
End HeadObjectInput.

(** [types.Object]: the three fields are pointers. *)
Module Object.
Record t `{Collaborators} : Type := {
  Key : option string;
  Size : option Z;
  LastModified : option time_Time
}.
End Object.

Module ListObjectsV2Output.
Record t `{Collaborators} : Type := { Contents : list Object.t }.
End ListObjectsV2Output.

Module HeadObjectOutput.
Record t : Type := { Metadata : gmap string string }.
End HeadObjectOutput.

Module PresignedHTTPRequest.
Record t : Type := { URL : string }.
End PresignedHTTPRequest.

End s3.

(** The S3 client of [aws.Clients] (taken to be initialised), its presign
    client, and the file behind a [multipart.FileHeader].  [expires] is a
    [time.Duration]. *)
Class S3Client `{Collaborators} : Type := {
  multipart_File : Type;
  FileHeader_Open :
    multipart.FileHeader → World → result error multipart_File * World;
  File_Close : multipart_File → World → World;
  S3_PutObject :
    s3.PutObjectInput.t multipart_File → World → option error * World;
  S3_DeleteObject : s3.DeleteObjectInput.t → World → option error * World;
  S3_ListObjectsV2 :
    s3.ListObjectsV2Input.t → World
    → result error s3.ListObjectsV2Output.t * World;
  S3_HeadObject :
    s3.HeadObjectInput.t → World → result error s3.HeadObjectOutput.t * World;
  S3_PresignGetObject :
    s3.GetObjectInput.t → Z → World
    → result error s3.PresignedHTTPRequest.t * World
}.

(** The fields of [config.Config] the S3 service reads. *)
Record S3Config : Type := {
  AWS_S3_BucketName : string;
  AWS_Region : string
}.

Record S3Service : Type := { s3_config : S3Config }.

Module FileUploadRequest.
Record t : Type := {
  File : option multipart.FileHeader;
  LandlordID : string;
  Category : string;
  EntityID : string;
  Description : string;
  IsBeforePhoto : bool
}.
End FileUploadRequest.

Module FileUploadResponse.
Record t `{Collaborators} : Type := {
  FileKey : string;
  URL : string;
  Size : Z;
  UploadedAt : time_Time;
  Category : string;
  EntityID : string
}.
End FileUploadResponse.

Module FileDeleteRequest.
Record t : Type := { FileKey : string; LandlordID : string }.
End FileDeleteRequest.

Module FileInfo.
Record t `{Collaborators} : Type := {
  FileKey : string;
  URL : string;
  Size : Z;
  UploadedAt : time_Time;
  Category : string;
  EntityID : string;
  Description : string
}.
End FileInfo.

(** A method returns, or panics on a nil pointer. *)
Inductive S3Outcome (A : Type) : Type :=
  | S3Returns (a : A)
  | S3NilDereference.
Arguments S3Returns {_} _.
Arguments S3NilDereference {_}.

Section s3_service.
Context `{S : S3Client}.

(** A call on the file or on the S3 client, and the error it answered
    with. *)
Inductive S3Call : Type :=
  | CallOpen (header : multipart.FileHeader) (err : option error)
  | CallClose (file : multipart_File)
  | CallPutObject (input : s3.PutObjectInput.t multipart_File)
      (err : option error)
  | CallDeleteObject (input : s3.DeleteObjectInput.t) (err : option error)
  | CallListObjectsV2 (input : s3.ListObjectsV2Input.t) (err : option error)
  | CallHeadObject (input : s3.HeadObjectInput.t) (err : option error)
  | CallPresignGetObject (input : s3.GetObjectInput.t) (expires : Z)
      (err : option error).

(** What a method gives from a world: its outcome, the calls it made, in
    order, and the world it leaves. *)
Definition S3Run (A : Type) : Type := S3Outcome A * list S3Call * World.

Definition s3_outcome {A} (r : S3Run A) : S3Outcome A := r.1.1.
Definition s3_calls {A} (r : S3Run A) : list S3Call := r.1.2.
Definition s3_world {A} (r : S3Run A) : World := r.2.

(** [fmt.Sprintf("%t", b)]. *)
Definition Sprintf_t (b : bool) : string := if b then "true" else "false".

(** [generateFileKey]. *)
Definition generateFileKey
    (s : S3Service) (landlordID category entityID filename : string)
    (w : World) : string * World :=
  let '(now, w) := time_Now w in
  let timestamp := time_Format now "20060102-150405" in
  let ext := filepath.Ext filename in
  let baseName := TrimSuffix filename ext in
  (landlordID +:+ "/" +:+ category +:+ "/" +:+ entityID +:+ "/"
   +:+ baseName +:+ "-" +:+ timestamp +:+ ext, w).

(** The public URL of a key: the [fmt.Sprintf] that [UploadFile] and
    [ListFiles] both have. *)
Definition object_url (s : S3Service) (key : string) : string :=
  "https://" +:+ AWS_S3_BucketName (s3_config s) +:+ ".s3."
  +:+ AWS_Region (s3_config s) +:+ ".amazonaws.com/" +:+ key.

(** [UploadFile].  The file is closed when the method returns. *)
Definition UploadFile
    (s : S3Service) (req : FileUploadRequest.t) (w : World)
    : S3Run (result error FileUploadResponse.t) :=
  match FileUploadRequest.File req with
  | None => (S3NilDereference, [], w)
  | Some header =>
      let '(fileKey, w) :=
        generateFileKey s (FileUploadRequest.LandlordID req)
          (FileUploadRequest.Category req) (FileUploadRequest.EntityID req)
          (multipart.Filename header) w in
      match FileHeader_Open header w with
      | (Err err, w) =>
          (S3Returns (Err ("failed to open file: " +:+ err)),
           [CallOpen header (Some err)], w)
      | (Ok file, w) =>
          let input :=
            {| s3.PutObjectInput.Bucket := AWS_S3_BucketName (s3_config s);
               s3.PutObjectInput.Key := fileKey;
               s3.PutObjectInput.Body := file;
               s3.PutObjectInput.ContentType :=
                 multipart.Header_Get (multipart.Header header) "Content-Type";
               s3.PutObjectInput.ContentLength := multipart.Size header;
               s3.PutObjectInput.Metadata :=
                 {[ "landlord_id" := FileUploadRequest.LandlordID req;
                    "category" := FileUploadRequest.Category req;
                    "entity_id" := FileUploadRequest.EntityID req;
                    "description" := FileUploadRequest.Description req;
                    "is_before_photo" :=
                      Sprintf_t (FileUploadRequest.IsBeforePhoto req);
                    "original_name" := multipart.Filename header ]} |} in
          match S3_PutObject input w with
          | (Some err, w) =>
              (S3Returns (Err ("failed to upload file to S3: " +:+ err)),
               [CallOpen header None; CallPutObject input (Some err);
                CallClose file],
               File_Close file w)
          | (None, w) =>
              let url := object_url s fileKey in
              let '(now, w) := time_Now w in
              (S3Returns
                 (Ok {| FileUploadResponse.FileKey := fileKey;
                        FileUploadResponse.URL := url;
                        FileUploadResponse.Size := multipart.Size header;
                        FileUploadResponse.UploadedAt := now;
                        FileUploadResponse.Category :=
                          FileUploadRequest.Category req;
                        FileUploadResponse.EntityID :=
                          FileUploadRequest.EntityID req |}),
               [CallOpen header None; CallPutObject input None;
                CallClose file],
               File_Close file w)
          end
      end
  end.

(** [DeleteFile]. *)
Definition DeleteFile
    (s : S3Service) (req : FileDeleteRequest.t) (w : World)
    : S3Run (option error) :=
  let input :=
    {| s3.DeleteObjectInput.Bucket := AWS_S3_BucketName (s3_config s);
       s3.DeleteObjectInput.Key := FileDeleteRequest.FileKey req |} in
  match S3_DeleteObject input w with
  | (Some err, w) =>
      (S3Returns (Some ("failed to delete file from S3: " +:+ err)),
       [CallDeleteObject input (Some err)], w)
  | (None, w) => (S3Returns None, [CallDeleteObject input None], w)
  end.

(** The loop of [ListFiles]: [files] is the slice built so far; the three
    pointers of an object are dereferenced. *)
Fixpoint ListFiles_loop
    (s : S3Service) (category entityID : string)
    (contents : list s3.Object.t) (files : list FileInfo.t)
    : option (list FileInfo.t) :=
  match contents with
  | [] => Some files
  | obj :: rest =>
      match s3.Object.Key obj, s3.Object.Size obj,
            s3.Object.LastModified obj with
      | Some key, Some size, Some modified =>
          ListFiles_loop s category entityID rest
            (files ++ [{| FileInfo.FileKey := key;
                          FileInfo.URL := object_url s key;
                          FileInfo.Size := size;
                          FileInfo.UploadedAt := modified;
                          FileInfo.Category := category;
                          FileInfo.EntityID := entityID;
                          FileInfo.Description := "" |}])
      | _, _, _ => None
      end
  end.

(** [ListFiles]. *)
Definition ListFiles
    (s : S3Service) (landlordID category entityID : string) (w : World)
    : S3Run (result error (list FileInfo.t)) :=
  let '(prefix, w) := generateFileKey s landlordID category entityID "" w in
  let input :=
    {| s3.ListObjectsV2Input.Bucket := AWS_S3_BucketName (s3_config s);
       s3.ListObjectsV2Input.Prefix := prefix |} in
  match S3_ListObjectsV2 input w with
  | (Err err, w) =>
      (S3Returns (Err ("failed to list files from S3: " +:+ err)),
       [CallListObjectsV2 input (Some err)], w)
  | (Ok result, w) =>
      match ListFiles_loop s category entityID
              (s3.ListObjectsV2Output.Contents result) [] with
      | Some files =>
          (S3Returns (Ok files), [CallListObjectsV2 input None], w)
      | None => (S3NilDereference, [CallListObjectsV2 input None], w)
      end
  end.



End s3_service.

(** ** A scripted S3 client

    Over the scripted collaborators: opening a file gives its name as the
    handle, or fails with [open_error]; [PutObject] and [DeleteObject]
    answer with [put_error]; a listing gives [listing]; the metadata of an
    object is empty and the presigned URL of a key is the key behind a fixed
    host. *)

Module ScriptedS3.

Definition client (open_error put_error : option error)
    (listing : list (@s3.Object.t (Scripted.collaborators false)))
    : @S3Client (Scripted.collaborators false) :=
  {| multipart_File := string;
     FileHeader_Open := λ header w,
       (match open_error with
        | Some e => Err e
        | None => Ok (multipart.Filename header)
        end, w);
     File_Close := λ _ w, w;
     S3_PutObject := λ _ w, (put_error, w);
     S3_DeleteObject := λ _ w, (put_error, w);
     S3_ListObjectsV2 := λ _ w,
       (Ok {| s3.ListObjectsV2Output.Contents := listing |}, w);
     S3_HeadObject := λ _ w,
       (Ok {| s3.HeadObjectOutput.Metadata := ∅ |}, w);
     S3_PresignGetObject := λ input _ w,
       (Ok {| s3.PresignedHTTPRequest.URL :=
                "https://signed.example/" +:+ s3.GetObjectInput.Key input |},
        w) |}.

Definition world : @World (Scripted.collaborators false) :=
  {| Scripted.ses_script := []; Scripted.sns_script := [] |}.

Definition service : S3Service :=
  {| s3_config :=
       {| AWS_S3_BucketName := "dwell-files"; AWS_Region := "eu-west-1" |} |}.

Definition photo : multipart.FileHeader :=
  {| multipart.Filename := "kitchen.before.jpg";
     multipart.Header := {[ "Content-Type" := ["image/jpeg"] ]};
     multipart.Size := 48213 |}.

Definition upload : FileUploadRequest.t :=
  {| FileUploadRequest.File := Some photo;
     FileUploadRequest.LandlordID := "landlord-1";
     FileUploadRequest.Category := "maintenance";
     FileUploadRequest.EntityID := "request-7";
     FileUploadRequest.Description := "Kitchen before the repair";
     FileUploadRequest.IsBeforePhoto := true |}.


End ScriptedS3.

(** * The model at work *)

Example ReplaceAll_leftmost : ReplaceAll "aaa" "aa" "b" = "ba".
Proof. reflexivity. Qed.

Example ReplaceAll_every_occurrence :
  ReplaceAll "Hi {{name}}, bye {{name}}" "{{name}}" "Ann" = "Hi Ann, bye Ann".
Proof. reflexivity. Qed.

Example Parse_hyphenated :
  valid_uuid "123e4567-e89b-12d3-a456-426614174000" = true.
Proof. reflexivity. Qed.

Example Parse_other_forms :
  valid_uuid "urn:UUID:123e4567-e89b-12d3-a456-426614174000" = true ∧
  valid_uuid "{123e4567-e89b-12d3-a456-426614174000}" = true ∧
  valid_uuid "123e4567e89b12d3a456426614174000" = true.
Proof. by split_and!. Qed.

Example Parse_rejects :
  uuid.Parse "not-a-uuid" = Err (uuid.InvalidLength 10) ∧
  uuid.Parse "" = Err (uuid.InvalidLength 0) ∧
  uuid.Parse "123e4567-e89b-12d3-a456-42661417400g" = Err uuid.InvalidFormat.
Proof. by split_and!. Qed.

Example template_lengths :
  String.length <$>
    [maintenance_request_HTMLBody; maintenance_request_TextBody;
     payment_due_HTMLBody; payment_due_TextBody;
     generic_HTMLBody; generic_TextBody]
  = [1056; 236; 990; 248; 633; 78].
Proof. reflexivity. Qed.

(** The templates of the registry are well formed: their only double
    braces are those of placeholders (the style sheets use single
    braces). *)
Example registry_templates_well_formed :
  forallb well_formed
    [maintenance_request_HTMLBody; maintenance_request_TextBody;
     payment_due_HTMLBody; payment_due_TextBody;
     generic_HTMLBody; generic_TextBody;
     "New Maintenance Request - {{title}}"; "Payment Due Reminder";
     "{{title}}"; "{{title}}: {{message}}"]
  = true.
Proof. reflexivity. Qed.

(** The scenario of the specification: an emergency at "high" priority with
    a phone number, both transports succeeding; then the same with the SMS
    transport failing. *)
Example scenario_high_emergency :
  is_email_call <$>
    emitted
      (SendNotification Scripted.service
         (Scripted.request "maintenance_emergency" "high" "+15551234567"))
      (Scripted.start [] [])
  = [true; false] ∧
  returned
    (SendNotification Scripted.service
       (Scripted.request "maintenance_emergency" "high" "+15551234567"))
    (Scripted.start [] [])
  = returned
      (SendNotification Scripted.service
         (Scripted.request "maintenance_emergency" "high" "+15551234567"))
      (Scripted.start [] [Some "Throttled"]).
Proof. split; vm_compute; reflexivity. Qed.

(** The batch scenario of the specification: the second of three requests
    has a failing email; the two others are answered, in order. *)
Example scenario_bulk :
  match
    returned
      (SendBulkNotifications Scripted.service
         [Scripted.request "xyz" "low" "";
          Scripted.request "payment_due" "medium" "";
          Scripted.request "xyz" "low" ""])
      (Scripted.start [None; Some "MessageRejected"; None] [])
  with
  | Returns (responses, err) => length responses = 2 ∧ err = None
  | Panics _ => False
  end.
Proof. vm_compute. done. Qed.

(** * Facts on strings *)

Module StrFacts.

Lemma app_cons c s t : String c s +:+ t = String c (s +:+ t).
Proof. reflexivity. Qed.

Lemma app_nil_l s : "" +:+ s = s.
Proof. reflexivity. Qed.

Lemma app_nil_r s : s +:+ "" = s.
Proof. induction s as [|c s IH]; [done|]. by rewrite app_cons, IH. Qed.

Lemma app_assoc s t u : (s +:+ t) +:+ u = s +:+ t +:+ u.
Proof. induction s as [|c s IH]; [done|]. by rewrite !app_cons, IH. Qed.

Lemma length_app s t :
  String.length (s +:+ t) = String.length s + String.length t.
Proof. induction s as [|c s IH]; [done|]. rewrite app_cons. simpl. lia. Qed.

Lemma HasPrefix_nil s : Str.HasPrefix s "" = true.
Proof. by destruct s. Qed.

Lemma HasPrefix_cons a s b p :
  Str.HasPrefix (String a s) (String b p) = Ascii.eqb b a && Str.HasPrefix s p.
Proof. reflexivity. Qed.

Lemma HasPrefix_app s t : Str.HasPrefix (s +:+ t) s = true.
Proof.
  induction s as [|c s IH]; [apply HasPrefix_nil|].
  by rewrite app_cons, HasPrefix_cons, Ascii.eqb_refl, IH.
Qed.

Lemma HasPrefix_spec s p : Str.HasPrefix s p = true ↔ ∃ t, s = p +:+ t.
Proof.
  split.
  - revert s. induction p as [|a p IH]; intros s H; [by exists s|].
    destruct s as [|b s]; [done|]. rewrite HasPrefix_cons in H.
    apply andb_true_iff in H as [->%Ascii.eqb_eq [t ->]%IH]. by exists t.
  - intros [t ->]. apply HasPrefix_app.
Qed.

Lemma HasPrefix_weaken s p t :
  Str.HasPrefix s p = true → Str.HasPrefix (s +:+ t) p = true.
Proof.
  intros [u ->]%HasPrefix_spec. rewrite app_assoc. apply HasPrefix_app.
Qed.

Lemma HasPrefix_length s p :
  Str.HasPrefix s p = true → String.length p ≤ String.length s.
Proof. intros [u ->]%HasPrefix_spec. rewrite length_app. lia. Qed.

Lemma Contains_cons c s sub :
  Str.Contains (String c s) sub
  = Str.HasPrefix (String c s) sub || Str.Contains s sub.
Proof. reflexivity. Qed.

Lemma Contains_prefix s sub :
  Str.HasPrefix s sub = true → Str.Contains s sub = true.
Proof. intros H. destruct s; simpl in *; by rewrite H. Qed.

Lemma Contains_spec s sub :
  Str.Contains s sub = true ↔ ∃ pre post, s = pre +:+ sub +:+ post.
Proof.
  split.
  - induction s as [|c s IH].
    + simpl. rewrite orb_false_r. intros [t ->]%HasPrefix_spec. by exists "", t.
    + rewrite Contains_cons. intros [H|H]%orb_true_iff.
      * apply HasPrefix_spec in H as [t ->]. by exists "", t.
      * destruct (IH H) as (pre & post & ->). by exists (String c pre), post.
  - intros (pre & post & ->). induction pre as [|c pre IH].
    + apply Contains_prefix, (HasPrefix_app sub post).
    + rewrite app_cons, Contains_cons, IH. apply orb_true_r.
Qed.

Lemma bracefree_cons c s :
  Str.bracefree (String c s) = true ↔
  c ≠ "{"%char ∧ c ≠ "}"%char ∧ Str.bracefree s = true.
Proof.
  simpl. rewrite !andb_true_iff, !negb_true_iff, !Ascii.eqb_neq. tauto.
Qed.

Lemma bracefree_app s t :
  Str.bracefree (s +:+ t) = true ↔
  Str.bracefree s = true ∧ Str.bracefree t = true.
Proof.
  induction s as [|c s IH]; [by split; [intros ?|intros [_ ?]]|].
  rewrite app_cons, !bracefree_cons, IH. tauto.
Qed.

End StrFacts.

(** * Facts on [ReplaceAll] *)

Section replace.
Import StrFacts.

Lemma placeholder_unfold k :
  placeholder k = String "{" (String "{" (k +:+ "}}")).
Proof. reflexivity. Qed.

Lemma ReplaceAll_placeholder s k v :
  ReplaceAll s (placeholder k) v = ReplaceAll_go (placeholder k) v 0 s.
Proof. reflexivity. Qed.

Lemma ReplaceAll_go_skip old new a s :
  ReplaceAll_go old new (String.length a) (a +:+ s) = ReplaceAll_go old new 0 s.
Proof.
  induction a as [|c a IH]; [done|]. by rewrite app_cons.
Qed.

Lemma ReplaceAll_go_match old new c s :
  Str.HasPrefix (String c s) old = true →
  ReplaceAll_go old new 0 (String c s)
  = new +:+ ReplaceAll_go old new (String.length old - 1) s.
Proof. intros H. simpl. by rewrite H. Qed.

Lemma ReplaceAll_go_nomatch old new c s :
  Str.HasPrefix (String c s) old = false →
  ReplaceAll_go old new 0 (String c s) = String c (ReplaceAll_go old new 0 s).
Proof. intros H. simpl. by rewrite H. Qed.

(** An occurrence at the head is replaced and the scan resumes after it. *)
Lemma ReplaceAll_go_head old new s :
  old ≠ "" →
  ReplaceAll_go old new 0 (old +:+ s) = new +:+ ReplaceAll_go old new 0 s.
Proof.
  destruct old as [|c old]; [done|]. intros _.
  rewrite app_cons, ReplaceAll_go_match.
  - replace (String.length (String c old) - 1) with (String.length old)
      by (simpl; lia).
    by rewrite ReplaceAll_go_skip.
  - rewrite <-app_cons. apply HasPrefix_app.
Qed.

(** A text that has no opening brace cannot begin where an opening brace
    is met. *)
Lemma HasPrefix_before_brace x a rest :
  (∀ y z, x ≠ y +:+ String "{" z) →
  Str.HasPrefix (a +:+ String "{" rest) x = true →
  Str.HasPrefix a x = true.
Proof.
  revert x. induction a as [|c a IH]; intros x Hx H.
  - destruct x as [|c x]; [done|]. exfalso.
    change ("" +:+ ?t) with t in H. rewrite HasPrefix_cons in H.
    apply andb_true_iff in H as [->%Ascii.eqb_eq _]. by apply (Hx "" x).
  - destruct x as [|c' x]; [done|].
    rewrite app_cons, HasPrefix_cons in H. rewrite HasPrefix_cons.
    apply andb_true_iff in H as [-> H]. simpl. apply IH; [|done].
    intros y z ->. by apply (Hx (String c' y) z).
Qed.

Lemma bracefree_no_open k y z :
  Str.bracefree k = true → k +:+ "}}" ≠ y +:+ String "{" z.
Proof.
  revert y. induction k as [|c k IH]; intros y Hk E.
  - destruct y as [|? [|? [|]]]; discriminate E.
  - apply bracefree_cons in Hk as (? & ? & Hk).
    destruct y as [|c' y]; [by injection E as -> _|].
    injection E as -> E. by eapply IH.
Qed.

Lemma ReplaceAll_nil k v : ReplaceAll "" (placeholder k) v = "".
Proof. reflexivity. Qed.

Lemma ReplaceAll_char k v c s :
  c ≠ "{"%char →
  ReplaceAll (String c s) (placeholder k) v
  = String c (ReplaceAll s (placeholder k) v).
Proof.
  intros Hc. rewrite !ReplaceAll_placeholder. apply ReplaceAll_go_nomatch.
  rewrite placeholder_unfold, HasPrefix_cons.
  apply andb_false_iff. left. apply Ascii.eqb_neq. congruence.
Qed.

Lemma starts_with_brace_cons c s :
  starts_with_brace (String c s) = Ascii.eqb "{" c.
Proof.
  unfold starts_with_brace. rewrite HasPrefix_cons, HasPrefix_nil.
  apply andb_true_r.
Qed.

Lemma ReplaceAll_brace k v s :
  starts_with_brace s = false →
  ReplaceAll (String "{" s) (placeholder k) v
  = String "{" (ReplaceAll s (placeholder k) v).
Proof.
  intros Hs. rewrite !ReplaceAll_placeholder. apply ReplaceAll_go_nomatch.
  rewrite placeholder_unfold, HasPrefix_cons.
  apply andb_false_iff. right. destruct s as [|c s]; [done|].
  rewrite starts_with_brace_cons in Hs. by rewrite HasPrefix_cons, Hs.
Qed.

Lemma ReplaceAll_token_eq k v s :
  ReplaceAll (placeholder k +:+ s) (placeholder k) v
  = v +:+ ReplaceAll s (placeholder k) v.
Proof. rewrite !ReplaceAll_placeholder. by apply ReplaceAll_go_head. Qed.

Lemma ReplaceAll_bracefree_app k v u s :
  Str.bracefree u = true →
  ReplaceAll (u +:+ s) (placeholder k) v
  = u +:+ ReplaceAll s (placeholder k) v.
Proof.
  induction u as [|c u IH]; [done|].
  intros (? & ? & Hu)%bracefree_cons.
  by rewrite !app_cons, ReplaceAll_char, IH.
Qed.

(** Two brace-free names that begin the same closed text are equal. *)
Lemma closed_key_prefix k k' s :
  Str.bracefree k = true → Str.bracefree k' = true →
  Str.HasPrefix (k' +:+ "}}" +:+ s) (k +:+ "}}") = true → k = k'.
Proof.
  revert k'. induction k as [|c k IH]; intros [|c' k'] Hk Hk' H; [done|..].
  - apply bracefree_cons in Hk' as (_ & Hc & _).
    rewrite !app_cons, !app_nil_l, HasPrefix_cons in H.
    by apply andb_true_iff in H as [?%Ascii.eqb_eq _].
  - apply bracefree_cons in Hk as (_ & Hc & _).
    rewrite !app_cons, !app_nil_l, HasPrefix_cons in H.
    by apply andb_true_iff in H as [?%Ascii.eqb_eq _].
  - apply bracefree_cons in Hk as (_ & _ & Hk).
    apply bracefree_cons in Hk' as (_ & _ & Hk').
    rewrite !app_cons, HasPrefix_cons in H.
    apply andb_true_iff in H as [->%Ascii.eqb_eq H]. f_equal. by eapply IH.
Qed.

Lemma bracefree_closed_no_start k s :
  Str.bracefree k = true → starts_with_brace (k +:+ "}}" +:+ s) = false.
Proof.
  destruct k as [|c k]; [done|]. intros (Hc & _)%bracefree_cons.
  rewrite app_cons, starts_with_brace_cons. apply Ascii.eqb_neq. congruence.
Qed.

(** The placeholder of another name is passed over. *)
Lemma ReplaceAll_token_ne k v k' s :
  Str.bracefree k = true → Str.bracefree k' = true → k ≠ k' →
  ReplaceAll (placeholder k' +:+ s) (placeholder k) v
  = placeholder k' +:+ ReplaceAll s (placeholder k) v.
Proof.
  intros Hk Hk' Hne.
  rewrite (placeholder_unfold k'), !app_cons, app_assoc.
  rewrite ReplaceAll_placeholder, ReplaceAll_go_nomatch.
  - rewrite <-ReplaceAll_placeholder. f_equal.
    rewrite ReplaceAll_brace by by apply bracefree_closed_no_start.
    rewrite ReplaceAll_bracefree_app by done.
    rewrite !app_cons, app_nil_l, !ReplaceAll_char by done.
    by rewrite app_assoc.
  - rewrite placeholder_unfold, !HasPrefix_cons, !Ascii.eqb_refl. simpl.
    destruct (Str.HasPrefix _ _) eqn:H; [|done].
    by apply closed_key_prefix in H.
Qed.

(** An occurrence of a placeholder does not run into the opening braces
    of a later one. *)
Lemma no_straddle k c pre rest :
  Str.bracefree k = true →
  Str.HasPrefix (String c pre +:+ String "{" (String "{" rest)) (placeholder k)
  = true →
  Str.HasPrefix (String c pre) (placeholder k) = true.
Proof.
  intros Hk. rewrite placeholder_unfold, app_cons, !HasPrefix_cons.
  intros [Hc H]%andb_true_iff. rewrite Hc, andb_true_l.
  destruct pre as [|c2 pre].
  - exfalso. rewrite app_nil_l, HasPrefix_cons in H.
    apply andb_true_iff in H as [_ H].
    destruct k as [|a k].
    + rewrite app_nil_l, HasPrefix_cons in H.
      by apply andb_true_iff in H as [?%Ascii.eqb_eq _].
    + apply bracefree_cons in Hk as (Ha & _).
      rewrite app_cons, HasPrefix_cons in H.
      apply andb_true_iff in H as [?%Ascii.eqb_eq _]. congruence.
  - rewrite app_cons, HasPrefix_cons in H. rewrite HasPrefix_cons.
    apply andb_true_iff in H as [-> H]. rewrite andb_true_l.
    eapply HasPrefix_before_brace; [|done].
    intros y z. by apply bracefree_no_open.
Qed.

Lemma ReplaceAll_go_keep k v k' post pre skip :
  Str.bracefree k = true → Str.bracefree k' = true → k ≠ k' →
  skip ≤ String.length pre →
  ReplaceAll_go (placeholder k) v skip (pre +:+ placeholder k' +:+ post)
  = ReplaceAll_go (placeholder k) v skip pre
    +:+ placeholder k' +:+ ReplaceAll_go (placeholder k) v 0 post.
Proof.
  intros Hk Hk' Hne. revert skip.
  induction pre as [|c pre IH]; intros skip Hskip.
  - assert (skip = 0) as -> by (simpl in Hskip; lia).
    rewrite app_nil_l, <-!ReplaceAll_placeholder. by apply ReplaceAll_token_ne.
  - destruct skip as [|n].
    + destruct (Str.HasPrefix (String c pre) (placeholder k)) eqn:Hp.
      * rewrite app_cons, (ReplaceAll_go_match _ _ c pre) by done.
        rewrite ReplaceAll_go_match.
        -- rewrite app_assoc. f_equal. apply IH. apply HasPrefix_length in Hp.
           change (String.length (String c pre))
             with (S (String.length pre)) in Hp. lia.
        -- rewrite <-app_cons. by apply HasPrefix_weaken.
      * rewrite app_cons, (ReplaceAll_go_nomatch _ _ c pre) by done.
        rewrite ReplaceAll_go_nomatch.
        -- rewrite app_cons. f_equal. apply IH. lia.
        -- apply not_true_is_false. intros Hp'.
           rewrite (placeholder_unfold k'), <-app_cons in Hp'.
           rewrite (app_cons "{") in Hp'. rewrite (app_cons "{") in Hp'.
           apply no_straddle in Hp'; [congruence|done].
    + rewrite app_cons. simpl. apply IH. simpl in Hskip. lia.
Qed.

(** The placeholder of a name [k'] other than the one looked for stays in
    place, whatever is around it. *)
Lemma ReplaceAll_keep k v k' pre post :
  Str.bracefree k = true → Str.bracefree k' = true → k ≠ k' →
  ReplaceAll (pre +:+ placeholder k' +:+ post) (placeholder k) v
  = ReplaceAll pre (placeholder k) v
    +:+ placeholder k' +:+ ReplaceAll post (placeholder k) v.
Proof.
  intros. rewrite !ReplaceAll_placeholder.
  apply ReplaceAll_go_keep; [done..|lia].
Qed.

(** A text with no token has no placeholder to replace. *)
Lemma ReplaceAll_no_token k v s :
  has_token s = false → ReplaceAll s (placeholder k) v = s.
Proof.
  rewrite ReplaceAll_placeholder.
  induction s as [|c s IH]; [done|]. intros H.
  change (has_token (String c s)) with
    ((Str.HasPrefix (String c s) "{{" && Str.Contains (Str.drop 2 (String c s)) "}}")
     || has_token s) in H.
  apply orb_false_iff in H as [H1 H2].
  rewrite ReplaceAll_go_nomatch, IH; [done..|].
  destruct (Str.HasPrefix (String c s) (placeholder k)) eqn:Hp; [|done].
  apply HasPrefix_spec in Hp as [t Ht]. rewrite Ht in H1.
  rewrite placeholder_unfold, !app_cons in H1.
  rewrite !HasPrefix_cons, !Ascii.eqb_refl, HasPrefix_nil in H1.
  simpl in H1. rewrite app_assoc in H1.
  assert (Str.Contains (k +:+ "}}" +:+ t) "}}" = true) as E; [|congruence].
  apply Contains_spec. by exists k, t.
Qed.

End replace.

(** * Well-formed templates *)

Section wellformed.
Import StrFacts.

Lemma wf_scan_sound n s :
  String.length s ≤ n →
  (wf_scan false s = true → wf_template s) ∧
  (wf_scan true s = true →
   ∃ k rest, s = k +:+ "}}" +:+ rest ∧ Str.bracefree k = true
             ∧ wf_template rest).
Proof.
  revert s. induction n as [|n IH]; intros [|c t] Hlen;
    try (simpl in Hlen; lia); try (split; [constructor|done]).
  assert (String.length t ≤ n) as Ht by (simpl in Hlen; lia).
  split.
  - change (wf_scan false (String c t)) with
      (if Ascii.eqb c "{" then
         match t with
         | String c' t' =>
             if Ascii.eqb c' "{" then wf_scan true t' else wf_scan false t
         | "" => true
         end
       else wf_scan false t).
    destruct (Ascii.eqb c "{") eqn:Hc.
    + apply Ascii.eqb_eq in Hc as ->.
      destruct t as [|c' t']; [intros _; by repeat constructor|].
      destruct (Ascii.eqb c' "{") eqn:Hc'.
      * apply Ascii.eqb_eq in Hc' as ->. intros H.
        apply (IH t') in H as (k & rest & -> & Hk & Hrest);
          [|simpl in Ht; lia].
        rewrite <-app_assoc. by apply (wf_token k rest).
      * intros H. apply wf_brace; [|by apply (IH _ Ht)].
        by rewrite starts_with_brace_cons, Ascii.eqb_sym.
    + intros H. apply wf_char; [by apply Ascii.eqb_neq|by apply (IH _ Ht)].
  - change (wf_scan true (String c t)) with
      (if Ascii.eqb c "}" then
         match t with
         | String c' t' => Ascii.eqb c' "}" && wf_scan false t'
         | "" => false
         end
       else negb (Ascii.eqb c "{") && wf_scan true t).
    destruct (Ascii.eqb c "}") eqn:Hc.
    + apply Ascii.eqb_eq in Hc as ->. destruct t as [|c' t']; [done|].
      intros [->%Ascii.eqb_eq H]%andb_true_iff.
      exists "", t'. split_and!; [done..|].
      apply (IH t'); [simpl in Ht; lia|done].
    + intros [Hc' H]%andb_true_iff.
      apply (IH _ Ht) in H as (k & rest & -> & Hk & Hrest).
      exists (String c k), rest. split_and!; [done| |done].
      apply bracefree_cons. apply negb_true_iff in Hc'.
      by rewrite <-!Ascii.eqb_neq.
Qed.

Lemma well_formed_sound s : well_formed s = true → wf_template s.
Proof. by apply (wf_scan_sound (String.length s) s). Qed.

Lemma wf_bracefree_app u s :
  Str.bracefree u = true → wf_template s → wf_template (u +:+ s).
Proof.
  induction u as [|c u IH]; [done|].
  intros (? & ? & ?)%bracefree_cons ?. rewrite app_cons.
  apply wf_char; auto.
Qed.

Lemma ReplaceAll_starts k v s :
  starts_with_brace s = false →
  starts_with_brace (ReplaceAll s (placeholder k) v) = false.
Proof.
  destruct s as [|c s]; [done|]. rewrite starts_with_brace_cons.
  intros Hc. rewrite ReplaceAll_char, starts_with_brace_cons; [done|].
  apply Ascii.eqb_neq in Hc. congruence.
Qed.

(** Replacing a placeholder by a brace-free value keeps a template well
    formed. *)
Lemma ReplaceAll_wf k v s :
  Str.bracefree k = true → Str.bracefree v = true →
  wf_template s → wf_template (ReplaceAll s (placeholder k) v).
Proof.
  intros Hk Hv. induction 1 as [|c s Hc _ IH|s Hs _ IH|k' s Hk' _ IH].
  - rewrite ReplaceAll_nil. constructor.
  - rewrite ReplaceAll_char by done. by constructor.
  - rewrite ReplaceAll_brace by done.
    apply wf_brace; [by apply ReplaceAll_starts|done].
  - destruct (decide (k = k')) as [<-|Hne].
    + rewrite ReplaceAll_token_eq. by apply wf_bracefree_app.
    + rewrite ReplaceAll_token_ne by done. by constructor.
Qed.

(** On a well-formed template, the replacements of two different names by
    brace-free values commute. *)
Lemma ReplaceAll_commute k1 v1 k2 v2 s :
  Str.bracefree k1 = true → Str.bracefree v1 = true →
  Str.bracefree k2 = true → Str.bracefree v2 = true →
  k1 ≠ k2 → wf_template s →
  ReplaceAll (ReplaceAll s (placeholder k1) v1) (placeholder k2) v2
  = ReplaceAll (ReplaceAll s (placeholder k2) v2) (placeholder k1) v1.
Proof.
  intros Hk1 Hv1 Hk2 Hv2 Hne.
  induction 1 as [|c s Hc _ IH|s Hs _ IH|k s Hk _ IH].
  - by rewrite !ReplaceAll_nil.
  - by rewrite !ReplaceAll_char, IH.
  - rewrite !ReplaceAll_brace, IH; auto using ReplaceAll_starts.
  - destruct (decide (k1 = k)) as [<-|Hne1].
    + rewrite ReplaceAll_token_eq, (ReplaceAll_token_ne k2) by done.
      by rewrite ReplaceAll_token_eq, ReplaceAll_bracefree_app, IH.
    + rewrite (ReplaceAll_token_ne k1) by done.
      destruct (decide (k2 = k)) as [<-|Hne2].
      * rewrite !ReplaceAll_token_eq, ReplaceAll_bracefree_app by done.
        by rewrite IH.
      * by rewrite !ReplaceAll_token_ne, IH.
Qed.

End wellformed.

(** * The loop of [replaceVariables] *)

Section loop.
Import StrFacts.

Lemma replaceVariables_over_cons k v order t :
  replaceVariables_over ((k, v) :: order) t
  = replaceVariables_over order (ReplaceAll t (placeholder k) v).
Proof. reflexivity. Qed.

Lemma replaceVariables_over_wf order t :
  forallb bracefree_entry order = true → wf_template t →
  wf_template (replaceVariables_over order t).
Proof.
  revert t. induction order as [|[k v] order IH]; intros t Hbf Ht; [done|].
  apply andb_true_iff in Hbf as [[Hk Hv]%andb_true_iff Hbf].
  rewrite replaceVariables_over_cons. apply IH; [done|].
  by apply ReplaceAll_wf.
Qed.

(** The order of the entries does not matter on a well-formed template when
    names and values are brace-free. *)
Lemma replaceVariables_over_perm o1 o2 :
  o1 ≡ₚ o2 → NoDup o1.*1 → forallb bracefree_entry o1 = true →
  ∀ t, wf_template t →
  replaceVariables_over o1 t = replaceVariables_over o2 t.
Proof.
  induction 1 as [|[k v] o1 o2 Hp IH|[k1 v1] [k2 v2] o|o1 o2 o3 Hp1 IH1 Hp2 IH2];
    intros Hnd Hbf t Ht.
  - done.
  - apply andb_true_iff in Hbf as [[Hk Hv]%andb_true_iff Hbf].
    apply NoDup_cons in Hnd as [_ Hnd].
    rewrite !replaceVariables_over_cons. apply IH; [done..|].
    by apply ReplaceAll_wf.
  - apply andb_true_iff in Hbf as [[Hk2 Hv2]%andb_true_iff Hbf].
    apply andb_true_iff in Hbf as [[Hk1 Hv1]%andb_true_iff Hbf].
    apply NoDup_cons in Hnd as [Hne _].
    rewrite !replaceVariables_over_cons. f_equal.
    apply ReplaceAll_commute; [done..| |done].
    intros ->. apply Hne. simpl. left.
  - rewrite IH1 by done. apply IH2; [| |done].
    + by rewrite <-Hp1.
    + rewrite forallb_forall in Hbf |- *. intros x Hx. apply Hbf.
      apply list_elem_of_In. rewrite Hp1. by apply list_elem_of_In.
Qed.

(** The placeholder of a name that is none of the entries' names stays in
    place. *)
Lemma replaceVariables_over_keep order k' pre post :
  Str.bracefree k' = true →
  forallb (λ kv, Str.bracefree kv.1) order = true →
  k' ∉ order.*1 →
  replaceVariables_over order (pre +:+ placeholder k' +:+ post)
  = replaceVariables_over order pre
    +:+ placeholder k' +:+ replaceVariables_over order post.
Proof.
  intros Hk'. revert pre post.
  induction order as [|[k v] order IH]; intros pre post Hbf Hnot; [done|].
  apply andb_true_iff in Hbf as [Hk Hbf].
  apply not_elem_of_cons in Hnot as [Hne Hnot].
  rewrite !replaceVariables_over_cons, ReplaceAll_keep by done.
  by apply IH.
Qed.

Lemma replaceVariables_over_no_token order s :
  has_token s = false → replaceVariables_over order s = s.
Proof.
  intros Hs. induction order as [|[k v] order IH]; [done|].
  by rewrite replaceVariables_over_cons, ReplaceAll_no_token.
Qed.

End loop.

(** * Occurrences of a placeholder in a well-formed template *)

Section occurrences.
Import StrFacts.

Lemma Contains_nil k : Str.Contains "" (placeholder k) = false.
Proof. reflexivity. Qed.

Lemma Contains_char k c s :
  c ≠ "{"%char →
  Str.Contains (String c s) (placeholder k) = Str.Contains s (placeholder k).
Proof.
  intros Hc. rewrite Contains_cons, placeholder_unfold, HasPrefix_cons.
  replace (Ascii.eqb "{" c) with false; [done|].
  symmetry. apply Ascii.eqb_neq. congruence.
Qed.

Lemma Contains_brace k s :
  starts_with_brace s = false →
  Str.Contains (String "{" s) (placeholder k) = Str.Contains s (placeholder k).
Proof.
  intros Hs. rewrite Contains_cons.
  replace (Str.HasPrefix (String "{" s) (placeholder k)) with false; [done|].
  symmetry. rewrite placeholder_unfold, HasPrefix_cons.
  apply andb_false_iff. right. destruct s as [|c s]; [done|].
  rewrite starts_with_brace_cons in Hs. by rewrite HasPrefix_cons, Hs.
Qed.

Lemma Contains_bracefree_app k u s :
  Str.bracefree u = true →
  Str.Contains (u +:+ s) (placeholder k) = Str.Contains s (placeholder k).
Proof.
  induction u as [|c u IH]; [done|].
  intros (? & ? & Hu)%bracefree_cons.
  by rewrite app_cons, Contains_char, IH.
Qed.

Lemma Contains_token_eq k s :
  Str.Contains (placeholder k +:+ s) (placeholder k) = true.
Proof. apply Contains_prefix, HasPrefix_app. Qed.

Lemma Contains_token_ne k k' s :
  Str.bracefree k = true → Str.bracefree k' = true → k ≠ k' →
  Str.Contains (placeholder k' +:+ s) (placeholder k)
  = Str.Contains s (placeholder k).
Proof.
  intros Hk Hk' Hne.
  rewrite (placeholder_unfold k'), !app_cons, app_assoc, Contains_cons.
  replace (Str.HasPrefix _ (placeholder k)) with false.
  - rewrite orb_false_l.
    rewrite Contains_brace by by apply bracefree_closed_no_start.
    rewrite Contains_bracefree_app by done.
    by rewrite !app_cons, app_nil_l, !Contains_char.
  - symmetry. apply not_true_is_false.
    rewrite placeholder_unfold, !HasPrefix_cons, !Ascii.eqb_refl, !andb_true_l.
    by intros ?%closed_key_prefix.
Qed.

(** After its replacement by a brace-free value, a placeholder does not
    occur any more. *)
Lemma ReplaceAll_replaces k v s :
  Str.bracefree k = true → Str.bracefree v = true → wf_template s →
  Str.Contains (ReplaceAll s (placeholder k) v) (placeholder k) = false.
Proof.
  intros Hk Hv. induction 1 as [|c s Hc _ IH|s Hs _ IH|k' s Hk' _ IH].
  - by rewrite ReplaceAll_nil.
  - by rewrite ReplaceAll_char, Contains_char.
  - rewrite ReplaceAll_brace, Contains_brace; auto using ReplaceAll_starts.
  - destruct (decide (k = k')) as [<-|Hne].
    + by rewrite ReplaceAll_token_eq, Contains_bracefree_app.
    + by rewrite ReplaceAll_token_ne, Contains_token_ne.
Qed.

(** The replacement of another placeholder by a brace-free value does not
    bring it back. *)
Lemma ReplaceAll_keeps_absent k k' v' s :
  Str.bracefree k = true → Str.bracefree k' = true →
  Str.bracefree v' = true → wf_template s →
  Str.Contains s (placeholder k) = false →
  Str.Contains (ReplaceAll s (placeholder k') v') (placeholder k) = false.
Proof.
  intros Hk Hk' Hv'.
  induction 1 as [|c s Hc _ IH|s Hs _ IH|k2 s Hk2 _ IH]; intros Habs.
  - by rewrite ReplaceAll_nil.
  - rewrite Contains_char in Habs by done.
    rewrite ReplaceAll_char, Contains_char by done. auto.
  - rewrite Contains_brace in Habs by done.
    rewrite ReplaceAll_brace, Contains_brace; auto using ReplaceAll_starts.
  - destruct (decide (k = k2)) as [<-|Hne].
    { by rewrite Contains_token_eq in Habs. }
    rewrite Contains_token_ne in Habs by done.
    destruct (decide (k' = k2)) as [<-|Hne'].
    + rewrite ReplaceAll_token_eq, Contains_bracefree_app by done. auto.
    + rewrite ReplaceAll_token_ne, Contains_token_ne by done. auto.
Qed.

Lemma replaceVariables_over_keeps_absent order k t :
  forallb bracefree_entry order = true → Str.bracefree k = true →
  wf_template t → Str.Contains t (placeholder k) = false →
  Str.Contains (replaceVariables_over order t) (placeholder k) = false.
Proof.
  intros Hbf Hk. revert t Hbf.
  induction order as [|[k' v'] order IH]; intros t Hbf Ht Habs; [done|].
  apply andb_true_iff in Hbf as [[Hk' Hv']%andb_true_iff Hbf].
  rewrite replaceVariables_over_cons.
  apply IH; [done|by apply ReplaceAll_wf|by apply ReplaceAll_keeps_absent].
Qed.

(** Once the loop is over, no placeholder of an entry is left. *)
Lemma replaceVariables_over_replaces order k t :
  forallb bracefree_entry order = true → k ∈ order.*1 → wf_template t →
  Str.Contains (replaceVariables_over order t) (placeholder k) = false.
Proof.
  revert t. induction order as [|[k' v'] order IH]; intros t Hbf Hin Ht.
  { by apply elem_of_nil in Hin. }
  apply andb_true_iff in Hbf as [[Hk' Hv']%andb_true_iff Hbf].
  rewrite replaceVariables_over_cons.
  destruct (decide (k ∈ order.*1)) as [Hrest|Hrest].
  - apply IH; [done..|by apply ReplaceAll_wf].
  - apply elem_of_cons in Hin as [->|?]; [|done]. simpl.
    apply replaceVariables_over_keeps_absent;
      [done..|by apply ReplaceAll_wf|by apply ReplaceAll_replaces].
Qed.

End occurrences.

(** * Runs of the service *)

Section runs.
Context `{C : Collaborators}.

Lemma runs_ret {A} (a : A) st : runs (ret a) st a [] (world st).
Proof. unfold runs, ret. rewrite app_nil_r. by destruct st. Qed.

Lemma runs_ret_at {A} (a : A) w cs :
  runs (ret a) {| world := w; calls := cs |} a [] w.
Proof. apply (runs_ret a {| world := w; calls := cs |}). Qed.

Lemma runs_bind {A B} (m : M A) (k : A → M B) st a cs w b cs' w' :
  runs m st a cs w →
  runs (k a) {| world := w; calls := calls st ++ cs |} b cs' w' →
  runs (bind m k) st b (cs ++ cs') w'.
Proof.
  unfold runs, bind. intros -> ->. simpl. by rewrite app_assoc.
Qed.

Lemma runs_bind_nil {A B} (m : M A) (k : A → M B) st a w b cs w' :
  runs m st a [] w →
  runs (k a) {| world := w; calls := calls st |} b cs w' →
  runs (bind m k) st b cs w'.
Proof. unfold runs, bind. intros ->. rewrite app_nil_r. by intros ->. Qed.

Lemma runs_bind_last {A B} (m : M A) (k : A → M B) st a cs w b w' :
  runs m st a cs w →
  runs (k a) {| world := w; calls := calls st ++ cs |} b [] w' →
  runs (bind m k) st b cs w'.
Proof.
  intros H1 H2. rewrite <-(app_nil_r cs). by eapply runs_bind.
Qed.

Lemma runs_ask {A} (f : World → A * World) st :
  runs (ask f) st (f (world st)).1 [] (f (world st)).2.
Proof.
  unfold runs, ask. destruct (f (world st)). simpl. by rewrite app_nil_r.
Qed.

Lemma runs_SendEmail input st :
  runs (SendEmail input) st (SES_SendEmail input (world st)).1
    [CallSendEmail input (SES_SendEmail input (world st)).1]
    (SES_SendEmail input (world st)).2.
Proof. unfold runs, SendEmail. by destruct (SES_SendEmail _ _). Qed.

Lemma runs_Publish input st :
  runs (Publish input) st (SNS_Publish input (world st)).1
    [CallPublish input (SNS_Publish input (world st)).1]
    (SNS_Publish input (world st)).2.
Proof. unfold runs, Publish. by destruct (SNS_Publish _ _). Qed.

Lemma runs_emitted {A} (m : M A) st a cs w :
  runs m st a cs w → emitted m st = cs ∧ returned m st = Returns a.
Proof.
  unfold runs, emitted, returned. intros ->. simpl. split; [|done].
  by rewrite drop_app_length.
Qed.

Lemma runs_inj {A} (m : M A) st a cs w a' cs' w' :
  runs m st a cs w → runs m st a' cs' w' → a = a' ∧ cs = cs' ∧ w = w'.
Proof.
  unfold runs. intros H1 H2. rewrite H1 in H2.
  injection H2 as -> -> Hcs. by apply app_inv_head in Hcs.
Qed.

Lemma replaceVariables_runs template variables st :
  ∃ order w,
    order ≡ₚ map_to_list variables ∧
    runs (replaceVariables template variables) st
      (replaceVariables_over order template) [] w.
Proof.
  exists (map_range variables (world st)).1, (map_range variables (world st)).2.
  split; [apply map_range_perm|].
  unfold replaceVariables.
  eapply (runs_bind _ _ _ _ [] _ _ []); [apply runs_ask|apply runs_ret].
Qed.

Lemma getEmailTemplate_runs ty req st :
  ∃ tpl w d t,
    runs (getEmailTemplate ty req) st tpl [] w ∧
    EmailTemplate.Variables tpl
    = {[ "recipient_name" := NotificationRequest.RecipientType req;
         "landlord_name" := "Property Management";
         "date" := d;
         "time" := t ]} ∧
    (EmailTemplate.Subject tpl, EmailTemplate.HTMLBody tpl,
     EmailTemplate.TextBody tpl)
    = if decide (ty = "maintenance_request") then
        ("New Maintenance Request - {{title}}",
         maintenance_request_HTMLBody, maintenance_request_TextBody)
      else if decide (ty = "payment_due") then
        ("Payment Due Reminder", payment_due_HTMLBody, payment_due_TextBody)
      else ("{{title}}", generic_HTMLBody, generic_TextBody).
Proof.
  unfold getEmailTemplate.
  pose proof (runs_ask time_Now st) as H1.
  set (d := (time_Now (world st)).1) in *.
  set (w1 := (time_Now (world st)).2) in *.
  set (st1 := {| world := w1; calls := calls st ++ [] |}).
  pose proof (runs_ask time_Now st1) as H2.
  set (t := (time_Now (world st1)).1) in *.
  set (w2 := (time_Now (world st1)).2) in *.
  repeat case_decide; (eexists _, w2, _, _; split_and!;
    [ eapply (runs_bind _ _ _ _ [] _ _ []); [exact H1|];
      eapply (runs_bind _ _ _ _ [] _ _ []); [exact H2|]; apply runs_ret
    | reflexivity | reflexivity ]).
Qed.

Lemma sendEmailNotification_runs s req st :
  ∃ tpl o1 o2 o3 err w r,
    (∃ w0, runs (getEmailTemplate (NotificationRequest.Type_ req) req) st
             tpl [] w0) ∧
    o1 ≡ₚ map_to_list (EmailTemplate.Variables tpl) ∧
    o2 ≡ₚ map_to_list (EmailTemplate.Variables tpl) ∧
    o3 ≡ₚ map_to_list (EmailTemplate.Variables tpl) ∧
    runs (sendEmailNotification s req) st r
      [CallSendEmail
         {| ses.Source := AWS_SES_FromEmail (config s);
            ses.ToAddresses := [NotificationRequest.RecipientEmail req];
            ses.Subject :=
              utf8 (replaceVariables_over o1 (EmailTemplate.Subject tpl));
            ses.Html :=
              utf8 (replaceVariables_over o2 (EmailTemplate.HTMLBody tpl));
            ses.Text :=
              utf8 (replaceVariables_over o3 (EmailTemplate.TextBody tpl)) |}
         err] w ∧
    match err with
    | Some e => r = Err ("failed to send email: " +:+ e)
    | None =>
        ∃ id now,
          r = Ok {| NotificationResponse.NotificationID := id;
                    NotificationResponse.Status := "sent";
                    NotificationResponse.SentAt := now;
                    NotificationResponse.Channel := "email" |}
    end.
Proof.
  destruct (getEmailTemplate_runs (NotificationRequest.Type_ req) req st)
    as (tpl & w0 & _ & _ & Hg & _).
  set (st0 := {| world := w0; calls := calls st |}).
  destruct (replaceVariables_runs (EmailTemplate.Subject tpl)
              (EmailTemplate.Variables tpl) st0) as (o1 & w1 & Hp1 & Hr1).
  set (st1 := {| world := w1; calls := calls st0 |}).
  destruct (replaceVariables_runs (EmailTemplate.HTMLBody tpl)
              (EmailTemplate.Variables tpl) st1) as (o2 & w2 & Hp2 & Hr2).
  set (st2 := {| world := w2; calls := calls st1 |}).
  destruct (replaceVariables_runs (EmailTemplate.TextBody tpl)
              (EmailTemplate.Variables tpl) st2) as (o3 & w3 & Hp3 & Hr3).
  set (st3 := {| world := w3; calls := calls st2 |}).
  set (input :=
    {| ses.Source := AWS_SES_FromEmail (config s);
       ses.ToAddresses := [NotificationRequest.RecipientEmail req];
       ses.Subject :=
         utf8 (replaceVariables_over o1 (EmailTemplate.Subject tpl));
       ses.Html :=
         utf8 (replaceVariables_over o2 (EmailTemplate.HTMLBody tpl));
       ses.Text :=
         utf8 (replaceVariables_over o3 (EmailTemplate.TextBody tpl)) |}).
  pose proof (runs_SendEmail input st3) as Hs.
  destruct (SES_SendEmail input (world st3)) as [err w4]. simpl in Hs.
  set (st4 := {| world := w4; calls := calls st3 ++ [CallSendEmail input err] |}).
  assert (∀ r w,
    runs (match err with
          | Some e => ret (Err ("failed to send email: " +:+ e))
          | None =>
              id <- ask uuid_NewString ;;
              now <- ask time_Now ;;
              ret (Ok {| NotificationResponse.NotificationID := id;
                         NotificationResponse.Status := "sent";
                         NotificationResponse.SentAt := now;
                         NotificationResponse.Channel := "email" |})
          end) st4 r [] w →
    runs (sendEmailNotification s req) st r [CallSendEmail input err] w)
    as Hrun.
  { intros r w Hk. unfold sendEmailNotification.
    eapply runs_bind_nil; [exact Hg|].
    eapply runs_bind_nil; [exact Hr1|].
    eapply runs_bind_nil; [exact Hr2|].
    eapply runs_bind_nil; [exact Hr3|].
    eapply runs_bind_last; [exact Hs|exact Hk]. }
  destruct err as [e|].
  - exists tpl, o1, o2, o3, (Some e), w4, (Err ("failed to send email: " +:+ e)).
    split_and!; [by eexists|done..| |done].
    apply Hrun, (runs_ret _ st4).
  - eexists tpl, o1, o2, o3, None, _, _.
    split_and!; [by eexists|done..| |by eexists _, _].
    apply Hrun.
    eapply runs_bind_nil; [apply runs_ask|].
    eapply runs_bind_nil; [apply runs_ask|]. apply runs_ret.
Qed.

Lemma sendSMSNotification_no_phone req st :
  NotificationRequest.RecipientPhone req = "" →
  runs (sendSMSNotification req) st
    (Err "recipient phone number is required for SMS notifications") []
    (world st).
Proof.
  intros H. unfold sendSMSNotification. rewrite decide_True by done.
  apply runs_ret.
Qed.

Lemma sendSMSNotification_runs req st :
  NotificationRequest.RecipientPhone req ≠ "" →
  ∃ order err w r,
    order ≡ₚ map_to_list
      (SMSTemplate.Variables
         (getSMSTemplate (NotificationRequest.Type_ req) req)) ∧
    runs (sendSMSNotification req) st r
      [CallPublish
         {| sns.Message :=
              replaceVariables_over order
                (SMSTemplate.Message
                   (getSMSTemplate (NotificationRequest.Type_ req) req));
            sns.PhoneNumber := NotificationRequest.RecipientPhone req;
            sns.MessageAttributes :=
              {[ "AWS.SNS.SMS.SMSType" := ("String", "Transactional") ]} |}
         err] w ∧
    match err with
    | Some e => r = Err ("failed to send SMS: " +:+ e)
    | None =>
        ∃ id now,
          r = Ok {| NotificationResponse.NotificationID := id;
                    NotificationResponse.Status := "sent";
                    NotificationResponse.SentAt := now;
                    NotificationResponse.Channel := "sms" |}
    end.
Proof.
  intros Hphone.
  set (tpl := getSMSTemplate (NotificationRequest.Type_ req) req).
  destruct (replaceVariables_runs (SMSTemplate.Message tpl)
              (SMSTemplate.Variables tpl) st) as (o & w1 & Hp & Hr).
  set (st1 := {| world := w1; calls := calls st |}).
  set (input :=
    {| sns.Message := replaceVariables_over o (SMSTemplate.Message tpl);
       sns.PhoneNumber := NotificationRequest.RecipientPhone req;
       sns.MessageAttributes :=
         {[ "AWS.SNS.SMS.SMSType" := ("String", "Transactional") ]} |}).
  pose proof (runs_Publish input st1) as Hs.
  destruct (SNS_Publish input (world st1)) as [err w2]. simpl in Hs.
  set (st2 := {| world := w2; calls := calls st1 ++ [CallPublish input err] |}).
  assert (∀ r w,
    runs (match err with
          | Some e => ret (Err ("failed to send SMS: " +:+ e))
          | None =>
              id <- ask uuid_NewString ;;
              now <- ask time_Now ;;
              ret (Ok {| NotificationResponse.NotificationID := id;
                         NotificationResponse.Status := "sent";
                         NotificationResponse.SentAt := now;
                         NotificationResponse.Channel := "sms" |})
          end) st2 r [] w →
    runs (sendSMSNotification req) st r [CallPublish input err] w) as Hrun.
  { intros r w Hk. unfold sendSMSNotification. rewrite decide_False by done.
    eapply runs_bind_nil; [exact Hr|].
    eapply runs_bind_last; [exact Hs|exact Hk]. }
  destruct err as [e|].
  - exists o, (Some e), w2, (Err ("failed to send SMS: " +:+ e)).
    split_and!; [done| |done]. apply Hrun, (runs_ret _ st2).
  - eexists o, None, _, _. split_and!; [done| |by eexists _, _].
    apply Hrun.
    eapply runs_bind_nil; [apply runs_ask|].
    eapply runs_bind_nil; [apply runs_ask|]. apply runs_ret.
Qed.

(** The shape shared by [sendUrgentNotification] and
    [sendHighPriorityNotification]: the email, then the SMS when [cond]
    holds, its result dropped. *)
Lemma email_then_sms_runs s req st (cond : bool) (wrap : string) :
  (cond = true → NotificationRequest.RecipientPhone req ≠ "") →
  ∃ input err sms w r r0 w0,
    runs (r <- sendEmailNotification s req ;;
          match r with
          | Err err => ret (Err (wrap +:+ err))
          | Ok emailResp =>
              (if cond then _ <- sendSMSNotification req ;; ret tt
               else ret tt) ;;;
              ret (Ok emailResp)
          end) st r (CallSendEmail input err :: sms) w ∧
    runs (sendEmailNotification s req) st r0 [CallSendEmail input err] w0 ∧
    match err with
    | Some e =>
        r0 = Err ("failed to send email: " +:+ e) ∧
        r = Err (wrap +:+ "failed to send email: " +:+ e) ∧ sms = []
    | None =>
        ∃ resp,
          r0 = Ok resp ∧ r = Ok resp ∧
          NotificationResponse.Status resp = "sent" ∧
          NotificationResponse.Channel resp = "email" ∧
          if cond then
            ∃ sinput serr,
              sms = [CallPublish sinput serr] ∧
              sns.PhoneNumber sinput = NotificationRequest.RecipientPhone req
          else sms = []
    end.
Proof.
  intros Hcond.
  destruct (sendEmailNotification_runs s req st)
    as (tpl & o1 & o2 & o3 & err & w0 & r0 & _ & _ & _ & _ & Hrun & Hr0).
  set (input := {| ses.Source := _ |}) in Hrun.
  set (st0 := {| world := w0; calls := calls st ++ [CallSendEmail input err] |}).
  destruct err as [e|].
  - subst r0. eexists input, (Some e), [], w0, _, _, w0.
    split_and!; [|exact Hrun|done..].
    eapply runs_bind_last; [exact Hrun|]. apply (runs_ret _ st0).
  - destruct Hr0 as (id & now & ->).
    destruct cond.
    + destruct (sendSMSNotification_runs req st0 (Hcond eq_refl))
        as (o & serr & w1 & r1 & _ & Hsms & _).
      set (sinput := {| sns.Message := _ |}) in Hsms.
      eexists input, None, [CallPublish sinput serr], w1, _, _, w0.
      split_and!; [|exact Hrun|].
      * eapply (runs_bind _ _ _ _ [_] _ _ [_]); [exact Hrun|].
        eapply runs_bind_last; [|apply runs_ret_at].
        eapply runs_bind_last; [exact Hsms|apply runs_ret_at].
      * eexists. split_and!; [done..|]. by eexists _, _.
    + eexists input, None, [], w0, _, _, w0.
      split_and!; [|exact Hrun|].
      * eapply runs_bind_last; [exact Hrun|].
        eapply runs_bind_nil; [apply (runs_ret _ st0)|]. apply runs_ret_at.
      * eexists. by split_and!.
Qed.

End runs.

(** * Routing *)

Section routing.
Context `{C : Collaborators}.

Lemma isCriticalNotificationType_spec ty :
  isCriticalNotificationType ty = true ↔
  ty ∈ ["maintenance_emergency"; "payment_overdue"; "lease_violation";
        "property_damage"; "security_breach"].
Proof.
  unfold isCriticalNotificationType, criticalTypes.
  rewrite !elem_of_cons, elem_of_nil.
  repeat (rewrite lookup_insert; case_decide; [subst; simpl; tauto|]).
  rewrite lookup_singleton. case_decide; [subst; simpl; tauto|].
  simpl. intuition congruence.
Qed.

Lemma MustParse_valid s :
  valid_uuid s = true → ∃ u, MustParse s = ret u.
Proof.
  unfold valid_uuid, MustParse. destruct (uuid.Parse s); [eauto|done].
Qed.

(** With two identifiers that parse, [SendNotification] is the dispatch on
    the priority followed by the wrapping of the error. *)
Lemma SendNotification_valid s req :
  valid_uuid (NotificationRequest.LandlordID req) = true →
  valid_uuid (NotificationRequest.RecipientID req) = true →
  SendNotification s req
  = (r <- (if decide (NotificationRequest.Priority req = "urgent") then
             sendUrgentNotification s req
           else if decide (NotificationRequest.Priority req = "high") then
             sendHighPriorityNotification s req
           else sendEmailNotification s req) ;;
     match r with
     | Err err => ret (Err ("failed to send notification: " +:+ err))
     | Ok response => ret (Ok response)
     end).
Proof.
  intros [u1 H1]%MustParse_valid [u2 H2]%MustParse_valid.
  unfold SendNotification. by rewrite H1, H2.
Qed.

Lemma SendNotification_invalid s req st :
  valid_uuid (NotificationRequest.LandlordID req) = false
  ∨ valid_uuid (NotificationRequest.RecipientID req) = false →
  ∃ p, SendNotification s req st = (Panics p, st).
Proof.
  unfold SendNotification, valid_uuid, MustParse, bind.
  destruct (uuid.Parse (NotificationRequest.LandlordID req)) eqn:E1.
  - destruct (uuid.Parse (NotificationRequest.RecipientID req)) eqn:E2.
    + by intros [|].
    + intros _. by eexists.
  - intros _. by eexists.
Qed.

Lemma emitted_panic {A} (m : M A) st p :
  m st = (Panics p, st) → emitted m st = [].
Proof. unfold emitted. intros ->. simpl. by rewrite drop_all. Qed.

Lemma wrap_runs (m : M (result error NotificationResponse.t)) st r cs w :
  runs m st r cs w →
  runs (r <- m ;;
        match r with
        | Err err => ret (Err ("failed to send notification: " +:+ err))
        | Ok response => ret (Ok response)
        end) st
    (match r with
     | Err err => Err ("failed to send notification: " +:+ err)
     | Ok response => Ok response
     end) cs w.
Proof.
  intros H. eapply runs_bind_last; [exact H|].
  destruct r; apply runs_ret_at.
Qed.

(** The runs of [SendNotification] for the three routes, when the
    identifiers parse: the email call first; after a failed email nothing
    more; after a successful one the SMS call when [sms_wanted]. *)
Lemma SendNotification_runs s req st :
  valid_uuid (NotificationRequest.LandlordID req) = true →
  valid_uuid (NotificationRequest.RecipientID req) = true →
  let sms_wanted :=
    if decide (NotificationRequest.Priority req = "urgent") then
      bool_decide (NotificationRequest.RecipientPhone req ≠ "")
    else if decide (NotificationRequest.Priority req = "high") then
      bool_decide (NotificationRequest.RecipientPhone req ≠ "")
      && isCriticalNotificationType (NotificationRequest.Type_ req)
    else false in
  ∃ input err sms w r r0 w0,
    runs (SendNotification s req) st r (CallSendEmail input err :: sms) w ∧
    runs (sendEmailNotification s req) st r0 [CallSendEmail input err] w0 ∧
    match err with
    | Some e => (∃ msg, r = Err msg) ∧ (∃ msg, r0 = Err msg) ∧ sms = []
    | None =>
        ∃ resp,
          r0 = Ok resp ∧ r = Ok resp ∧
          NotificationResponse.Status resp = "sent" ∧
          NotificationResponse.Channel resp = "email" ∧
          if sms_wanted then
            ∃ sinput serr,
              sms = [CallPublish sinput serr] ∧
              sns.PhoneNumber sinput = NotificationRequest.RecipientPhone req
          else sms = []
    end.
Proof.
  intros HL HR sms_wanted. rewrite SendNotification_valid by done.
  assert (sms_wanted = true → NotificationRequest.RecipientPhone req ≠ "")
    as Hphone.
  { unfold sms_wanted.
    destruct (decide (NotificationRequest.Priority req = "urgent"));
      [|destruct (decide (NotificationRequest.Priority req = "high"))];
      intros Hw; [| |done].
    - by apply bool_decide_eq_true in Hw.
    - by apply andb_true_iff in Hw as [?%bool_decide_eq_true _]. }
  assert (∀ wrap,
    ∃ input err sms w r r0 w0,
      runs (r <- sendEmailNotification s req ;;
            match r with
            | Err err => ret (Err (wrap +:+ err))
            | Ok emailResp =>
                (if sms_wanted then _ <- sendSMSNotification req ;; ret tt
                 else ret tt) ;;;
                ret (Ok emailResp)
            end) st r (CallSendEmail input err :: sms) w ∧
      runs (sendEmailNotification s req) st r0 [CallSendEmail input err] w0 ∧
      match err with
      | Some e => (∃ msg, r = Err msg) ∧ (∃ msg, r0 = Err msg) ∧ sms = []
      | None =>
          ∃ resp,
            r0 = Ok resp ∧ r = Ok resp ∧
            NotificationResponse.Status resp = "sent" ∧
            NotificationResponse.Channel resp = "email" ∧
            if sms_wanted then
              ∃ sinput serr,
                sms = [CallPublish sinput serr] ∧
                sns.PhoneNumber sinput = NotificationRequest.RecipientPhone req
            else sms = []
      end) as Hshape.
  { intros wrap.
    destruct (email_then_sms_runs s req st sms_wanted wrap Hphone)
      as (input & err & sms & w & r & r0 & w0 & Hrun & Hrun0 & Hres).
    exists input, err, sms, w, r, r0, w0. split_and!; [done..|].
    destruct err as [e|]; [|done].
    destruct Hres as (-> & -> & ->). split_and!; by eauto. }
  assert (∀ m input err sms w r r0 w0,
    runs m st r (CallSendEmail input err :: sms) w →
    runs (sendEmailNotification s req) st r0 [CallSendEmail input err] w0 →
    match err with
    | Some e => (∃ msg, r = Err msg) ∧ (∃ msg, r0 = Err msg) ∧ sms = []
    | None =>
        ∃ resp,
          r0 = Ok resp ∧ r = Ok resp ∧
          NotificationResponse.Status resp = "sent" ∧
          NotificationResponse.Channel resp = "email" ∧
          if sms_wanted then
            ∃ sinput serr,
              sms = [CallPublish sinput serr] ∧
              sns.PhoneNumber sinput = NotificationRequest.RecipientPhone req
          else sms = []
    end →
    ∃ input err sms w r r0 w0,
      runs (r <- m ;;
            match r with
            | Err err => ret (Err ("failed to send notification: " +:+ err))
            | Ok response => ret (Ok response)
            end) st r (CallSendEmail input err :: sms) w ∧
      runs (sendEmailNotification s req) st r0 [CallSendEmail input err] w0 ∧
      match err with
      | Some e => (∃ msg, r = Err msg) ∧ (∃ msg, r0 = Err msg) ∧ sms = []
      | None =>
          ∃ resp,
            r0 = Ok resp ∧ r = Ok resp ∧
            NotificationResponse.Status resp = "sent" ∧
            NotificationResponse.Channel resp = "email" ∧
            if sms_wanted then
              ∃ sinput serr,
                sms = [CallPublish sinput serr] ∧
                sns.PhoneNumber sinput = NotificationRequest.RecipientPhone req
            else sms = []
      end) as Hwrap.
  { intros m input err sms w r r0 w0 Hrun Hrun0 Hres.
    eexists input, err, sms, w, _, r0, w0.
    split_and!; [by apply wrap_runs|done|].
    destruct err as [e|].
    - destruct Hres as ([msg ->] & ? & ?). split_and!; by eauto.
    - destruct Hres as (resp & -> & -> & ?). by exists resp. }
  subst sms_wanted.
  destruct (decide (NotificationRequest.Priority req = "urgent"));
    [|destruct (decide (NotificationRequest.Priority req = "high"))].
  - destruct (Hshape "failed to send urgent email: ")
      as (input & err & sms & w & r & r0 & w0 & Hrun & Hrun0 & Hres).
    eapply (Hwrap (sendUrgentNotification s req));
      [exact Hrun|exact Hrun0|exact Hres].
  - destruct (Hshape "failed to send high priority email: ")
      as (input & err & sms & w & r & r0 & w0 & Hrun & Hrun0 & Hres).
    eapply (Hwrap (sendHighPriorityNotification s req));
      [exact Hrun|exact Hrun0|exact Hres].
  - destruct (sendEmailNotification_runs s req st)
      as (tpl & o1 & o2 & o3 & err & w0 & r0 & _ & _ & _ & _ & Hrun & Hr0).
    eapply (Hwrap _ _ err [] w0 r0 r0 w0); [exact Hrun|exact Hrun|].
    destruct err as [e|]; [by eauto|].
    destruct Hr0 as (id & now & ->). by eexists.
Qed.

End routing.

Section claims_routing.
Context `{C : Collaborators}.

(** Whether [SendNotification] follows the email by an SMS, from the
    priority, the phone number and the type. *)
Lemma SendNotification_dispatched s req st :
  valid_uuid (NotificationRequest.LandlordID req) = true →
  valid_uuid (NotificationRequest.RecipientID req) = true →
  dispatched (SendNotification s req) (sendEmailNotification s req) req st
    (if decide (NotificationRequest.Priority req = "urgent") then
       bool_decide (NotificationRequest.RecipientPhone req ≠ "")
     else if decide (NotificationRequest.Priority req = "high") then
       bool_decide (NotificationRequest.RecipientPhone req ≠ "")
       && isCriticalNotificationType (NotificationRequest.Type_ req)
     else false).
Proof.
  intros HL HR.
  destruct (SendNotification_runs s req st HL HR)
    as (input & err & sms & w & r & r0 & w0 & Hrun & Hrun0 & Hres).
  apply runs_emitted in Hrun as [Hem Hret].
  apply runs_emitted in Hrun0 as [_ Hret0].
  exists input, err, sms. split; [done|].
  destruct err as [e|].
  - destruct Hres as ([msg ->] & _ & ->). eauto.
  - destruct Hres as (resp & -> & -> & ? & ? & ?). split; [done|].
    by exists resp.
Qed.

(** C1, as amended. For every request with priority "urgent" whose landlord
    and recipient identifiers parse as UUIDs, [SendNotification] calls the
    email transport first; when that call fails, the SMS transport is not
    called and an error is returned; when it succeeds, the SMS transport is
    called exactly when [RecipientPhone] is not empty, and the response
    returned is the one of the email, with status "sent" and channel
    "email", whether the SMS transport fails or not. *)
Theorem urgent_dispatch s req st :
  NotificationRequest.Priority req = "urgent" →
  valid_uuid (NotificationRequest.LandlordID req) = true →
  valid_uuid (NotificationRequest.RecipientID req) = true →
  dispatched (SendNotification s req) (sendEmailNotification s req) req st
    (bool_decide (NotificationRequest.RecipientPhone req ≠ "")).
Proof.
  intros Hp HL HR. pose proof (SendNotification_dispatched s req st HL HR) as H.
  by rewrite decide_True in H.
Qed.

(** C2, as amended. For every request with priority "high" and a type in
    the critical set whose identifiers parse as UUIDs, [SendNotification]
    calls the email transport first; when that call succeeds, the SMS
    transport is called as well if [RecipientPhone] is not empty, and if it
    is empty only the email transport is called and a response (no error) is
    returned; when the email call fails the SMS transport is not called and
    an error is returned. *)
Theorem high_critical_dispatch s req st :
  NotificationRequest.Priority req = "high" →
  NotificationRequest.Type_ req
    ∈ ["maintenance_emergency"; "payment_overdue"; "lease_violation";
       "property_damage"; "security_breach"] →
  valid_uuid (NotificationRequest.LandlordID req) = true →
  valid_uuid (NotificationRequest.RecipientID req) = true →
  dispatched (SendNotification s req) (sendEmailNotification s req) req st
    (bool_decide (NotificationRequest.RecipientPhone req ≠ "")).
Proof.
  intros Hp Hty HL HR.
  pose proof (SendNotification_dispatched s req st HL HR) as H.
  apply isCriticalNotificationType_spec in Hty.
  rewrite Hp, Hty, andb_true_r in H.
  by rewrite decide_False, decide_True in H.
Qed.

(** X1. With a priority other than "urgent" and "high" (an absent or unknown
    one too) and identifiers that parse, the email transport is called once
    and the SMS transport is not called. *)
Theorem default_priority_email_only s req st :
  NotificationRequest.Priority req ≠ "urgent" →
  NotificationRequest.Priority req ≠ "high" →
  valid_uuid (NotificationRequest.LandlordID req) = true →
  valid_uuid (NotificationRequest.RecipientID req) = true →
  ∃ input err, emitted (SendNotification s req) st = [CallSendEmail input err].
Proof.
  intros H1 H2 HL HR.
  pose proof (SendNotification_dispatched s req st HL HR) as H.
  rewrite !decide_False in H by done.
  destruct H as (input & err & sms & Hem & Hres). exists input, err.
  destruct err; [by destruct Hres as [-> _]|by destruct Hres as [-> _]].
Qed.

(** X2. At "high" priority a type outside the critical set gets no SMS, with
    or without a phone number: the email transport is called once. *)
Theorem high_uncritical_email_only s req st :
  NotificationRequest.Priority req = "high" →
  isCriticalNotificationType (NotificationRequest.Type_ req) = false →
  valid_uuid (NotificationRequest.LandlordID req) = true →
  valid_uuid (NotificationRequest.RecipientID req) = true →
  ∃ input err, emitted (SendNotification s req) st = [CallSendEmail input err].
Proof.
  intros Hp Hty HL HR.
  pose proof (SendNotification_dispatched s req st HL HR) as H.
  rewrite Hp, Hty, andb_false_r in H.
  rewrite decide_False, decide_True in H by done.
  destruct H as (input & err & sms & Hem & Hres). exists input, err.
  destruct err; [by destruct Hres as [-> _]|by destruct Hres as [-> _]].
Qed.

(** C3. For every request, if the email transport call fails then
    [SendNotification] returns an error and no response, and the SMS
    transport is not called, whatever the priority and the phone number. *)
Theorem email_failure_is_fatal s req st :
  existsb is_failed_email_call (emitted (SendNotification s req) st) = true →
  (∃ msg, returned (SendNotification s req) st = Returns (Err msg)) ∧
  existsb is_sms_call (emitted (SendNotification s req) st) = false.
Proof.
  destruct (valid_uuid (NotificationRequest.LandlordID req)) eqn:HL;
    [destruct (valid_uuid (NotificationRequest.RecipientID req)) eqn:HR|].
  - destruct (SendNotification_dispatched s req st HL HR)
      as (input & err & sms & -> & Hres).
    destruct err as [e|].
    + destruct Hres as [-> Hret]. by intros _.
    + destruct Hres as [Hsms _].
      destruct (if decide _ then _ else _).
      * destruct Hsms as (sinput & serr & -> & _). by intros ?.
      * subst sms. by intros ?.
  - destruct (SendNotification_invalid s req st) as [p Hp]; [by right|].
    by rewrite (emitted_panic _ _ _ Hp).
  - destruct (SendNotification_invalid s req st) as [p Hp]; [by left|].
    by rewrite (emitted_panic _ _ _ Hp).
Qed.

(** C9, the defect. A request whose landlord or recipient identifier does
    not parse as a UUID makes [SendNotification] panic, before any
    transport is called: no validation error is returned. *)
Theorem malformed_identifier_panics s req st :
  valid_uuid (NotificationRequest.LandlordID req) = false
  ∨ valid_uuid (NotificationRequest.RecipientID req) = false →
  (∃ p, returned (SendNotification s req) st = Panics p) ∧
  emitted (SendNotification s req) st = [].
Proof.
  intros H. destruct (SendNotification_invalid s req st H) as [p Hp].
  split; [|by eapply emitted_panic]. exists p. unfold returned. by rewrite Hp.
Qed.

End claims_routing.

(** C1, the counterexample: an urgent request with a phone number whose
    email is refused; the SMS transport is not called. *)
Lemma urgent_email_failure_skips_sms :
  NotificationRequest.Priority
    (Scripted.request "maintenance_emergency" "urgent" "+15551234567")
  = "urgent" ∧
  NotificationRequest.RecipientPhone
    (Scripted.request "maintenance_emergency" "urgent" "+15551234567")
  ≠ "" ∧
  existsb is_sms_call
    (emitted
       (SendNotification Scripted.service
          (Scripted.request "maintenance_emergency" "urgent" "+15551234567"))
       (Scripted.start [Some "MessageRejected"] []))
  = false.
Proof. split_and!; [reflexivity|discriminate|vm_compute; reflexivity]. Qed.

(** The urgent route on a request with a phone number, the SMS transport
    failing. *)
Lemma urgent_dispatch_witness :
  dispatched
    (SendNotification Scripted.service
       (Scripted.request "maintenance_emergency" "urgent" "+15551234567"))
    (sendEmailNotification Scripted.service
       (Scripted.request "maintenance_emergency" "urgent" "+15551234567"))
    (Scripted.request "maintenance_emergency" "urgent" "+15551234567")
    (Scripted.start [] [Some "Throttled"]) true.
Proof.
  apply (urgent_dispatch Scripted.service
           (Scripted.request "maintenance_emergency" "urgent" "+15551234567")
           (Scripted.start [] [Some "Throttled"]));
    reflexivity.
Defined.

Section claims_bulk.
Context `{C : Collaborators}.

Lemma SendNotification_returns s req st :
  valid_uuid (NotificationRequest.LandlordID req) = true →
  valid_uuid (NotificationRequest.RecipientID req) = true →
  ∃ r cs w, runs (SendNotification s req) st r cs w.
Proof.
  intros HL HR.
  destruct (SendNotification_runs s req st HL HR)
    as (input & err & sms & w & r & _ & _ & Hrun & _). eauto.
Qed.

Lemma SendBulkNotifications_loop_runs s requests :
  Forall (λ req,
    valid_uuid (NotificationRequest.LandlordID req) = true ∧
    valid_uuid (NotificationRequest.RecipientID req) = true) requests →
  ∀ st acc,
    ∃ responses cs w,
      processed s requests st responses
        {| world := w; calls := calls st ++ cs |} ∧
      runs (SendBulkNotifications_loop s requests acc) st
        (acc ++ responses) cs w.
Proof.
  induction 1 as [|req rest [HL HR] _ IH]; intros st acc.
  - exists [], [], (world st). split.
    + rewrite app_nil_r. destruct st. constructor.
    + rewrite app_nil_r. apply runs_ret.
  - destruct (SendNotification_returns s req st HL HR) as (r & cs & w & Hrun).
    set (st1 := {| world := w; calls := calls st ++ cs |}).
    destruct r as [resp|err].
    + destruct (IH st1 (acc ++ [resp])) as (resps & cs' & w' & Hproc & Hloop).
      exists (resp :: resps), (cs ++ cs'), w'. split.
      * rewrite app_assoc. eapply processed_sent; [exact Hrun|exact Hproc].
      * replace (acc ++ resp :: resps) with ((acc ++ [resp]) ++ resps)
          by by rewrite <-app_assoc.
        eapply runs_bind; [exact Hrun|exact Hloop].
    + destruct (IH st1 acc) as (resps & cs' & w' & Hproc & Hloop).
      exists resps, (cs ++ cs'), w'. split.
      * rewrite app_assoc.
        eapply processed_skipped; [exact Hrun|exact Hproc].
      * eapply runs_bind; [exact Hrun|exact Hloop].
Qed.

Lemma processed_length s requests st responses st' :
  processed s requests st responses st' →
  length responses ≤ length requests.
Proof. induction 1; simpl; lia. Qed.

(** X3. When every request of the batch has identifiers that parse,
    [SendBulkNotifications] returns, with a nil error, the responses of the
    requests whose sending succeeded, in the order of the requests, the
    others being skipped; there are no more responses than requests. *)
Theorem SendBulkNotifications_processes s requests st :
  Forall (λ req,
    valid_uuid (NotificationRequest.LandlordID req) = true ∧
    valid_uuid (NotificationRequest.RecipientID req) = true) requests →
  ∃ responses st',
    SendBulkNotifications s requests st = (Returns (responses, None), st') ∧
    processed s requests st responses st' ∧
    length responses ≤ length requests.
Proof.
  intros Hvalid.
  destruct (SendBulkNotifications_loop_runs s requests Hvalid st [])
    as (resps & cs & w & Hproc & Hloop).
  exists resps, {| world := w; calls := calls st ++ cs |}. split_and!.
  - unfold SendBulkNotifications.
    assert (runs (responses <- SendBulkNotifications_loop s requests [] ;;
                  ret (responses, @None error)) st (resps, None) cs w) as H.
    { eapply runs_bind_last; [exact Hloop|apply runs_ret_at]. }
    exact H.
  - done.
  - by eapply processed_length.
Qed.

End claims_bulk.

(** C2, the counterexample: a critical request at "high" priority whose
    email is refused.  With a phone number, the SMS transport is not called;
    without one, an error is returned. *)
Lemma high_email_failure_skips_sms :
  existsb is_sms_call
    (emitted
       (SendNotification Scripted.service
          (Scripted.request "maintenance_emergency" "high" "+15551234567"))
       (Scripted.start [Some "MessageRejected"] []))
  = false ∧
  returned
    (SendNotification Scripted.service
       (Scripted.request "maintenance_emergency" "high" ""))
    (Scripted.start [Some "MessageRejected"] [])
  = Returns
      (Err "failed to send notification: failed to send high priority email: failed to send email: MessageRejected").
Proof. split; vm_compute; reflexivity. Qed.

(** The high-priority route on a security breach with a phone number. *)
Lemma high_critical_dispatch_witness :
  dispatched
    (SendNotification Scripted.service
       (Scripted.request "security_breach" "high" "+15551234567"))
    (sendEmailNotification Scripted.service
       (Scripted.request "security_breach" "high" "+15551234567"))
    (Scripted.request "security_breach" "high" "+15551234567")
    (Scripted.start [] []) true.
Proof.
  apply (high_critical_dispatch Scripted.service
           (Scripted.request "security_breach" "high" "+15551234567")
           (Scripted.start [] []));
    [reflexivity|rewrite !elem_of_cons; tauto|reflexivity|reflexivity].
Defined.

(** An urgent request with a phone number whose email is refused. *)
Lemma email_failure_is_fatal_witness :
  (∃ msg,
     returned
       (SendNotification Scripted.service
          (Scripted.request "payment_overdue" "urgent" "+15551234567"))
       (Scripted.start [Some "MessageRejected"] [])
     = Returns (Err msg)) ∧
  existsb is_sms_call
    (emitted
       (SendNotification Scripted.service
          (Scripted.request "payment_overdue" "urgent" "+15551234567"))
       (Scripted.start [Some "MessageRejected"] []))
  = false.
Proof.
  apply (email_failure_is_fatal Scripted.service
           (Scripted.request "payment_overdue" "urgent" "+15551234567")
           (Scripted.start [Some "MessageRejected"] [])).
  vm_compute. reflexivity.
Defined.

(** C4, the defect at work: a request of low priority whose landlord
    identifier is not a UUID; [SendNotification] panics and the email
    transport is not called. *)
Theorem default_priority_malformed_panics :
  returned
    (SendNotification Scripted.service
       (Scripted.malformed_request "xyz" "low" ""))
    (Scripted.start [] [])
  = Panics (PanicUUIDParse "not-a-uuid" (uuid.InvalidLength 10)) ∧
  emitted
    (SendNotification Scripted.service
       (Scripted.malformed_request "xyz" "low" ""))
    (Scripted.start [] [])
  = [].
Proof. split; vm_compute; reflexivity. Qed.

(** C5, the defect at work: a batch whose second request has a landlord
    identifier that is not a UUID; the batch panics after the email of the
    first request, and the third request is not sent. *)
Theorem bulk_aborts_on_malformed_item :
  returned
    (SendBulkNotifications Scripted.service
       [Scripted.request "xyz" "low" "";
        Scripted.malformed_request "xyz" "low" "";
        Scripted.request "payment_due" "medium" ""])
    (Scripted.start [] [])
  = Panics (PanicUUIDParse "not-a-uuid" (uuid.InvalidLength 10)) ∧
  length
    (emitted
       (SendBulkNotifications Scripted.service
          [Scripted.request "xyz" "low" "";
           Scripted.malformed_request "xyz" "low" "";
           Scripted.request "payment_due" "medium" ""])
       (Scripted.start [] []))
  = 1.
Proof. split; vm_compute; reflexivity. Qed.

(** A payment reminder whose landlord identifier is not a UUID. *)
Lemma malformed_identifier_panics_witness :
  (∃ p,
     returned
       (SendNotification Scripted.service
          (Scripted.malformed_request "payment_due" "medium" ""))
       (Scripted.start [] [])
     = Panics p) ∧
  emitted
    (SendNotification Scripted.service
       (Scripted.malformed_request "payment_due" "medium" ""))
    (Scripted.start [] [])
  = [].
Proof.
  apply (malformed_identifier_panics Scripted.service
           (Scripted.malformed_request "payment_due" "medium" "")
           (Scripted.start [] [])).
  left. reflexivity.
Defined.

(** * Templates and substitution *)

Section orders.

Lemma forallb_perm {A} (f : A → bool) l1 l2 :
  l1 ≡ₚ l2 → forallb f l1 = forallb f l2.
Proof.
  induction 1 as [|x l1 l2 _ IH|x y l|l1 l2 l3 _ IH1 _ IH2]; simpl.
  - done.
  - by rewrite IH.
  - by destruct (f x), (f y).
  - by rewrite IH1.
Qed.

Lemma keys_of_order (m : gmap string string) order k :
  order ≡ₚ map_to_list m → k ∈ order.*1 ↔ is_Some (m !! k).
Proof.
  intros Hp. rewrite Hp. split.
  - intros [[k' v] [-> Hin]]%list_elem_of_fmap.
    apply elem_of_map_to_list in Hin. eauto.
  - intros [v Hv]. apply list_elem_of_fmap. exists (k, v). split; [done|].
    by apply elem_of_map_to_list.
Qed.

Lemma NoDup_keys_of_order (m : gmap string string) order :
  order ≡ₚ map_to_list m → NoDup order.*1.
Proof. intros ->. apply NoDup_fst_map_to_list. Qed.

Lemma bracefree_keys_of_order (m : gmap string string) order :
  order ≡ₚ map_to_list m → bracefree_keys m = true →
  forallb (λ kv, Str.bracefree kv.1) order = true.
Proof. intros Hp. unfold bracefree_keys. by rewrite (forallb_perm _ _ _ Hp). Qed.

Lemma bracefree_entries_of_order (m : gmap string string) order :
  order ≡ₚ map_to_list m → bracefree_map m = true →
  forallb bracefree_entry order = true.
Proof. intros Hp. unfold bracefree_map. by rewrite (forallb_perm _ _ _ Hp). Qed.

End orders.

Section claims_substitution.
Context `{C : Collaborators}.

(** C7, as amended. For every template and every mapping whose keys have no
    brace, [replaceVariables] leaves in place every placeholder whose name
    has no brace and is absent from the mapping: the text before it and the
    text after it are rendered on their own (rendering "Hello {{missing}}"
    with the empty mapping gives "Hello {{missing}}"); and for every
    mapping, a text with no token is returned unchanged, so that rendering a
    rendered text that has no token left changes nothing. *)
Theorem unresolved_placeholders_are_kept
    (variables : gmap string string) (order : list (string * string)) :
  order ≡ₚ map_to_list variables →
  (bracefree_keys variables = true →
   ∀ k pre post,
     Str.bracefree k = true → variables !! k = None →
     replaceVariables_over order (pre +:+ placeholder k +:+ post)
     = replaceVariables_over order pre
       +:+ placeholder k +:+ replaceVariables_over order post) ∧
  (variables = ∅ →
   replaceVariables_over order "Hello {{missing}}" = "Hello {{missing}}") ∧
  (∀ s, has_token s = false → replaceVariables_over order s = s) ∧
  (∀ t,
     has_token (replaceVariables_over order t) = false →
     replaceVariables_over order (replaceVariables_over order t)
     = replaceVariables_over order t).
Proof.
  intros Hp. split_and!.
  - intros Hbf k pre post Hk Hnone.
    apply replaceVariables_over_keep; [done| |].
    + by eapply bracefree_keys_of_order.
    + rewrite (keys_of_order variables) by done. rewrite Hnone.
      by intros [? ?].
  - intros ->. rewrite map_to_list_empty in Hp.
    by apply Permutation_nil_r in Hp as ->.
  - intros s Hs. by apply replaceVariables_over_no_token.
  - intros t Ht. by apply replaceVariables_over_no_token.
Qed.

(** What [replaceVariables] returns is the loop run in an order of the
    mapping's entries. *)
Lemma replaceVariables_returns template variables st :
  ∃ order,
    order ≡ₚ map_to_list variables ∧
    returned (replaceVariables template variables) st
    = Returns (replaceVariables_over order template).
Proof.
  destruct (replaceVariables_runs template variables st)
    as (order & w & Hp & Hrun).
  exists order. split; [done|]. by apply runs_emitted in Hrun as [_ ?].
Qed.

(** C8, as amended. On a template in which each pair of opening braces
    opens a placeholder with a brace-free name, and with a mapping whose
    keys and values have no brace, the output of [replaceVariables] does not
    depend on the order in which the keys are ranged over, and two runs give
    the same output; in any order each key is met exactly once, and no
    placeholder of a key is left in the output. *)
Theorem replaceVariables_order_independent
    (template : string) (variables : gmap string string) :
  well_formed template = true → bracefree_map variables = true →
  (∀ o1 o2,
     o1 ≡ₚ map_to_list variables → o2 ≡ₚ map_to_list variables →
     replaceVariables_over o1 template = replaceVariables_over o2 template) ∧
  (∀ st1 st2,
     returned (replaceVariables template variables) st1
     = returned (replaceVariables template variables) st2) ∧
  (∀ o k,
     o ≡ₚ map_to_list variables →
     NoDup o.*1 ∧ (k ∈ o.*1 ↔ is_Some (variables !! k))) ∧
  (∀ o k,
     o ≡ₚ map_to_list variables → is_Some (variables !! k) →
     Str.Contains (replaceVariables_over o template) (placeholder k) = false).
Proof.
  intros Hwf%well_formed_sound Hbf.
  assert (∀ o1 o2,
    o1 ≡ₚ map_to_list variables → o2 ≡ₚ map_to_list variables →
    replaceVariables_over o1 template = replaceVariables_over o2 template)
    as Horder.
  { intros o1 o2 Hp1 Hp2. apply replaceVariables_over_perm; [|..|done].
    - by rewrite Hp1, Hp2.
    - by eapply NoDup_keys_of_order.
    - by eapply bracefree_entries_of_order. }
  split_and!; [done| | |].
  - intros st1 st2.
    destruct (replaceVariables_returns template variables st1)
      as (o1 & Hp1 & ->).
    destruct (replaceVariables_returns template variables st2)
      as (o2 & Hp2 & ->).
    f_equal. by apply Horder.
  - intros o k Hp. split; [by eapply NoDup_keys_of_order|].
    by apply keys_of_order.
  - intros o k Hp Hk. apply replaceVariables_over_replaces; [| |done].
    + by eapply bracefree_entries_of_order.
    + by apply (keys_of_order variables).
Qed.

End claims_substitution.

(** C7, the counterexample: a key with braces takes a placeholder away
    whose own name is absent from the mapping, and so does a key whose
    placeholder begins inside the placeholder of a name with a brace. *)
Lemma brace_in_key_loses_placeholder :
  (({[ "a}}{{b" := "v" ]} : gmap string string) !! "a" = None ∧
   Str.Contains "{{a}}{{b}}" (placeholder "a") = true ∧
   replaceVariables_over
     (map_to_list ({[ "a}}{{b" := "v" ]} : gmap string string)) "{{a}}{{b}}"
   = "v" ∧
   Str.Contains "v" (placeholder "a") = false) ∧
  (({[ "a" := "v" ]} : gmap string string) !! "{a" = None ∧
   Str.Contains "{{{a}}" (placeholder "{a") = true ∧
   replaceVariables_over
     (map_to_list ({[ "a" := "v" ]} : gmap string string)) "{{{a}}"
   = "{v" ∧
   Str.Contains "{v" (placeholder "{a") = false).
Proof. split; split_and!; vm_compute; reflexivity. Qed.

(** The mapping of one name. *)
Lemma unresolved_placeholders_are_kept_witness :
  (bracefree_keys ({[ "name" := "Ann" ]} : gmap string string) = true →
   ∀ k pre post,
     Str.bracefree k = true →
     ({[ "name" := "Ann" ]} : gmap string string) !! k = None →
     replaceVariables_over [("name", "Ann")] (pre +:+ placeholder k +:+ post)
     = replaceVariables_over [("name", "Ann")] pre
       +:+ placeholder k +:+ replaceVariables_over [("name", "Ann")] post) ∧
  (({[ "name" := "Ann" ]} : gmap string string) = ∅ →
   replaceVariables_over [("name", "Ann")] "Hello {{missing}}"
   = "Hello {{missing}}") ∧
  (∀ s, has_token s = false → replaceVariables_over [("name", "Ann")] s = s) ∧
  (∀ t,
     has_token (replaceVariables_over [("name", "Ann")] t) = false →
     replaceVariables_over [("name", "Ann")]
       (replaceVariables_over [("name", "Ann")] t)
     = replaceVariables_over [("name", "Ann")] t).
Proof.
  apply (unresolved_placeholders_are_kept
           {[ "name" := "Ann" ]} [("name", "Ann")]).
  vm_compute. reflexivity.
Defined.

(** C8, the counterexample: a value that holds the placeholder of another
    key, and a template with a placeholder inside a pair of braces, give
    outputs that depend on the order; the two scripted runtimes, which range
    over the mapping in opposite orders, return different texts. *)
Lemma order_changes_output :
  ([("a", "{{b}}"); ("b", "x")]
     ≡ₚ map_to_list ({[ "a" := "{{b}}"; "b" := "x" ]} : gmap string string) ∧
   [("b", "x"); ("a", "{{b}}")]
     ≡ₚ map_to_list ({[ "a" := "{{b}}"; "b" := "x" ]} : gmap string string) ∧
   replaceVariables_over [("a", "{{b}}"); ("b", "x")] "{{a}}" = "x" ∧
   replaceVariables_over [("b", "x"); ("a", "{{b}}")] "{{a}}" = "{{b}}") ∧
  ([("a", "b"); ("b", "x")]
     ≡ₚ map_to_list ({[ "a" := "b"; "b" := "x" ]} : gmap string string) ∧
   [("b", "x"); ("a", "b")]
     ≡ₚ map_to_list ({[ "a" := "b"; "b" := "x" ]} : gmap string string) ∧
   replaceVariables_over [("a", "b"); ("b", "x")] "{{{{a}}}}" = "x" ∧
   replaceVariables_over [("b", "x"); ("a", "b")] "{{{{a}}}}" = "{{b}}") ∧
  (returned (C := Scripted.collaborators false)
     (replaceVariables "{{a}}" {[ "a" := "{{b}}"; "b" := "x" ]})
     (Scripted.start [] [])
   = Returns "x" ∧
   returned (C := Scripted.collaborators true)
     (replaceVariables "{{a}}" {[ "a" := "{{b}}"; "b" := "x" ]})
     (Scripted.start_reversed [] [])
   = Returns "{{b}}").
Proof.
  split_and!; try (vm_compute; reflexivity); try (vm_compute; discriminate).
  all: vm_compute; first [reflexivity | apply perm_swap].
Qed.

(** A template with a style rule and three placeholders, two of them
    mapped. *)
Lemma replaceVariables_order_independent_witness :
  (∀ o1 o2,
     o1 ≡ₚ map_to_list ({[ "name" := "Ann"; "date" := "May 1" ]}
                           : gmap string string) →
     o2 ≡ₚ map_to_list ({[ "name" := "Ann"; "date" := "May 1" ]}
                           : gmap string string) →
     replaceVariables_over o1 "p { margin: 0 } Hello {{name}}, {{date}} {{other}}"
     = replaceVariables_over o2
         "p { margin: 0 } Hello {{name}}, {{date}} {{other}}") ∧
  (∀ st1 st2 : @State (Scripted.collaborators false),
     returned
       (replaceVariables "p { margin: 0 } Hello {{name}}, {{date}} {{other}}"
          {[ "name" := "Ann"; "date" := "May 1" ]}) st1
     = returned
         (replaceVariables
            "p { margin: 0 } Hello {{name}}, {{date}} {{other}}"
            {[ "name" := "Ann"; "date" := "May 1" ]}) st2) ∧
  (∀ o k,
     o ≡ₚ map_to_list ({[ "name" := "Ann"; "date" := "May 1" ]}
                          : gmap string string) →
     NoDup o.*1
     ∧ (k ∈ o.*1
        ↔ is_Some (({[ "name" := "Ann"; "date" := "May 1" ]}
                      : gmap string string) !! k))) ∧
  (∀ o k,
     o ≡ₚ map_to_list ({[ "name" := "Ann"; "date" := "May 1" ]}
                          : gmap string string) →
     is_Some (({[ "name" := "Ann"; "date" := "May 1" ]}
                 : gmap string string) !! k) →
     Str.Contains
       (replaceVariables_over o
          "p { margin: 0 } Hello {{name}}, {{date}} {{other}}")
       (placeholder k)
     = false).
Proof.
  apply (replaceVariables_order_independent (C := Scripted.collaborators false)
           "p { margin: 0 } Hello {{name}}, {{date}} {{other}}"
           {[ "name" := "Ann"; "date" := "May 1" ]});
    vm_compute; reflexivity.
Defined.

Section claims_templates.
Context `{C : Collaborators}.
Import StrFacts.

(** The variables of an email template are the four base variables. *)
Lemma email_variables_keys (rt d t k : string) :
  is_Some (({[ "recipient_name" := rt;
               "landlord_name" := "Property Management";
               "date" := d;
               "time" := t ]} : gmap string string) !! k) ↔
  k ∈ ["recipient_name"; "landlord_name"; "date"; "time"].
Proof.
  rewrite !lookup_insert_is_Some, lookup_singleton_is_Some.
  rewrite !elem_of_cons, elem_of_nil. intuition congruence.
Qed.

Lemma Contains_kept order k t :
  Str.bracefree k = true →
  forallb (λ kv, Str.bracefree kv.1) order = true →
  k ∉ order.*1 →
  Str.Contains t (placeholder k) = true →
  Str.Contains (replaceVariables_over order t) (placeholder k) = true.
Proof.
  intros Hk Hbf Hnot (pre & post & ->)%Contains_spec.
  rewrite replaceVariables_over_keep by done.
  apply Contains_spec. eauto.
Qed.

(** C6, the defect. For every request whose type has no template of its
    own, the email handed to the transport still holds the placeholders of
    the title and of the message: the subject is the text "{{title}}", and
    both bodies hold "{{title}}" and "{{message}}".  The mapping built for
    the request has the four base variables only. *)
Theorem generic_email_keeps_title_and_message s req st :
  NotificationRequest.Type_ req ≠ "maintenance_request" →
  NotificationRequest.Type_ req ≠ "payment_due" →
  ∃ input err,
    emitted (sendEmailNotification s req) st = [CallSendEmail input err] ∧
    ses.Data (ses.Subject input) = "{{title}}" ∧
    Str.Contains (ses.Data (ses.Html input)) "{{title}}" = true ∧
    Str.Contains (ses.Data (ses.Html input)) "{{message}}" = true ∧
    Str.Contains (ses.Data (ses.Text input)) "{{title}}" = true ∧
    Str.Contains (ses.Data (ses.Text input)) "{{message}}" = true.
Proof.
  intros Hty1 Hty2.
  destruct (sendEmailNotification_runs s req st)
    as (tpl & o1 & o2 & o3 & err & w & r & [w0 Hg] & Hp1 & Hp2 & Hp3
        & Hrun & _).
  destruct (getEmailTemplate_runs (NotificationRequest.Type_ req) req st)
    as (tpl' & w0' & d & t & Hg' & Hvars & Htexts).
  destruct (runs_inj _ _ _ _ _ _ _ _ Hg Hg') as (<- & _ & _).
  rewrite !decide_False in Htexts by done.
  injection Htexts as Hsubject Hhtml Htext.
  rewrite Hsubject, Hhtml, Htext in Hrun. clear Hsubject Hhtml Htext.
  apply runs_emitted in Hrun as [Hem _].
  assert (∀ o k,
    o ≡ₚ map_to_list (EmailTemplate.Variables tpl) →
    k ∈ ["title"; "message"] →
    Str.bracefree k = true ∧
    forallb (λ kv, Str.bracefree kv.1) o = true ∧ k ∉ o.*1) as Hkeys.
  { intros o k Hp Hk.
    assert (k = "title" ∨ k = "message") as Hk2.
    { rewrite !elem_of_cons, elem_of_nil in Hk. tauto. }
    split_and!.
    - by destruct Hk2 as [->| ->].
    - apply forallb_forall. intros [k' v] Hin.
      assert (k' ∈ o.*1) as Hk'.
      { apply list_elem_of_fmap. exists (k', v). split; [done|].
        by apply list_elem_of_In. }
      rewrite (keys_of_order _ _ _ Hp), Hvars, email_variables_keys in Hk'.
      rewrite !elem_of_cons, elem_of_nil in Hk'.
      by destruct Hk' as [->|[->|[->|[->|[]]]]].
    - rewrite (keys_of_order _ _ _ Hp), Hvars, email_variables_keys.
      rewrite !elem_of_cons, elem_of_nil.
      destruct Hk2 as [->| ->]; intuition discriminate. }
  eexists _, err. split; [exact Hem|]. simpl.
  assert (∀ o k text,
    o ≡ₚ map_to_list (EmailTemplate.Variables tpl) →
    k ∈ ["title"; "message"] →
    Str.Contains text (placeholder k) = true →
    Str.Contains (replaceVariables_over o text) (placeholder k) = true)
    as Hkept.
  { intros o k text Hp Hk Ht. destruct (Hkeys o k Hp Hk) as (? & ? & ?).
    by apply Contains_kept. }
  split_and!.
  - destruct (Hkeys o1 "title" Hp1) as (? & ? & ?); [rewrite !elem_of_cons; tauto|].
    change "{{title}}" with ("" +:+ placeholder "title" +:+ "").
    rewrite replaceVariables_over_keep by done.
    by rewrite !replaceVariables_over_no_token.
  - apply (Hkept o2 "title"); [done|rewrite !elem_of_cons; tauto|]. vm_compute. reflexivity.
  - apply (Hkept o2 "message"); [done|rewrite !elem_of_cons; tauto|]. vm_compute. reflexivity.
  - apply (Hkept o3 "title"); [done|rewrite !elem_of_cons; tauto|]. vm_compute. reflexivity.
  - apply (Hkept o3 "message"); [done|rewrite !elem_of_cons; tauto|]. vm_compute. reflexivity.
Qed.

(** The mapping of an email template has no entry for the title or the
    message of the request. *)
Lemma email_variables_lack_title_and_message ty req st :
  ∃ tpl,
    returned (getEmailTemplate ty req) st = Returns tpl ∧
    EmailTemplate.Variables tpl !! "title" = None ∧
    EmailTemplate.Variables tpl !! "message" = None.
Proof.
  destruct (getEmailTemplate_runs ty req st)
    as (tpl & w & d & t & Hg & Hvars & _).
  exists tpl. apply runs_emitted in Hg as [_ Hret].
  split_and!; [done|rewrite Hvars; reflexivity..].
Qed.

(** C10. The email templates other than the generic one are those of the
    types "maintenance_request" and "payment_due", and the SMS templates
    other than the generic one are those of the types
    "maintenance_emergency" and "payment_overdue": every other type gets the
    generic email template and the generic SMS template, and so do the
    critical types "lease_violation", "property_damage" and
    "security_breach". *)
Theorem template_registry_tables ty req st :
  (∃ tpl,
     returned (getEmailTemplate ty req) st = Returns tpl ∧
     ((EmailTemplate.Subject tpl, EmailTemplate.HTMLBody tpl,
       EmailTemplate.TextBody tpl)
      = ("{{title}}", generic_HTMLBody, generic_TextBody)
      ↔ ty ≠ "maintenance_request" ∧ ty ≠ "payment_due")) ∧
  (SMSTemplate.Message (getSMSTemplate ty req) = "{{title}}: {{message}}"
   ↔ ty ≠ "maintenance_emergency" ∧ ty ≠ "payment_overdue") ∧
  Forall
    (λ critical,
       isCriticalNotificationType critical = true ∧
       critical ∉ ["maintenance_request"; "payment_due";
                   "maintenance_emergency"; "payment_overdue"])
    ["lease_violation"; "property_damage"; "security_breach"].
Proof.
  split_and!.
  - destruct (getEmailTemplate_runs ty req st)
      as (tpl & w & d & t & Hg & _ & Htexts).
    exists tpl. apply runs_emitted in Hg as [_ Hret]. split; [done|].
    rewrite Htexts. repeat case_decide; subst; split; try done.
    + by intros [? _].
    + by intros [_ ?].
  - unfold getSMSTemplate. repeat case_decide; subst; simpl; split; try done.
    + by intros [? _].
    + by intros [_ ?].
  - do 3 (constructor;
      [split; [reflexivity
              |rewrite !elem_of_cons, elem_of_nil; intuition discriminate]|]).
    constructor.
Qed.

End claims_templates.

(** A request of an unknown type at low priority. *)
Lemma generic_email_keeps_title_and_message_witness :
  ∃ input err,
    emitted
      (sendEmailNotification Scripted.service
         (Scripted.request "xyz" "low" ""))
      (Scripted.start [] [])
    = [CallSendEmail input err] ∧
    ses.Data (ses.Subject input) = "{{title}}" ∧
    Str.Contains (ses.Data (ses.Html input)) "{{title}}" = true ∧
    Str.Contains (ses.Data (ses.Html input)) "{{message}}" = true ∧
    Str.Contains (ses.Data (ses.Text input)) "{{title}}" = true ∧
    Str.Contains (ses.Data (ses.Text input)) "{{message}}" = true.
Proof.
  apply (generic_email_keeps_title_and_message Scripted.service
           (Scripted.request "xyz" "low" "") (Scripted.start [] []));
    discriminate.
Defined.

(** * The text of a UUID *)

Section uuid_text.

Lemma xtob_digits_upto :
  forallb
    (λ n,
       match uuid.xtob (hex.digit (N.shiftr (N.of_nat n) 4))
               (hex.digit (N.land (N.of_nat n) 15)) with
       | Some b => (b =? N.of_nat n)%N
       | None => false
       end)
    (seq 0 256)
  = true.
Proof. vm_compute. reflexivity. Qed.

(** The two digits written for a byte are read back as the byte. *)
Lemma xtob_digits b :
  (b <? 256)%N = true →
  uuid.xtob (hex.digit (N.shiftr b 4)) (hex.digit (N.land b 15)) = Some b.
Proof.
  intros Hb%N.ltb_lt.
  pose proof xtob_digits_upto as H. rewrite forallb_forall in H.
  specialize (H (N.to_nat b)). rewrite N2Nat.id in H.
  destruct (uuid.xtob _ _) as [b'|].
  - f_equal. apply N.eqb_eq, H, in_seq. lia.
  - exfalso. enough (false = true) by done. apply H, in_seq. lia.
Qed.

(** [Parse] reads back the text [String] writes. *)
Lemma Parse_UUID_String u :
  is_uuid u = true → uuid.Parse (UUID_String u) = Ok u.
Proof.
  intros [Hlen Hbytes]%andb_true_iff. apply Nat.eqb_eq in Hlen.
  do 16 (destruct u as [|? u]; [discriminate Hlen|]).
  destruct u; [|discriminate Hlen].
  clear Hlen. simpl in Hbytes.
  repeat (apply andb_true_iff in Hbytes as [?%xtob_digits Hbytes]).
  unfold UUID_String, uuid.Parse. simpl take. simpl drop. simpl hex.Encode.
  simpl String.length. simpl Nat.eqb. cbv iota.
  unfold uuid.parse_hyphenated, uuid.is_dash. simpl String.get.
  cbv beta iota. change (Ascii.eqb "-" "-") with true. simpl andb. cbv iota.
  unfold uuid.decode. simpl String.get. cbv beta iota.
  repeat match goal with H : uuid.xtob _ _ = Some _ |- _ => rewrite H; clear H end.
  reflexivity.
Qed.

Lemma valid_UUID_String u : is_uuid u = true → valid_uuid (UUID_String u) = true.
Proof. intros H. unfold valid_uuid. by rewrite Parse_UUID_String. Qed.

End uuid_text.

(** * The notifications of maintenance requests and payments *)

Section entity_notifications.
Context `{C : Collaborators} `{F : Float64}.

(** Dropping the response changes neither the calls nor the error. *)
Lemma error_only_run (m : M (result error NotificationResponse.t)) st :
  emitted (r <- m ;;
           match r with
           | Ok _ => ret None
           | Err err => ret (Some err)
           end) st
  = emitted m st ∧
  returned (r <- m ;;
            match r with
            | Ok _ => ret None
            | Err err => ret (Some err)
            end) st
  = match returned m st with
    | Returns (Ok _) => Returns None
    | Returns (Err err) => Returns (Some err)
    | Panics p => Panics p
    end.
Proof.
  unfold emitted, returned, bind, ret.
  by destruct (m st) as [[[resp|err]|p] st'].
Qed.

Lemma error_only_of_runs (m : M (result error NotificationResponse.t))
    st r cs w :
  runs m st r cs w →
  emitted (r <- m ;;
           match r with
           | Ok _ => ret None
           | Err err => ret (Some err)
           end) st
  = cs ∧
  returned (r <- m ;;
            match r with
            | Ok _ => ret None
            | Err err => ret (Some err)
            end) st
  = Returns (match r with Ok _ => None | Err err => Some err end).
Proof.
  intros Hrun. apply runs_emitted with (w := w).
  eapply runs_bind_last; [exact Hrun|]. destruct r; apply runs_ret_at.
Qed.

(** X4. A maintenance request is notified by email; the SMS follows only at
    priority "urgent" with a phone number, and so at no priority the
    maintenance requests themselves use ("low", "medium", "high",
    "emergency"): the type "maintenance_request" is not a critical one.  The
    identifiers come from UUIDs, so that nothing panics. *)
Theorem SendMaintenanceNotification_routes
    s maintenanceReq recipientType recipientEmail recipientPhone st :
  is_uuid (MaintenanceRequest.LandlordID maintenanceReq) = true →
  is_uuid (MaintenanceRequest.TenantID maintenanceReq) = true →
  ∃ input err sms,
    emitted
      (SendMaintenanceNotification s maintenanceReq recipientType
         recipientEmail recipientPhone) st
    = CallSendEmail input err :: sms ∧
    match err with
    | Some _ =>
        sms = [] ∧
        ∃ msg,
          returned
            (SendMaintenanceNotification s maintenanceReq recipientType
               recipientEmail recipientPhone) st
          = Returns (Some msg)
    | None =>
        returned
          (SendMaintenanceNotification s maintenanceReq recipientType
             recipientEmail recipientPhone) st
        = Returns None ∧
        if bool_decide (MaintenanceRequest.Priority maintenanceReq = "urgent")
           && bool_decide (recipientPhone ≠ "")
        then ∃ sinput serr,
               sms = [CallPublish sinput serr] ∧
               sns.PhoneNumber sinput = recipientPhone
        else sms = []
    end.
Proof.
  intros HL%valid_UUID_String HT%valid_UUID_String.
  unfold SendMaintenanceNotification.
  set (req := {| NotificationRequest.Type_ := "maintenance_request" |}).
  destruct (error_only_run (SendNotification s req) st) as [-> ->].
  destruct (SendNotification_dispatched s req st HL HT)
    as (input & err & sms & Hem & Hres).
  exists input, err, sms. split; [done|].
  destruct err as [e|].
  - destruct Hres as [-> [msg ->]]. eauto.
  - destruct Hres as [Hsms (resp & -> & _)]. split; [done|].
    simpl in Hsms.
    destruct (decide (MaintenanceRequest.Priority maintenanceReq = "urgent"))
      as [Hu|Hu].
    + by rewrite (bool_decide_eq_true_2 _ Hu).
    + rewrite (bool_decide_eq_false_2 _ Hu). simpl.
      destruct (decide (MaintenanceRequest.Priority maintenanceReq = "high"));
        [|done].
      by rewrite andb_false_r in Hsms.
Qed.

(** X5. A payment is notified by one email, addressed to the given recipient
    from the configured sender, and by no SMS, whatever the phone number;
    the error returned is the one of the email transport behind the two
    prefixes.  The email is the payment reminder, in which the amount, the
    due date and the property are the placeholders of the template. *)
Theorem SendPaymentNotification_email_only
    s (payment : Payment.t) recipientType recipientEmail recipientPhone st :
  is_uuid (Payment.LandlordID payment) = true →
  is_uuid (Payment.TenantID payment) = true →
  ∃ input err,
    emitted
      (SendPaymentNotification s payment recipientType recipientEmail
         recipientPhone) st
    = [CallSendEmail input err] ∧
    returned
      (SendPaymentNotification s payment recipientType recipientEmail
         recipientPhone) st
    = Returns
        (match err with
         | Some e =>
             Some ("failed to send notification: failed to send email: " +:+ e)
         | None => None
         end) ∧
    ses.Source input = AWS_SES_FromEmail (config s) ∧
    ses.ToAddresses input = [recipientEmail] ∧
    ses.Data (ses.Subject input) = "Payment Due Reminder" ∧
    Forall
      (λ k, Str.Contains (ses.Data (ses.Html input)) (placeholder k) = true ∧
            Str.Contains (ses.Data (ses.Text input)) (placeholder k) = true)
      ["amount"; "due_date"; "property_name"].
Proof.
  intros HL%valid_UUID_String HT%valid_UUID_String.
  unfold SendPaymentNotification.
  set (req := {| NotificationRequest.Type_ := "payment_due" |}).
  rewrite (SendNotification_valid s req HL HT).
  destruct (sendEmailNotification_runs s req st)
    as (tpl & o1 & o2 & o3 & err & w & r & [w0 Hg] & Hp1 & Hp2 & Hp3
        & Hrun & Hr).
  destruct (getEmailTemplate_runs "payment_due" req st)
    as (tpl' & w0' & d & t & Hg' & Hvars & Htexts).
  destruct (runs_inj _ _ _ _ _ _ _ _ Hg Hg') as (<- & _ & _).
  rewrite decide_False, decide_True in Htexts by done.
  injection Htexts as Hsubject Hhtml Htext.
  rewrite Hsubject, Hhtml, Htext in Hrun. clear Hsubject Hhtml Htext.
  apply wrap_runs, error_only_of_runs in Hrun as [Hem Hret].
  eexists _, err. split; [exact Hem|]. split; [|simpl].
  { etrans; [exact Hret|]. f_equal.
    destruct err as [e|]; [by rewrite Hr|by destruct Hr as (id & now & ->)]. }
  assert (∀ o k,
    o ≡ₚ map_to_list (EmailTemplate.Variables tpl) →
    k ∈ ["amount"; "due_date"; "property_name"] →
    Str.bracefree k = true ∧
    forallb (λ kv, Str.bracefree kv.1) o = true ∧ k ∉ o.*1) as Hkeys.
  { intros o k Hp Hk.
    assert (k = "amount" ∨ k = "due_date" ∨ k = "property_name") as Hk2.
    { rewrite !elem_of_cons, elem_of_nil in Hk. tauto. }
    split_and!.
    - by destruct Hk2 as [->|[->| ->]].
    - apply forallb_forall. intros [k' v] Hin.
      assert (k' ∈ o.*1) as Hk'.
      { apply list_elem_of_fmap. exists (k', v). split; [done|].
        by apply list_elem_of_In. }
      rewrite (keys_of_order _ _ _ Hp), Hvars, email_variables_keys in Hk'.
      rewrite !elem_of_cons, elem_of_nil in Hk'.
      by destruct Hk' as [->|[->|[->|[->|[]]]]].
    - rewrite (keys_of_order _ _ _ Hp), Hvars, email_variables_keys.
      rewrite !elem_of_cons, elem_of_nil.
      destruct Hk2 as [->|[->| ->]]; intuition discriminate. }
  split_and!; [done|done| |].
  - by apply replaceVariables_over_no_token.
  - apply Forall_forall. intros k Hk.
    assert (k = "amount" ∨ k = "due_date" ∨ k = "property_name") as Hk2.
    { rewrite !elem_of_cons, elem_of_nil in Hk. tauto. }
    split.
    + destruct (Hkeys o2 k Hp2 Hk) as (? & ? & ?).
      apply Contains_kept; [done..|].
      destruct Hk2 as [->|[->| ->]]; vm_compute; reflexivity.
    + destruct (Hkeys o3 k Hp3 Hk) as (? & ? & ?).
      apply Contains_kept; [done..|].
      destruct Hk2 as [->|[->| ->]]; vm_compute; reflexivity.
Qed.

(** X6. The amount of the payment is written into the message of the request
    and goes no further: two payments of the same landlord and tenant give
    the same calls, the same result and the same state, whatever their
    amounts. *)
Theorem payment_amount_is_not_sent
    s (payment payment' : Payment.t) recipientType recipientEmail
    recipientPhone st :
  Payment.LandlordID payment = Payment.LandlordID payment' →
  Payment.TenantID payment = Payment.TenantID payment' →
  SendPaymentNotification s payment recipientType recipientEmail
    recipientPhone st
  = SendPaymentNotification s payment' recipientType recipientEmail
      recipientPhone st.
Proof.
  intros HL HT. unfold SendPaymentNotification, SendNotification. simpl.
  by rewrite HL, HT.
Qed.

(** X7. The title, the description and the identifier of a maintenance request
    are not sent: two requests of the same landlord and tenant at the same
    priority give the same calls, the same result and the same state. *)
Theorem maintenance_title_is_not_sent
    s (maintenanceReq maintenanceReq' : MaintenanceRequest.t) recipientType
    recipientEmail recipientPhone st :
  MaintenanceRequest.LandlordID maintenanceReq
  = MaintenanceRequest.LandlordID maintenanceReq' →
  MaintenanceRequest.TenantID maintenanceReq
  = MaintenanceRequest.TenantID maintenanceReq' →
  MaintenanceRequest.Priority maintenanceReq
  = MaintenanceRequest.Priority maintenanceReq' →
  SendMaintenanceNotification s maintenanceReq recipientType recipientEmail
    recipientPhone st
  = SendMaintenanceNotification s maintenanceReq' recipientType
      recipientEmail recipientPhone st.
Proof.
  intros HL HT HP. unfold SendMaintenanceNotification, SendNotification.
  simpl. by rewrite HL, HT, HP.
Qed.

(** X8. [uuid.MustParse] reads back the text [String] writes for a UUID, and
    so does not panic on it. *)
Theorem MustParse_reads_String u st :
  is_uuid u = true → MustParse (UUID_String u) st = (Returns u, st).
Proof.
  intros Hu. unfold MustParse. by rewrite Parse_UUID_String.
Qed.

End entity_notifications.

(** A maintenance request at priority "emergency", with a phone number. *)
Lemma SendMaintenanceNotification_routes_witness :
  ∃ input err sms,
    emitted
      (SendMaintenanceNotification Scripted.service
         (Sample.maintenance "emergency") "landlord" "a@b.com" "+15551234567")
      (Scripted.start [] [])
    = CallSendEmail input err :: sms ∧
    match err with
    | Some _ =>
        sms = [] ∧
        ∃ msg,
          returned
            (SendMaintenanceNotification Scripted.service
               (Sample.maintenance "emergency") "landlord" "a@b.com"
               "+15551234567")
            (Scripted.start [] [])
          = Returns (Some msg)
    | None =>
        returned
          (SendMaintenanceNotification Scripted.service
             (Sample.maintenance "emergency") "landlord" "a@b.com"
             "+15551234567")
          (Scripted.start [] [])
        = Returns None ∧
        if bool_decide
             (MaintenanceRequest.Priority (Sample.maintenance "emergency")
              = "urgent")
           && bool_decide ("+15551234567" ≠ "")
        then
          ∃ sinput serr,
            sms = [CallPublish sinput serr] ∧
            sns.PhoneNumber sinput = "+15551234567"
        else sms = []
    end.
Proof.
  apply (SendMaintenanceNotification_routes Scripted.service
           (Sample.maintenance "emergency") "landlord" "a@b.com"
           "+15551234567" (Scripted.start [] []));
    reflexivity.
Defined.

(** A payment, the email transport refusing the email. *)
Lemma SendPaymentNotification_email_only_witness :
  ∃ input err,
    emitted
      (SendPaymentNotification Scripted.service
         (Sample.payment (true : @float64 Sample.money)) "tenant" "a@b.com"
         "+15551234567")
      (Scripted.start [Some "MessageRejected"] [])
    = [CallSendEmail input err] ∧
    returned
      (SendPaymentNotification Scripted.service
         (Sample.payment (true : @float64 Sample.money)) "tenant" "a@b.com"
         "+15551234567")
      (Scripted.start [Some "MessageRejected"] [])
    = Returns
        (match err with
         | Some e =>
             Some ("failed to send notification: failed to send email: " +:+ e)
         | None => None
         end) ∧
    ses.Source input = "noreply@dwell.example" ∧
    ses.ToAddresses input = ["a@b.com"] ∧
    ses.Data (ses.Subject input) = "Payment Due Reminder" ∧
    Forall
      (λ k, Str.Contains (ses.Data (ses.Html input)) (placeholder k) = true ∧
            Str.Contains (ses.Data (ses.Text input)) (placeholder k) = true)
      ["amount"; "due_date"; "property_name"].
Proof.
  apply (SendPaymentNotification_email_only Scripted.service
           (Sample.payment (true : @float64 Sample.money)) "tenant" "a@b.com"
           "+15551234567" (Scripted.start [Some "MessageRejected"] []));
    reflexivity.
Defined.

(** Two payments of 1200.00 and of 950.50. *)
Lemma payment_amount_is_not_sent_witness :
  SendPaymentNotification Scripted.service
    (Sample.payment (true : @float64 Sample.money)) "tenant" "a@b.com" ""
    (Scripted.start [] [])
  = SendPaymentNotification Scripted.service
      (Sample.payment (false : @float64 Sample.money)) "tenant" "a@b.com" ""
      (Scripted.start [] []).
Proof.
  apply (payment_amount_is_not_sent Scripted.service
           (Sample.payment (true : @float64 Sample.money))
           (Sample.payment (false : @float64 Sample.money)));
    reflexivity.
Defined.

(** Two maintenance requests that differ in the title and the
    description. *)
Lemma maintenance_title_is_not_sent_witness :
  SendMaintenanceNotification Scripted.service (Sample.maintenance "high")
    "landlord" "a@b.com" "" (Scripted.start [] [])
  = SendMaintenanceNotification Scripted.service
      {| MaintenanceRequest.ID := Sample.id 7;
         MaintenanceRequest.LandlordID := Sample.id 0;
         MaintenanceRequest.TenantID := Sample.id 1;
         MaintenanceRequest.Title := "No heating";
         MaintenanceRequest.Description := "The boiler does not start";
         MaintenanceRequest.Priority := "high" |}
      "landlord" "a@b.com" "" (Scripted.start [] []).
Proof.
  apply (maintenance_title_is_not_sent Scripted.service
           (Sample.maintenance "high")); reflexivity.
Defined.

(** The UUID 123e4567-e89b-12d3-a456-426614174000. *)
Lemma MustParse_reads_String_witness :
  MustParse (UUID_String (Sample.id 0)) (Scripted.start [] [])
  = (Returns (Sample.id 0), Scripted.start [] []).
Proof.
  apply (MustParse_reads_String (Sample.id 0) (Scripted.start [] [])).
  reflexivity.
Defined.

(** * What is sent, and to whom *)

Section absent.
Import StrFacts.

(** A text that does not contain [old] is left as it is. *)
Lemma ReplaceAll_go_absent old new s :
  Str.Contains s old = false → ReplaceAll_go old new 0 s = s.
Proof.
  induction s as [|c s IH]; [done|].
  rewrite Contains_cons. intros [H1 H2]%orb_false_iff.
  by rewrite ReplaceAll_go_nomatch, IH.
Qed.

Lemma ReplaceAll_absent s old new :
  Str.Contains s old = false → ReplaceAll s old new = s.
Proof.
  intros H. unfold ReplaceAll. destruct old; [done|].
  by apply ReplaceAll_go_absent.
Qed.

Lemma replaceVariables_over_absent order t :
  Forall (λ kv, Str.Contains t (placeholder kv.1) = false) order →
  replaceVariables_over order t = t.
Proof.
  induction 1 as [|[k v] order Hk _ IH]; [done|].
  by rewrite replaceVariables_over_cons, ReplaceAll_absent.
Qed.

End absent.

Section traces.
Context `{C : Collaborators}.

(** The text of an SMS is the template's: the only variable of an SMS
    template is the recipient's name, which no SMS template mentions. *)
Lemma sms_text_verbatim ty req order :
  order ≡ₚ map_to_list (SMSTemplate.Variables (getSMSTemplate ty req)) →
  replaceVariables_over order (SMSTemplate.Message (getSMSTemplate ty req))
  = SMSTemplate.Message (getSMSTemplate ty req).
Proof.
  intros Hp. apply replaceVariables_over_absent.
  assert (SMSTemplate.Variables (getSMSTemplate ty req)
          = {[ "recipient_name" := NotificationRequest.RecipientType req ]})
    as Hv.
  { unfold getSMSTemplate. by repeat case_decide. }
  rewrite Hv, map_to_list_singleton in Hp.
  apply Permutation_singleton_r in Hp as ->.
  constructor; [|constructor]. simpl.
  unfold getSMSTemplate. repeat case_decide; vm_compute; reflexivity.
Qed.

(** The email, then the SMS when [cond] holds: the calls with their inputs,
    and the result. *)
Lemma email_then_sms_trace s req st (cond : bool) (wrap : string) :
  (cond = true → NotificationRequest.RecipientPhone req ≠ "") →
  ∃ tpl o1 o2 o3 err sms w r,
    (∃ w0, runs (getEmailTemplate (NotificationRequest.Type_ req) req) st
             tpl [] w0) ∧
    o1 ≡ₚ map_to_list (EmailTemplate.Variables tpl) ∧
    o2 ≡ₚ map_to_list (EmailTemplate.Variables tpl) ∧
    o3 ≡ₚ map_to_list (EmailTemplate.Variables tpl) ∧
    runs (r <- sendEmailNotification s req ;;
          match r with
          | Err err => ret (Err (wrap +:+ err))
          | Ok emailResp =>
              (if cond then _ <- sendSMSNotification req ;; ret tt
               else ret tt) ;;;
              ret (Ok emailResp)
          end) st r
      (CallSendEmail
         {| ses.Source := AWS_SES_FromEmail (config s);
            ses.ToAddresses := [NotificationRequest.RecipientEmail req];
            ses.Subject :=
              utf8 (replaceVariables_over o1 (EmailTemplate.Subject tpl));
            ses.Html :=
              utf8 (replaceVariables_over o2 (EmailTemplate.HTMLBody tpl));
            ses.Text :=
              utf8 (replaceVariables_over o3 (EmailTemplate.TextBody tpl)) |}
         err :: sms) w ∧
    match err with
    | Some e => r = Err (wrap +:+ "failed to send email: " +:+ e) ∧ sms = []
    | None =>
        (∃ id now,
           r = Ok {| NotificationResponse.NotificationID := id;
                     NotificationResponse.Status := "sent";
                     NotificationResponse.SentAt := now;
                     NotificationResponse.Channel := "email" |}) ∧
        if cond then
          ∃ serr,
            sms =
              [CallPublish
                 {| sns.Message :=
                      SMSTemplate.Message
                        (getSMSTemplate (NotificationRequest.Type_ req) req);
                    sns.PhoneNumber := NotificationRequest.RecipientPhone req;
                    sns.MessageAttributes :=
                      {[ "AWS.SNS.SMS.SMSType" := ("String", "Transactional") ]}
                 |} serr]
        else sms = []
    end.
Proof.
  intros Hcond.
  destruct (sendEmailNotification_runs s req st)
    as (tpl & o1 & o2 & o3 & err & w0 & r0 & Hg & Hp1 & Hp2 & Hp3 & Hrun & Hr0).
  set (input := {| ses.Source := _ |}) in *.
  set (st0 := {| world := w0; calls := calls st ++ [CallSendEmail input err] |}).
  exists tpl, o1, o2, o3, err.
  destruct err as [e|].
  - subst r0. exists [], w0, (Err (wrap +:+ "failed to send email: " +:+ e)).
    split_and!; try done.
    eapply runs_bind_last; [exact Hrun|]. apply (runs_ret _ st0).
  - destruct Hr0 as (id & now & ->).
    destruct cond.
    + destruct (sendSMSNotification_runs req st0 (Hcond eq_refl))
        as (o & serr & w1 & r1 & Hpo & Hsms & _).
      rewrite (sms_text_verbatim _ _ _ Hpo) in Hsms.
      eexists [_], w1, (Ok _). split_and!; try done.
      * eapply (runs_bind _ _ _ _ [_] _ _ [_]); [exact Hrun|].
        eapply runs_bind_last; [|apply runs_ret_at].
        eapply runs_bind_last; [exact Hsms|apply runs_ret_at].
      * by eexists _, _.
      * by exists serr.
    + eexists [], w0, (Ok _). split_and!; try done.
      * eapply runs_bind_last; [exact Hrun|].
        eapply runs_bind_nil; [apply (runs_ret _ st0)|]. apply runs_ret_at.
      * by eexists _, _.
Qed.

(** A run of [SendNotification] when the identifiers parse: the calls with
    their inputs, and the result. *)
Lemma SendNotification_trace s req st :
  valid_uuid (NotificationRequest.LandlordID req) = true →
  valid_uuid (NotificationRequest.RecipientID req) = true →
  ∃ tpl o1 o2 o3 err sms w r,
    (∃ w0, runs (getEmailTemplate (NotificationRequest.Type_ req) req) st
             tpl [] w0) ∧
    o1 ≡ₚ map_to_list (EmailTemplate.Variables tpl) ∧
    o2 ≡ₚ map_to_list (EmailTemplate.Variables tpl) ∧
    o3 ≡ₚ map_to_list (EmailTemplate.Variables tpl) ∧
    runs (SendNotification s req) st r
      (CallSendEmail
         {| ses.Source := AWS_SES_FromEmail (config s);
            ses.ToAddresses := [NotificationRequest.RecipientEmail req];
            ses.Subject :=
              utf8 (replaceVariables_over o1 (EmailTemplate.Subject tpl));
            ses.Html :=
              utf8 (replaceVariables_over o2 (EmailTemplate.HTMLBody tpl));
            ses.Text :=
              utf8 (replaceVariables_over o3 (EmailTemplate.TextBody tpl)) |}
         err :: sms) w ∧
    match err with
    | Some e =>
        r = Err ("failed to send notification: "
                 +:+ (if decide (NotificationRequest.Priority req = "urgent")
                      then "failed to send urgent email: "
                      else if decide (NotificationRequest.Priority req = "high")
                      then "failed to send high priority email: "
                      else "")
                 +:+ "failed to send email: " +:+ e) ∧
        sms = []
    | None =>
        (∃ id now,
           r = Ok {| NotificationResponse.NotificationID := id;
                     NotificationResponse.Status := "sent";
                     NotificationResponse.SentAt := now;
                     NotificationResponse.Channel := "email" |}) ∧
        if (if decide (NotificationRequest.Priority req = "urgent") then
              bool_decide (NotificationRequest.RecipientPhone req ≠ "")
            else if decide (NotificationRequest.Priority req = "high") then
              bool_decide (NotificationRequest.RecipientPhone req ≠ "")
              && isCriticalNotificationType (NotificationRequest.Type_ req)
            else false)
        then
          ∃ serr,
            sms =
              [CallPublish
                 {| sns.Message :=
                      SMSTemplate.Message
                        (getSMSTemplate (NotificationRequest.Type_ req) req);
                    sns.PhoneNumber := NotificationRequest.RecipientPhone req;
                    sns.MessageAttributes :=
                      {[ "AWS.SNS.SMS.SMSType" := ("String", "Transactional") ]}
                 |} serr]
        else sms = []
    end.
Proof.
  intros HL HR. rewrite SendNotification_valid by done.
  destruct (decide (NotificationRequest.Priority req = "urgent")) as [Hu|Hu];
    [|destruct (decide (NotificationRequest.Priority req = "high")) as [Hh|Hh]].
  - destruct (email_then_sms_trace s req st
                (bool_decide (NotificationRequest.RecipientPhone req ≠ ""))
                "failed to send urgent email: ")
      as (tpl & o1 & o2 & o3 & err & sms & w & r & Hg & Hp1 & Hp2 & Hp3
          & Hrun & Hres).
    { by intros ?%bool_decide_eq_true. }
    apply wrap_runs in Hrun.
    eexists tpl, o1, o2, o3, err, sms, w, _.
    split_and!; [done..|exact Hrun|].
    destruct err as [e|].
    + destruct Hres as [-> ->]. split; [|done].
      by rewrite <-!StrFacts.app_assoc.
    + destruct Hres as [(id & now & ->) Hsms]. split; [by eexists _, _|done].
  - destruct (email_then_sms_trace s req st
                (bool_decide (NotificationRequest.RecipientPhone req ≠ "")
                 && isCriticalNotificationType (NotificationRequest.Type_ req))
                "failed to send high priority email: ")
      as (tpl & o1 & o2 & o3 & err & sms & w & r & Hg & Hp1 & Hp2 & Hp3
          & Hrun & Hres).
    { by intros [?%bool_decide_eq_true _]%andb_true_iff. }
    apply wrap_runs in Hrun.
    eexists tpl, o1, o2, o3, err, sms, w, _.
    split_and!; [done..|exact Hrun|].
    destruct err as [e|].
    + destruct Hres as [-> ->]. split; [|done].
      by rewrite <-!StrFacts.app_assoc.
    + destruct Hres as [(id & now & ->) Hsms]. split; [by eexists _, _|done].
  - destruct (sendEmailNotification_runs s req st)
      as (tpl & o1 & o2 & o3 & err & w & r & Hg & Hp1 & Hp2 & Hp3 & Hrun & Hr).
    apply wrap_runs in Hrun.
    eexists tpl, o1, o2, o3, err, [], w, _.
    split_and!; [done..|exact Hrun|].
    destruct err as [e|].
    + by subst r.
    + destruct Hr as (id & now & ->). split; [by eexists _, _|done].
Qed.

End traces.

Section sending.
Context `{C : Collaborators}.

(** X9. When the identifiers parse, [SendNotification] returns an error exactly
    when the email transport failed, which then was the only call; the
    message is the transport's error behind the prefixes of the functions it
    went through.  A failure of the SMS transport is never reported. *)
Theorem send_error_is_the_email_error s req st msg :
  valid_uuid (NotificationRequest.LandlordID req) = true →
  valid_uuid (NotificationRequest.RecipientID req) = true →
  returned (SendNotification s req) st = Returns (Err msg) ↔
  ∃ input e,
    emitted (SendNotification s req) st = [CallSendEmail input (Some e)] ∧
    msg = "failed to send notification: "
          +:+ (if decide (NotificationRequest.Priority req = "urgent")
               then "failed to send urgent email: "
               else if decide (NotificationRequest.Priority req = "high")
               then "failed to send high priority email: "
               else "")
          +:+ "failed to send email: " +:+ e.
Proof.
  intros HL HR.
  destruct (SendNotification_trace s req st HL HR)
    as (tpl & o1 & o2 & o3 & err & sms & w & r & _ & _ & _ & _ & Hrun & Hres).
  apply runs_emitted in Hrun as [Hem Hret]. rewrite Hem, Hret.
  destruct err as [e|].
  - destruct Hres as [-> ->]. split.
    + intros [= <-]. by eexists _, e.
    + intros (input & e' & [= _ <-] & ->). done.
  - destruct Hres as [(id & now & ->) _]. split; [done|].
    by intros (input & e' & [= _ ?] & _).
Qed.

(** X10. When the identifiers parse, every call [SendNotification] makes goes
    to the recipient of the request: an email is sent from the configured
    address to [RecipientEmail] alone, its three parts in UTF-8; an SMS is
    published to [RecipientPhone], which is then not empty, as a
    transactional message. *)
Theorem calls_reach_the_recipient s req st :
  valid_uuid (NotificationRequest.LandlordID req) = true →
  valid_uuid (NotificationRequest.RecipientID req) = true →
  Forall
    (λ c,
       match c with
       | CallSendEmail input _ =>
           ses.Source input = AWS_SES_FromEmail (config s) ∧
           ses.ToAddresses input = [NotificationRequest.RecipientEmail req] ∧
           ses.Charset (ses.Subject input) = "UTF-8" ∧
           ses.Charset (ses.Html input) = "UTF-8" ∧
           ses.Charset (ses.Text input) = "UTF-8"
       | CallPublish input _ =>
           sns.PhoneNumber input = NotificationRequest.RecipientPhone req ∧
           NotificationRequest.RecipientPhone req ≠ "" ∧
           sns.MessageAttributes input
           = {[ "AWS.SNS.SMS.SMSType" := ("String", "Transactional") ]}
       end)
    (emitted (SendNotification s req) st).
Proof.
  intros HL HR.
  destruct (SendNotification_trace s req st HL HR)
    as (tpl & o1 & o2 & o3 & err & sms & w & r & _ & _ & _ & _ & Hrun & Hres).
  apply runs_emitted in Hrun as [-> _].
  constructor; [done|].
  destruct err as [e|]; [destruct Hres as [_ ->]; constructor|].
  destruct Hres as [_ Hsms].
  destruct (decide (NotificationRequest.Priority req = "urgent"));
    [|destruct (decide (NotificationRequest.Priority req = "high"))];
    cbv iota in Hsms.
  - destruct (bool_decide _) eqn:Hphone; cbv iota in Hsms;
      [|subst sms; constructor].
    apply bool_decide_eq_true in Hphone.
    destruct Hsms as [serr ->]. by repeat constructor.
  - destruct (bool_decide _) eqn:Hphone; simpl in Hsms;
      [|subst sms; constructor].
    apply bool_decide_eq_true in Hphone.
    destruct (isCriticalNotificationType _); [|subst sms; constructor].
    destruct Hsms as [serr ->]. by repeat constructor.
  - subst sms. constructor.
Qed.

(** X11. When the identifiers parse, the text of every SMS [SendNotification]
    publishes is the text of the template of the type as it stands, its
    placeholders included: nothing of the request is written into it. *)
Theorem sms_text_is_the_template s req st input err :
  valid_uuid (NotificationRequest.LandlordID req) = true →
  valid_uuid (NotificationRequest.RecipientID req) = true →
  CallPublish input err ∈ emitted (SendNotification s req) st →
  sns.Message input
  = if decide (NotificationRequest.Type_ req = "maintenance_emergency") then
      "URGENT: Emergency maintenance request at {{property_name}}. Please respond immediately."
    else if decide (NotificationRequest.Type_ req = "payment_overdue") then
      "Payment overdue: ${{amount}} due for {{property_name}}. Please contact us immediately."
    else "{{title}}: {{message}}".
Proof.
  intros HL HR.
  destruct (SendNotification_trace s req st HL HR)
    as (tpl & o1 & o2 & o3 & err' & sms & w & r & _ & _ & _ & _ & Hrun & Hres).
  apply runs_emitted in Hrun as [-> _].
  intros [[=]|Hin]%elem_of_cons.
  assert (∃ serr,
    sms = [CallPublish
             {| sns.Message :=
                  SMSTemplate.Message
                    (getSMSTemplate (NotificationRequest.Type_ req) req);
                sns.PhoneNumber := NotificationRequest.RecipientPhone req;
                sns.MessageAttributes :=
                  {[ "AWS.SNS.SMS.SMSType" := ("String", "Transactional") ]}
             |} serr]) as [serr ->].
  { destruct err' as [e|].
    - destruct Hres as [_ ->]. by apply elem_of_nil in Hin.
    - destruct Hres as [_ Hsms].
      destruct (if decide (NotificationRequest.Priority req = "urgent")
                then _ else _); [done|].
      subst sms. by apply elem_of_nil in Hin. }
  apply list_elem_of_singleton in Hin as [= -> _].
  unfold getSMSTemplate. by repeat case_decide.
Qed.

(** X12. [sendSMSNotification] on its own.  Without a phone number it returns
    its error and calls nothing; with one it publishes once, to that
    number, and returns the transport's error behind its prefix, or a
    response with status "sent" and channel "sms". *)
Theorem sendSMSNotification_outcome req st :
  if decide (NotificationRequest.RecipientPhone req = "") then
    sendSMSNotification req st
    = (Returns
         (Err "recipient phone number is required for SMS notifications"),
       st)
  else
    ∃ input err,
      emitted (sendSMSNotification req) st = [CallPublish input err] ∧
      sns.PhoneNumber input = NotificationRequest.RecipientPhone req ∧
      match err with
      | Some e =>
          returned (sendSMSNotification req) st
          = Returns (Err ("failed to send SMS: " +:+ e))
      | None =>
          ∃ resp,
            returned (sendSMSNotification req) st = Returns (Ok resp) ∧
            NotificationResponse.Status resp = "sent" ∧
            NotificationResponse.Channel resp = "sms"
      end.
Proof.
  destruct (decide (NotificationRequest.RecipientPhone req = "")) as [Hp|Hp].
  - unfold sendSMSNotification. by rewrite decide_True.
  - destruct (sendSMSNotification_runs req st Hp)
      as (o & err & w & r & _ & Hrun & Hr).
    apply runs_emitted in Hrun as [Hem Hret].
    eexists _, err. split_and!; [exact Hem|done|].
    destruct err as [e|]; [by subst r|].
    destruct Hr as (id & now & ->). by eexists.
Qed.

(** X13. The title, the message and the related entity of a request have no
    effect on what [SendNotification] does: two requests that agree on the
    type, the priority, the two identifiers and the recipient's type, email
    and phone number give the same calls, the same result and the same
    state. *)
Theorem title_and_message_are_not_sent s req req' st :
  NotificationRequest.Type_ req = NotificationRequest.Type_ req' →
  NotificationRequest.Priority req = NotificationRequest.Priority req' →
  NotificationRequest.LandlordID req = NotificationRequest.LandlordID req' →
  NotificationRequest.RecipientID req = NotificationRequest.RecipientID req' →
  NotificationRequest.RecipientType req
  = NotificationRequest.RecipientType req' →
  NotificationRequest.RecipientEmail req
  = NotificationRequest.RecipientEmail req' →
  NotificationRequest.RecipientPhone req
  = NotificationRequest.RecipientPhone req' →
  SendNotification s req st = SendNotification s req' st.
Proof.
  intros Hty Hpr HL HR Hrt Hre Hrp.
  unfold SendNotification, sendUrgentNotification,
    sendHighPriorityNotification, sendEmailNotification, sendSMSNotification,
    getEmailTemplate, getSMSTemplate.
  by rewrite Hty, Hpr, HL, HR, Hrt, Hre, Hrp.
Qed.

End sending.

Section batches.
Context `{C : Collaborators}.

Lemma SendNotification_counts s req st r cs w :
  valid_uuid (NotificationRequest.LandlordID req) = true →
  valid_uuid (NotificationRequest.RecipientID req) = true →
  runs (SendNotification s req) st r cs w →
  length (List.filter is_email_call cs) = 1 ∧
  length
    (List.filter (λ c, is_email_call c && negb (is_failed_email_call c)) cs)
  = match r with Ok _ => 1 | Err _ => 0 end.
Proof.
  intros HL HR Hrun.
  destruct (SendNotification_trace s req st HL HR)
    as (tpl & o1 & o2 & o3 & err & sms & w' & r' & _ & _ & _ & _ & Hrun'
        & Hres).
  destruct (runs_inj _ _ _ _ _ _ _ _ Hrun Hrun') as (-> & -> & ->).
  destruct err as [e|].
  - by destruct Hres as [-> ->].
  - destruct Hres as [(id & now & ->) Hsms].
    destruct (if decide (NotificationRequest.Priority req = "urgent")
              then _ else _).
    + by destruct Hsms as [serr ->].
    + by subst sms.
Qed.

Lemma processed_counts s requests st responses st' :
  Forall (λ req,
    valid_uuid (NotificationRequest.LandlordID req) = true ∧
    valid_uuid (NotificationRequest.RecipientID req) = true) requests →
  processed s requests st responses st' →
  ∃ cs,
    calls st' = calls st ++ cs ∧
    length (List.filter is_email_call cs) = length requests ∧
    length
      (List.filter (λ c, is_email_call c && negb (is_failed_email_call c)) cs)
    = length responses.
Proof.
  intros Hvalid Hproc. induction Hproc
    as [st|req rest st resp cs w responses st' Hrun _ IH
       |req rest st err cs w responses st' Hrun _ IH].
  - exists []. by rewrite app_nil_r.
  - apply Forall_cons in Hvalid as [[HL HR] Hvalid].
    destruct (IH Hvalid) as (cs' & Hcalls & Hn & Hm). simpl in Hcalls.
    destruct (SendNotification_counts _ _ _ _ _ _ HL HR Hrun) as [Hn1 Hm1].
    exists (cs ++ cs'). split; [by rewrite Hcalls, app_assoc|].
    rewrite !List.filter_app, !length_app, Hn, Hm, Hn1, Hm1. done.
  - apply Forall_cons in Hvalid as [[HL HR] Hvalid].
    destruct (IH Hvalid) as (cs' & Hcalls & Hn & Hm). simpl in Hcalls.
    destruct (SendNotification_counts _ _ _ _ _ _ HL HR Hrun) as [Hn1 Hm1].
    exists (cs ++ cs'). split; [by rewrite Hcalls, app_assoc|].
    rewrite !List.filter_app, !length_app, Hn, Hm, Hn1, Hm1. done.
Qed.

(** X14. When the identifiers of every request parse, [SendBulkNotifications]
    calls the email transport once for each request, and returns as many
    responses as emails were accepted. *)
Theorem bulk_sends_one_email_per_request s requests st :
  Forall (λ req,
    valid_uuid (NotificationRequest.LandlordID req) = true ∧
    valid_uuid (NotificationRequest.RecipientID req) = true) requests →
  ∃ responses,
    returned (SendBulkNotifications s requests) st
    = Returns (responses, None) ∧
    length
      (List.filter is_email_call
         (emitted (SendBulkNotifications s requests) st))
    = length requests ∧
    length
      (List.filter (λ c, is_email_call c && negb (is_failed_email_call c))
         (emitted (SendBulkNotifications s requests) st))
    = length responses.
Proof.
  intros Hvalid.
  destruct (SendBulkNotifications_loop_runs s requests Hvalid st [])
    as (resps & cs & w & Hproc & Hloop).
  destruct (processed_counts _ _ _ _ _ Hvalid Hproc) as (cs' & Hcalls & Hn & Hm).
  simpl in Hcalls. apply app_inv_head in Hcalls as <-.
  assert (runs (SendBulkNotifications s requests) st (resps, None) cs w)
    as Hrun.
  { unfold SendBulkNotifications.
    eapply runs_bind_last; [exact Hloop|apply runs_ret_at]. }
  apply runs_emitted in Hrun as [-> ->]. by exists resps.
Qed.

End batches.

(** A reminder at a priority that is neither "urgent" nor "high", with a
    phone number. *)
Lemma default_priority_email_only_witness :
  ∃ input err,
    emitted
      (SendNotification Scripted.service
         (Scripted.request "payment_overdue" "medium" "+15551234567"))
      (Scripted.start [] [])
    = [CallSendEmail input err].
Proof.
  apply (default_priority_email_only Scripted.service
           (Scripted.request "payment_overdue" "medium" "+15551234567")
           (Scripted.start [] []));
    [discriminate|discriminate|reflexivity|reflexivity].
Defined.

(** A rent reminder at "high" priority, with a phone number. *)
Lemma high_uncritical_email_only_witness :
  ∃ input err,
    emitted
      (SendNotification Scripted.service
         (Scripted.request "payment_due" "high" "+15551234567"))
      (Scripted.start [] [])
    = [CallSendEmail input err].
Proof.
  apply (high_uncritical_email_only Scripted.service
           (Scripted.request "payment_due" "high" "+15551234567")
           (Scripted.start [] []));
    reflexivity.
Defined.

(** A batch of two, the email of the first refused. *)
Lemma SendBulkNotifications_processes_witness :
  ∃ responses st',
    SendBulkNotifications Scripted.service
      [Scripted.request "payment_due" "low" "";
       Scripted.request "security_breach" "urgent" "+15551234567"]
      (Scripted.start [Some "MessageRejected"] [])
    = (Returns (responses, None), st') ∧
    processed Scripted.service
      [Scripted.request "payment_due" "low" "";
       Scripted.request "security_breach" "urgent" "+15551234567"]
      (Scripted.start [Some "MessageRejected"] []) responses st' ∧
    length responses ≤ 2.
Proof.
  apply (SendBulkNotifications_processes Scripted.service
           [Scripted.request "payment_due" "low" "";
            Scripted.request "security_breach" "urgent" "+15551234567"]
           (Scripted.start [Some "MessageRejected"] [])).
  repeat constructor.
Defined.

(** The same batch. *)
Lemma bulk_sends_one_email_per_request_witness :
  ∃ responses,
    returned
      (SendBulkNotifications Scripted.service
         [Scripted.request "payment_due" "low" "";
          Scripted.request "security_breach" "urgent" "+15551234567"])
      (Scripted.start [Some "MessageRejected"] [])
    = Returns (responses, None) ∧
    length
      (List.filter is_email_call
         (emitted
            (SendBulkNotifications Scripted.service
               [Scripted.request "payment_due" "low" "";
                Scripted.request "security_breach" "urgent" "+15551234567"])
            (Scripted.start [Some "MessageRejected"] [])))
    = 2 ∧
    length
      (List.filter (λ c, is_email_call c && negb (is_failed_email_call c))
         (emitted
            (SendBulkNotifications Scripted.service
               [Scripted.request "payment_due" "low" "";
                Scripted.request "security_breach" "urgent" "+15551234567"])
            (Scripted.start [Some "MessageRejected"] [])))
    = length responses.
Proof.
  apply (bulk_sends_one_email_per_request Scripted.service
           [Scripted.request "payment_due" "low" "";
            Scripted.request "security_breach" "urgent" "+15551234567"]
           (Scripted.start [Some "MessageRejected"] [])).
  repeat constructor.
Defined.

(** A lease violation at "high" priority whose email is refused. *)
Lemma send_error_is_the_email_error_witness :
  returned
    (SendNotification Scripted.service
       (Scripted.request "lease_violation" "high" "+15551234567"))
    (Scripted.start [Some "MessageRejected"] [])
  = Returns
      (Err "failed to send notification: failed to send high priority email: failed to send email: MessageRejected")
  ↔
  ∃ input e,
    emitted
      (SendNotification Scripted.service
         (Scripted.request "lease_violation" "high" "+15551234567"))
      (Scripted.start [Some "MessageRejected"] [])
    = [CallSendEmail input (Some e)] ∧
    "failed to send notification: failed to send high priority email: failed to send email: MessageRejected"
    = "failed to send notification: "
      +:+ (if decide
                (NotificationRequest.Priority
                   (Scripted.request "lease_violation" "high" "+15551234567")
                 = "urgent")
           then "failed to send urgent email: "
           else if decide
                     (NotificationRequest.Priority
                        (Scripted.request "lease_violation" "high"
                           "+15551234567")
                      = "high")
           then "failed to send high priority email: "
           else "")
      +:+ "failed to send email: " +:+ e.
Proof.
  apply (send_error_is_the_email_error Scripted.service
           (Scripted.request "lease_violation" "high" "+15551234567")
           (Scripted.start [Some "MessageRejected"] []));
    reflexivity.
Defined.

(** An urgent request with a phone number. *)
Lemma calls_reach_the_recipient_witness :
  Forall
    (λ c,
       match c with
       | CallSendEmail input _ =>
           ses.Source input = "noreply@dwell.example" ∧
           ses.ToAddresses input = ["a@b.com"] ∧
           ses.Charset (ses.Subject input) = "UTF-8" ∧
           ses.Charset (ses.Html input) = "UTF-8" ∧
           ses.Charset (ses.Text input) = "UTF-8"
       | CallPublish input _ =>
           sns.PhoneNumber input = "+15551234567" ∧
           "+15551234567" ≠ "" ∧
           sns.MessageAttributes input
           = {[ "AWS.SNS.SMS.SMSType" := ("String", "Transactional") ]}
       end)
    (emitted
       (SendNotification Scripted.service
          (Scripted.request "lease_violation" "urgent" "+15551234567"))
       (Scripted.start [] [])).
Proof.
  apply (calls_reach_the_recipient Scripted.service
           (Scripted.request "lease_violation" "urgent" "+15551234567")
           (Scripted.start [] []));
    reflexivity.
Defined.

(** An urgent lease violation: the SMS reads "{{title}}: {{message}}". *)
Lemma sms_text_is_the_template_witness :
  sns.Message
    {| sns.Message := "{{title}}: {{message}}";
       sns.PhoneNumber := "+15551234567";
       sns.MessageAttributes :=
         {[ "AWS.SNS.SMS.SMSType" := ("String", "Transactional") ]} |}
  = if decide
         (NotificationRequest.Type_
            (Scripted.request "lease_violation" "urgent" "+15551234567")
          = "maintenance_emergency")
    then
      "URGENT: Emergency maintenance request at {{property_name}}. Please respond immediately."
    else if decide
              (NotificationRequest.Type_
                 (Scripted.request "lease_violation" "urgent" "+15551234567")
               = "payment_overdue")
    then
      "Payment overdue: ${{amount}} due for {{property_name}}. Please contact us immediately."
    else "{{title}}: {{message}}".
Proof.
  apply (sms_text_is_the_template Scripted.service
           (Scripted.request "lease_violation" "urgent" "+15551234567")
           (Scripted.start [] []) _ None); [reflexivity|reflexivity|].
  vm_compute. apply list_elem_of_further, list_elem_of_here.
Defined.

(** Two requests that differ in the title and in the message. *)
Lemma title_and_message_are_not_sent_witness :
  SendNotification Scripted.service
    (Scripted.request "payment_due" "urgent" "+15551234567")
    (Scripted.start [] [])
  = SendNotification Scripted.service
      {| NotificationRequest.Type_ := "payment_due";
         NotificationRequest.Title := "Final notice";
         NotificationRequest.Message := "Your lease ends tomorrow";
         NotificationRequest.LandlordID :=
           "123e4567-e89b-12d3-a456-426614174000";
         NotificationRequest.RecipientID :=
           "123e4567-e89b-12d3-a456-426614174001";
         NotificationRequest.RecipientType := "tenant";
         NotificationRequest.RecipientEmail := "a@b.com";
         NotificationRequest.RecipientPhone := "+15551234567";
         NotificationRequest.RelatedEntityID := None;
         NotificationRequest.RelatedEntityType := "lease";
         NotificationRequest.Priority := "urgent" |}
      (Scripted.start [] []).
Proof.
  apply (title_and_message_are_not_sent Scripted.service
           (Scripted.request "payment_due" "urgent" "+15551234567"));
    reflexivity.
Defined.

Section malformed.
Context `{C : Collaborators}.

(** X15. A malformed identifier makes [SendNotification] panic at once, with
    the identifier and the error of its parsing, the state being left as it
    was: the landlord's identifier is parsed first, and the recipient's
    only when the landlord's parses. *)
Theorem panic_names_the_malformed_identifier s req st :
  match uuid.Parse (NotificationRequest.LandlordID req),
        uuid.Parse (NotificationRequest.RecipientID req) with
  | Err e, _ =>
      SendNotification s req st
      = (Panics (PanicUUIDParse (NotificationRequest.LandlordID req) e), st)
  | Ok _, Err e =>
      SendNotification s req st
      = (Panics (PanicUUIDParse (NotificationRequest.RecipientID req) e), st)
  | Ok _, Ok _ => ∃ r st', SendNotification s req st = (Returns r, st')
  end.
Proof.
  destruct (uuid.Parse (NotificationRequest.LandlordID req)) as [u1|e1] eqn:E1.
  - destruct (uuid.Parse (NotificationRequest.RecipientID req))
      as [u2|e2] eqn:E2.
    + destruct (SendNotification_returns s req st) as (r & cs & w & Hrun).
      * unfold valid_uuid. by rewrite E1.
      * unfold valid_uuid. by rewrite E2.
      * by eexists _, _.
    + unfold SendNotification, MustParse, bind. by rewrite E1, E2.
  - unfold SendNotification, MustParse, bind. by rewrite E1.
Qed.

Lemma SendBulkNotifications_loop_stops s good bad rest :
  Forall (λ req,
    valid_uuid (NotificationRequest.LandlordID req) = true ∧
    valid_uuid (NotificationRequest.RecipientID req) = true) good →
  valid_uuid (NotificationRequest.LandlordID bad) = false
  ∨ valid_uuid (NotificationRequest.RecipientID bad) = false →
  ∀ acc st,
    ∃ p,
      SendBulkNotifications_loop s (good ++ bad :: rest) acc st
      = (Panics p, (SendBulkNotifications_loop s good acc st).2).
Proof.
  intros Hgood Hbad. induction Hgood as [|g good [HL HR] _ IH]; intros acc st.
  - destruct (SendNotification_invalid s bad st Hbad) as [p Hp].
    exists p. simpl. unfold bind. by rewrite Hp.
  - destruct (SendNotification_returns s g st HL HR) as (r & cs & w & Hrun).
    simpl. unfold bind. rewrite Hrun.
    destruct r as [resp|err]; apply IH.
Qed.

(** X16. A batch stops at its first request with a malformed identifier:
    [SendBulkNotifications] makes the calls of the batch of the requests
    before it, leaves the state that batch leaves, and panics; the requests
    after it are not sent and no response is returned. *)
Theorem bulk_stops_at_the_first_malformed_request s good bad rest st :
  Forall (λ req,
    valid_uuid (NotificationRequest.LandlordID req) = true ∧
    valid_uuid (NotificationRequest.RecipientID req) = true) good →
  valid_uuid (NotificationRequest.LandlordID bad) = false
  ∨ valid_uuid (NotificationRequest.RecipientID bad) = false →
  (∃ p,
     returned (SendBulkNotifications s (good ++ bad :: rest)) st = Panics p) ∧
  emitted (SendBulkNotifications s (good ++ bad :: rest)) st
  = emitted (SendBulkNotifications s good) st ∧
  (SendBulkNotifications s (good ++ bad :: rest) st).2
  = (SendBulkNotifications s good st).2.
Proof.
  intros Hgood Hbad.
  destruct (SendBulkNotifications_loop_stops s good bad rest Hgood Hbad [] st)
    as [p Hp].
  destruct (SendBulkNotifications_loop_runs s good Hgood st [])
    as (resps & cs & w & _ & Hloop).
  assert ((SendBulkNotifications s (good ++ bad :: rest) st).2
          = (SendBulkNotifications s good st).2) as Hst.
  { unfold SendBulkNotifications, bind. rewrite Hp.
    unfold runs in Hloop. by rewrite Hloop. }
  split_and!; [|by unfold emitted; rewrite Hst|done].
  exists p. unfold returned, SendBulkNotifications, bind. by rewrite Hp.
Qed.

End malformed.

(** A batch of three whose second request has a landlord identifier that is
    not a UUID. *)
Lemma bulk_stops_at_the_first_malformed_request_witness :
  (∃ p,
     returned
       (SendBulkNotifications Scripted.service
          ([Scripted.request "payment_due" "low" ""]
           ++ Scripted.malformed_request "payment_due" "low" ""
              :: [Scripted.request "security_breach" "urgent" "+15551234567"]))
       (Scripted.start [] [])
     = Panics p) ∧
  emitted
    (SendBulkNotifications Scripted.service
       ([Scripted.request "payment_due" "low" ""]
        ++ Scripted.malformed_request "payment_due" "low" ""
           :: [Scripted.request "security_breach" "urgent" "+15551234567"]))
    (Scripted.start [] [])
  = emitted
      (SendBulkNotifications Scripted.service
         [Scripted.request "payment_due" "low" ""])
      (Scripted.start [] []) ∧
  (SendBulkNotifications Scripted.service
     ([Scripted.request "payment_due" "low" ""]
      ++ Scripted.malformed_request "payment_due" "low" ""
         :: [Scripted.request "security_breach" "urgent" "+15551234567"])
     (Scripted.start [] [])).2
  = (SendBulkNotifications Scripted.service
       [Scripted.request "payment_due" "low" ""] (Scripted.start [] [])).2.
Proof.
  apply (bulk_stops_at_the_first_malformed_request Scripted.service
           [Scripted.request "payment_due" "low" ""]
           (Scripted.malformed_request "payment_due" "low" "")
           [Scripted.request "security_breach" "urgent" "+15551234567"]
           (Scripted.start [] [])).
  - repeat constructor.
  - left. reflexivity.
Defined.

(** * The loop of [replaceVariables] and the rendering in one pass *)

Section one_pass.
Import StrFacts.

(** The loop, piece by piece of a well-formed template. *)
Lemma replaceVariables_over_nil order : replaceVariables_over order "" = "".
Proof. by apply replaceVariables_over_no_token. Qed.

Lemma replaceVariables_over_char order c s :
  c ≠ "{"%char →
  replaceVariables_over order (String c s)
  = String c (replaceVariables_over order s).
Proof.
  intros Hc. revert s. induction order as [|[k v] order IH]; intros s; [done|].
  by rewrite !replaceVariables_over_cons, ReplaceAll_char, IH.
Qed.

Lemma replaceVariables_over_brace order s :
  starts_with_brace s = false →
  replaceVariables_over order (String "{" s)
  = String "{" (replaceVariables_over order s).
Proof.
  revert s. induction order as [|[k v] order IH]; intros s Hs; [done|].
  rewrite !replaceVariables_over_cons, ReplaceAll_brace, IH; [done| |done].
  by apply ReplaceAll_starts.
Qed.

Lemma replaceVariables_over_bracefree_app order u s :
  Str.bracefree u = true →
  replaceVariables_over order (u +:+ s) = u +:+ replaceVariables_over order s.
Proof.
  intros Hu. revert s. induction order as [|[k v] order IH]; intros s; [done|].
  by rewrite !replaceVariables_over_cons, ReplaceAll_bracefree_app, IH.
Qed.

Lemma replaceVariables_over_token_absent order k s :
  Str.bracefree k = true →
  forallb (λ kv, Str.bracefree kv.1) order = true →
  k ∉ order.*1 →
  replaceVariables_over order (placeholder k +:+ s)
  = placeholder k +:+ replaceVariables_over order s.
Proof.
  intros Hk Hbf Hnot.
  pose proof (replaceVariables_over_keep order k "" s Hk Hbf Hnot) as H.
  by rewrite replaceVariables_over_nil, !app_nil_l in H.
Qed.

Lemma replaceVariables_over_token_present order k v s :
  forallb bracefree_entry order = true → NoDup order.*1 →
  (k, v) ∈ order →
  replaceVariables_over order (placeholder k +:+ s)
  = v +:+ replaceVariables_over order s.
Proof.
  revert s. induction order as [|[k' v'] order IH]; intros s Hbf Hnd Hin.
  { by apply elem_of_nil in Hin. }
  apply andb_true_iff in Hbf as [[Hk' Hv']%andb_true_iff Hbf].
  apply NoDup_cons in Hnd as [Hfresh Hnd].
  rewrite !replaceVariables_over_cons.
  apply elem_of_cons in Hin as [[= -> ->]|Hin].
  - rewrite ReplaceAll_token_eq.
    by apply replaceVariables_over_bracefree_app.
  - assert (k ≠ k') as Hne.
    { intros ->. apply Hfresh, list_elem_of_fmap. by exists (k', v). }
    assert (Str.bracefree k = true) as Hk.
    { pose proof (proj1 (forallb_forall bracefree_entry order) Hbf (k, v))
        as Hkv.
      apply list_elem_of_In, Hkv in Hin.
      by apply andb_true_iff in Hin as [? _]. }
    rewrite ReplaceAll_token_ne by done. by apply IH.
Qed.

(** The rendering in one pass, piece by piece. *)
Lemma substitute_scan_key variables acc k s :
  Str.bracefree k = true →
  substitute_scan variables (Some acc) (k +:+ "}}" +:+ s)
  = default (placeholder (acc +:+ k)) (variables !! (acc +:+ k))
    +:+ substitute_scan variables None s.
Proof.
  revert acc. induction k as [|c k IH]; intros acc Hk.
  - by rewrite app_nil_r.
  - apply bracefree_cons in Hk as (_ & Hc & Hk).
    rewrite app_cons. simpl substitute_scan.
    apply Ascii.eqb_neq in Hc. rewrite Hc.
    rewrite IH by done. by rewrite app_assoc.
Qed.

Lemma substitute_token variables k s :
  Str.bracefree k = true →
  substitute variables (placeholder k +:+ s)
  = default (placeholder k) (variables !! k) +:+ substitute variables s.
Proof.
  intros Hk. unfold substitute.
  rewrite placeholder_unfold, !app_cons, app_assoc. simpl substitute_scan.
  by rewrite substitute_scan_key.
Qed.

Lemma substitute_char variables c s :
  c ≠ "{"%char →
  substitute variables (String c s) = String c (substitute variables s).
Proof.
  intros Hc%Ascii.eqb_neq. unfold substitute. simpl. by rewrite Hc.
Qed.

Lemma substitute_brace variables s :
  starts_with_brace s = false →
  substitute variables (String "{" s) = String "{" (substitute variables s).
Proof.
  intros Hs. unfold substitute. destruct s as [|c s]; [done|].
  rewrite starts_with_brace_cons in Hs. simpl.
  rewrite (Ascii.eqb_sym c "{"), Hs. done.
Qed.

Lemma replaceVariables_over_substitute variables order t :
  order ≡ₚ map_to_list variables → bracefree_map variables = true →
  wf_template t →
  replaceVariables_over order t = substitute variables t.
Proof.
  intros Hp Hbf.
  pose proof (NoDup_keys_of_order _ _ Hp) as Hnd.
  pose proof (bracefree_entries_of_order _ _ Hp Hbf) as Hbfo.
  assert (forallb (λ kv, Str.bracefree kv.1) order = true) as Hbfk.
  { rewrite forallb_forall in Hbfo. apply forallb_forall. intros kv Hin.
    apply Hbfo in Hin. by apply andb_true_iff in Hin as [? _]. }
  induction 1 as [|c s Hc _ IH|s Hs _ IH|k s Hk _ IH].
  - by rewrite replaceVariables_over_nil.
  - by rewrite replaceVariables_over_char, substitute_char, IH.
  - by rewrite replaceVariables_over_brace, substitute_brace, IH.
  - rewrite substitute_token by done.
    destruct (variables !! k) as [v|] eqn:Hv; simpl.
    + rewrite (replaceVariables_over_token_present order k v), IH; [done..|].
      rewrite Hp. by apply elem_of_map_to_list.
    + rewrite replaceVariables_over_token_absent, IH; [done..|].
      rewrite (keys_of_order variables) by done. rewrite Hv.
      by intros [? ?].
Qed.

End one_pass.

Section rendering.
Context `{C : Collaborators}.

(** X17. On a well-formed template and a mapping whose names and values have no
    brace, [replaceVariables] returns the rendering in one pass, whatever
    the order in which the runtime ranges over the mapping, and calls no
    transport. *)
Theorem replaceVariables_is_one_pass template variables st :
  well_formed template = true → bracefree_map variables = true →
  returned (replaceVariables template variables) st
  = Returns (substitute variables template) ∧
  emitted (replaceVariables template variables) st = [].
Proof.
  intros Hwf%well_formed_sound Hbf.
  destruct (replaceVariables_runs template variables st)
    as (order & w & Hp & Hrun).
  apply runs_emitted in Hrun as [-> ->]. split; [|done].
  f_equal. by apply replaceVariables_over_substitute.
Qed.

(** X18. On a well-formed template and a mapping whose names and values have no
    brace, rendering a rendered text again, in any order of the mapping,
    changes nothing. *)
Theorem replaceVariables_over_idempotent template variables o1 o2 :
  well_formed template = true → bracefree_map variables = true →
  o1 ≡ₚ map_to_list variables → o2 ≡ₚ map_to_list variables →
  replaceVariables_over o2 (replaceVariables_over o1 template)
  = replaceVariables_over o1 template.
Proof.
  intros Hwf%well_formed_sound Hbf Hp1 Hp2.
  apply replaceVariables_over_absent, Forall_forall. intros [k v] Hin.
  apply replaceVariables_over_replaces; [|simpl|done].
  - by eapply bracefree_entries_of_order.
  - rewrite Hp1, <-Hp2. apply list_elem_of_fmap. by exists (k, v).
Qed.

End rendering.

Section email_texts.
Context `{C : Collaborators}.




End email_texts.

(** A template with a style rule and three placeholders, two of them
    mapped, in the world of the scripted collaborators. *)
Lemma replaceVariables_is_one_pass_witness :
  returned
    (replaceVariables "p { margin: 0 } Hello {{name}}, {{date}} {{other}}"
       {[ "name" := "Ann"; "date" := "May 1" ]})
    (Scripted.start [] [])
  = Returns
      (substitute {[ "name" := "Ann"; "date" := "May 1" ]}
         "p { margin: 0 } Hello {{name}}, {{date}} {{other}}") ∧
  emitted
    (replaceVariables "p { margin: 0 } Hello {{name}}, {{date}} {{other}}"
       {[ "name" := "Ann"; "date" := "May 1" ]})
    (Scripted.start [] [])
  = [].
Proof.
  apply (replaceVariables_is_one_pass
           "p { margin: 0 } Hello {{name}}, {{date}} {{other}}"
           {[ "name" := "Ann"; "date" := "May 1" ]} (Scripted.start [] []));
    vm_compute; reflexivity.
Defined.

(** The same template, rendered in the two orders of the mapping. *)
Lemma replaceVariables_over_idempotent_witness :
  replaceVariables_over [("date", "May 1"); ("name", "Ann")]
    (replaceVariables_over [("name", "Ann"); ("date", "May 1")]
       "p { margin: 0 } Hello {{name}}, {{date}} {{other}}")
  = replaceVariables_over [("name", "Ann"); ("date", "May 1")]
      "p { margin: 0 } Hello {{name}}, {{date}} {{other}}".
Proof.
  apply (replaceVariables_over_idempotent
           "p { margin: 0 } Hello {{name}}, {{date}} {{other}}"
           {[ "name" := "Ann"; "date" := "May 1" ]});
    [vm_compute; reflexivity|vm_compute; reflexivity| |].
  - assert (map_to_list ({[ "name" := "Ann"; "date" := "May 1" ]}
                           : gmap string string)
            ≡ₚ [("name", "Ann"); ("date", "May 1")]) as ->; [|done].
    rewrite map_to_list_insert by done.
    by rewrite map_to_list_singleton.
  - assert (map_to_list ({[ "name" := "Ann"; "date" := "May 1" ]}
                           : gmap string string)
            ≡ₚ [("name", "Ann"); ("date", "May 1")]) as ->.
    { rewrite map_to_list_insert by done.
      by rewrite map_to_list_singleton. }
    apply Permutation_swap.
Defined.


(** * The keys of the S3 service *)

Section slices.
Import StrFacts.

Lemma slice_length_drop n s :
  String.length (Str.drop n s) = String.length s - n.
Proof.
  revert s. induction n as [|n IH]; intros [|c s]; simpl; [lia..|apply IH].
Qed.

Lemma slice_take_drop n s : Str.take n s +:+ Str.drop n s = s.
Proof.
  revert s. induction n as [|n IH]; intros [|c s]; simpl; [done..|].
  by rewrite app_cons, IH.
Qed.

Lemma slice_drop_all s : Str.drop (String.length s) s = "".
Proof. induction s as [|c s IH]; [done|apply IH]. Qed.

Lemma slice_drop_get j s c :
  String.get j s = Some c →
  Str.drop j s = String c (Str.drop (S j) s).
Proof.
  revert s. induction j as [|j IH]; intros [|c' s] H; simpl in *; try done.
  - injection H as ->. by destruct s.
  - rewrite (IH s H). by destruct s.
Qed.

Lemma slice_get_lt j s : j < String.length s → is_Some (String.get j s).
Proof.
  revert s. induction j as [|j IH]; intros [|c s] H; simpl in *;
    [lia|by eexists|lia|].
  apply IH. lia.
Qed.

Lemma HasPrefix_app_same a x y :
  Str.HasPrefix (a +:+ x) (a +:+ y) = Str.HasPrefix x y.
Proof.
  induction a as [|c a IH]; [done|].
  by rewrite !app_cons, HasPrefix_cons, Ascii.eqb_refl, IH.
Qed.

Lemma Contains_single_cons c d s :
  c ≠ d →
  Str.Contains (String c s) (String d "") = Str.Contains s (String d "").
Proof.
  intros Hne. rewrite Contains_cons, HasPrefix_cons.
  apply Ascii.eqb_neq in Hne. by rewrite (Ascii.eqb_sym d c), Hne.
Qed.

(** The extension [filepath.Ext] finds: a suffix of the path, empty or made
    of a dot and of characters that are neither dots nor slashes. *)
Lemma Ext_loop_spec path i :
  i ≤ String.length path →
  Str.Contains (Str.drop i path) "." = false →
  Str.Contains (Str.drop i path) "/" = false →
  (∃ j, j ≤ String.length path ∧ filepath.Ext_loop path i = Str.drop j path) ∧
  (filepath.Ext_loop path i = "" ∨
   ∃ x, filepath.Ext_loop path i = String "." x ∧
        Str.Contains x "." = false ∧ Str.Contains x "/" = false).
Proof.
  induction i as [|i IH]; intros Hi Hdot Hslash.
  { split; [|by left]. exists (String.length path). by rewrite slice_drop_all. }
  simpl. destruct (slice_get_lt i path) as [c Hc]; [lia|]. rewrite Hc.
  pose proof (slice_drop_get _ _ _ Hc) as Hdrop.
  destruct (Ascii.eqb c "/") eqn:E1.
  { split; [|by left]. exists (String.length path). by rewrite slice_drop_all. }
  destruct (Ascii.eqb c ".") eqn:E2.
  { apply Ascii.eqb_eq in E2 as ->. split; [exists i; split; [lia|done]|].
    right. exists (Str.drop (S i) path). by rewrite Hdrop. }
  apply Ascii.eqb_neq in E1, E2.
  apply IH; [lia|..]; rewrite Hdrop.
  - by rewrite Contains_single_cons.
  - by rewrite Contains_single_cons.
Qed.

Lemma Ext_spec path :
  (∃ j, j ≤ String.length path ∧ filepath.Ext path = Str.drop j path) ∧
  (filepath.Ext path = "" ∨
   ∃ x, filepath.Ext path = String "." x ∧
        Str.Contains x "." = false ∧ Str.Contains x "/" = false).
Proof.
  apply Ext_loop_spec; [done|by rewrite slice_drop_all..].
Qed.

Lemma eqb_refl_string s : String.eqb s s = true.
Proof. by apply String.eqb_eq. Qed.

(** Trimming a suffix that is a slice of the text gives the slice before
    it. *)
Lemma TrimSuffix_slice j s :
  j ≤ String.length s → TrimSuffix s (Str.drop j s) = Str.take j s.
Proof.
  intros Hj. unfold TrimSuffix, HasSuffix. rewrite slice_length_drop.
  replace (String.length s - (String.length s - j)) with j by lia.
  rewrite eqb_refl_string, andb_true_r.
  by rewrite (leb_correct _ _ (Nat.le_sub_l _ _)).
Qed.

(** The base name and the extension make the file name. *)
Lemma TrimSuffix_Ext filename :
  TrimSuffix filename (filepath.Ext filename) +:+ filepath.Ext filename
  = filename.
Proof.
  destruct (Ext_spec filename) as [(j & Hj & ->) _].
  rewrite TrimSuffix_slice by done. apply slice_take_drop.
Qed.

(** A file name that begins with a character other than a dot has a base
    name that begins with that character. *)
Lemma TrimSuffix_Ext_head c rest :
  c ≠ "."%char →
  ∃ base,
    TrimSuffix (String c rest) (filepath.Ext (String c rest)) = String c base.
Proof.
  intros Hc. pose proof (TrimSuffix_Ext (String c rest)) as Hsplit.
  destruct (Ext_spec (String c rest)) as [_ [Hext|(x & Hext & _)]].
  - rewrite Hext, app_nil_r in Hsplit. rewrite Hext, Hsplit. by eexists.
  - destruct (TrimSuffix _ _) as [|c' base]; [|].
    + rewrite Hext, app_nil_l in Hsplit. by injection Hsplit as <-.
    + rewrite app_cons in Hsplit. injection Hsplit as -> _. by eexists.
Qed.

(** Two texts cut at their first slash are cut alike. *)
Lemma first_slash_inj a b x y :
  Str.Contains a "/" = false → Str.Contains b "/" = false →
  a +:+ String "/" x = b +:+ String "/" y → a = b ∧ x = y.
Proof.
  revert b. induction a as [|c a IH]; intros [|c' b] Ha Hb Heq.
  - by injection Heq as ->.
  - rewrite app_nil_l, app_cons in Heq. injection Heq as <- _.
    by rewrite Contains_cons in Hb.
  - rewrite app_nil_l, app_cons in Heq. injection Heq as -> _.
    by rewrite Contains_cons in Ha.
  - rewrite !app_cons in Heq. injection Heq as -> Heq.
    destruct (decide (c' = "/"%char)) as [->|Hc].
    { by rewrite Contains_cons in Ha. }
    rewrite Contains_single_cons in Ha, Hb by done.
    destruct (IH b Ha Hb Heq) as [-> ->]. done.
Qed.

End slices.

Section keys.
Context `{C : Collaborators}.
Import StrFacts.

Lemma generateFileKey_unfold s landlordID category entityID filename w :
  generateFileKey s landlordID category entityID filename w
  = (landlordID +:+ "/" +:+ category +:+ "/" +:+ entityID +:+ "/"
     +:+ TrimSuffix filename (filepath.Ext filename) +:+ "-"
     +:+ time_Format (time_Now w).1 "20060102-150405"
     +:+ filepath.Ext filename,
     (time_Now w).2).
Proof. unfold generateFileKey. by destruct (time_Now w). Qed.


Lemma generateFileKey_misses_prefix
    s landlordID category entityID c rest w w' :
  c ≠ "-"%char → c ≠ "."%char →
  Str.HasPrefix
    (generateFileKey s landlordID category entityID (String c rest) w).1
    (generateFileKey s landlordID category entityID "" w').1
  = false.
Proof.
  intros Hdash Hdot. rewrite !generateFileKey_unfold. simpl fst.
  destruct (TrimSuffix_Ext_head c rest Hdot) as [base ->].
  change (TrimSuffix "" (filepath.Ext "")) with "".
  rewrite !HasPrefix_app_same.
  rewrite app_nil_l, !app_cons, HasPrefix_cons.
  apply Ascii.eqb_neq in Hdash.
  by rewrite (Ascii.eqb_sym "-" c), Hdash.
Qed.

(** X21. When the landlord, the category and the entity have no slash, the key
    tells them: two keys that are equal were generated for the same
    landlord, the same category and the same entity, whatever the file
    names and the clocks. *)
Theorem equal_keys_have_one_owner
    s landlordID category entityID filename w
    landlordID' category' entityID' filename' w' :
  Str.Contains landlordID "/" = false → Str.Contains landlordID' "/" = false →
  Str.Contains category "/" = false → Str.Contains category' "/" = false →
  Str.Contains entityID "/" = false → Str.Contains entityID' "/" = false →
  (generateFileKey s landlordID category entityID filename w).1
  = (generateFileKey s landlordID' category' entityID' filename' w').1 →
  landlordID = landlordID' ∧ category = category' ∧ entityID = entityID'.
Proof.
  intros Hl Hl' Hc Hc' He He'. rewrite !generateFileKey_unfold. simpl fst.
  intros H.
  apply first_slash_inj in H as [-> H]; [|done..].
  apply first_slash_inj in H as [-> H]; [|done..].
  by apply first_slash_inj in H as [-> H].
Qed.

End keys.

Section files.
Context `{S : S3Client}.


(** X23. The prefix [ListFiles] asks for is the key of the empty file name, with
    the time of the listing in it; it is a prefix of no key that
    [UploadFile] puts for a file whose name begins with a character other
    than a dash and a dot.  (S3 lists the keys that begin with the prefix:
    the files uploaded for an entity under such names are not among
    them.) *)
Theorem listing_prefix_misses_uploads
    s req header c rest w w' input err linput lerr :
  FileUploadRequest.File req = Some header →
  multipart.Filename header = String c rest →
  c ≠ "-"%char → c ≠ "."%char →
  CallPutObject input err ∈ s3_calls (UploadFile s req w) →
  CallListObjectsV2 linput lerr
  ∈ s3_calls
      (ListFiles s (FileUploadRequest.LandlordID req)
         (FileUploadRequest.Category req) (FileUploadRequest.EntityID req)
         w') →
  Str.HasPrefix (s3.PutObjectInput.Key input)
    (s3.ListObjectsV2Input.Prefix linput)
  = false.
Proof.
  intros Hfile Hname Hdash Hdot Hput Hlist.
  pose proof (generateFileKey_misses_prefix s
                (FileUploadRequest.LandlordID req)
                (FileUploadRequest.Category req)
                (FileUploadRequest.EntityID req) c rest w w' Hdash Hdot)
    as Hmiss.
  rewrite <-Hname in Hmiss.
  assert (s3.PutObjectInput.Key input
          = (generateFileKey s (FileUploadRequest.LandlordID req)
               (FileUploadRequest.Category req)
               (FileUploadRequest.EntityID req)
               (multipart.Filename header) w).1) as ->.
  { revert Hput. unfold UploadFile. rewrite Hfile.
    destruct (generateFileKey _ _ _ _ _ w) as [fileKey w1].
    destruct (FileHeader_Open header w1) as [[file|e] w2].
    - destruct (S3_PutObject _ w2) as [[e|] w3];
        [|destruct (time_Now w3) as [now w4]];
        unfold s3_calls; simpl; rewrite !elem_of_cons, elem_of_nil;
        intros [[=]|[[= -> _]|[[=]|[]]]]; done.
    - unfold s3_calls. simpl. rewrite !elem_of_cons, elem_of_nil.
      by intros [[=]|[]]. }
  assert (s3.ListObjectsV2Input.Prefix linput
          = (generateFileKey s (FileUploadRequest.LandlordID req)
               (FileUploadRequest.Category req)
               (FileUploadRequest.EntityID req) "" w').1) as ->; [|done].
  revert Hlist. unfold ListFiles.
  destruct (generateFileKey _ _ _ _ _ w') as [prefix w1].
  destruct (S3_ListObjectsV2 _ w1) as [[result|e] w2];
    [destruct (ListFiles_loop _ _ _ _ _)|];
    unfold s3_calls; simpl; rewrite !elem_of_cons, elem_of_nil;
    intros [[= -> _]|[]]; done.
Qed.

Lemma ListFiles_loop_spec s category entityID contents files :
  match ListFiles_loop s category entityID contents files with
  | Some all =>
      ∃ new,
        all = files ++ new ∧
        Forall2
          (λ obj info,
             s3.Object.Key obj = Some (FileInfo.FileKey info) ∧
             s3.Object.Size obj = Some (FileInfo.Size info) ∧
             s3.Object.LastModified obj = Some (FileInfo.UploadedAt info) ∧
             FileInfo.URL info = object_url s (FileInfo.FileKey info) ∧
             FileInfo.Category info = category ∧
             FileInfo.EntityID info = entityID ∧
             FileInfo.Description info = "")
          contents new
  | None =>
      Exists
        (λ obj,
           s3.Object.Key obj = None ∨ s3.Object.Size obj = None
           ∨ s3.Object.LastModified obj = None)
        contents
  end.
Proof.
  revert files. induction contents as [|obj rest IH]; intros files; simpl.
  { exists []. split; [by rewrite app_nil_r|constructor]. }
  destruct (s3.Object.Key obj) as [key|] eqn:Hkey;
    [|by constructor; left].
  destruct (s3.Object.Size obj) as [size|] eqn:Hsize;
    [|by constructor; right; left].
  destruct (s3.Object.LastModified obj) as [modified|] eqn:Hmod;
    [|by constructor; right; right].
  match goal with
  | |- context [ListFiles_loop _ _ _ rest ?acc] => specialize (IH acc)
  end.
  destruct (ListFiles_loop _ _ _ _ _) as [all|].
  - destruct IH as (new & -> & Hall). eexists (_ :: new).
    split; [by rewrite <-app_assoc|]. by constructor.
  - by apply Exists_cons_tl.
Qed.

(** X24. [ListFiles] lists once, in the configured bucket.  When the listing
    fails the error says so.  Otherwise the files returned are the objects
    listed, one for one and in order, each with the key, the size and the
    date of its object and the URL of its key; the category and the entity
    are the ones asked for and the description is empty; and when an object
    comes without its key, its size or its date, the method panics. *)
Theorem ListFiles_maps_the_listing s landlordID category entityID w :
  ∃ input,
    s3.ListObjectsV2Input.Bucket input = AWS_S3_BucketName (s3_config s) ∧
    s3.ListObjectsV2Input.Prefix input
    = (generateFileKey s landlordID category entityID "" w).1 ∧
    match S3_ListObjectsV2 input
            (generateFileKey s landlordID category entityID "" w).2 with
    | (Err e, _) =>
        s3_calls (ListFiles s landlordID category entityID w)
        = [CallListObjectsV2 input (Some e)] ∧
        s3_outcome (ListFiles s landlordID category entityID w)
        = S3Returns (Err ("failed to list files from S3: " +:+ e))
    | (Ok result, _) =>
        s3_calls (ListFiles s landlordID category entityID w)
        = [CallListObjectsV2 input None] ∧
        ((∃ files,
            s3_outcome (ListFiles s landlordID category entityID w)
            = S3Returns (Ok files) ∧
            Forall2
              (λ obj info,
                 s3.Object.Key obj = Some (FileInfo.FileKey info) ∧
                 s3.Object.Size obj = Some (FileInfo.Size info) ∧
                 s3.Object.LastModified obj
                 = Some (FileInfo.UploadedAt info) ∧
                 FileInfo.URL info = object_url s (FileInfo.FileKey info) ∧
                 FileInfo.Category info = category ∧
                 FileInfo.EntityID info = entityID ∧
                 FileInfo.Description info = "")
              (s3.ListObjectsV2Output.Contents result) files) ∨
         (s3_outcome (ListFiles s landlordID category entityID w)
          = S3NilDereference ∧
          Exists
            (λ obj,
               s3.Object.Key obj = None ∨ s3.Object.Size obj = None
               ∨ s3.Object.LastModified obj = None)
            (s3.ListObjectsV2Output.Contents result)))
    end.
Proof.
  unfold ListFiles.
  destruct (generateFileKey s landlordID category entityID "" w)
    as [prefix w1].
  eexists {| s3.ListObjectsV2Input.Bucket := _ |}.
  split; [reflexivity|]. split; [reflexivity|]. simpl.
  destruct (S3_ListObjectsV2 _ w1) as [[result|e] w2]; [|done].
  pose proof (ListFiles_loop_spec s category entityID
                (s3.ListObjectsV2Output.Contents result) []) as Hloop.
  destruct (ListFiles_loop _ _ _ _ _) as [files|].
  - destruct Hloop as (new & -> & Hall). split; [done|]. left. by exists new.
  - split; [done|]. by right.
Qed.



(** X27. [DeleteFile] deletes the key it is given and does not look at the
    landlord of the request: two requests for the same key give the same
    call, the same result and the same world. *)
Theorem DeleteFile_ignores_the_landlord s req req' w :
  FileDeleteRequest.FileKey req = FileDeleteRequest.FileKey req' →
  DeleteFile s req w = DeleteFile s req' w.
Proof. intros Hkey. unfold DeleteFile. by rewrite Hkey. Qed.

End files.


(** The photo is put under
    landlord-1/maintenance/request-7/kitchen.before-20060102-150405.jpg and
    the listing asks for landlord-1/maintenance/request-7/-20060102-150405. *)
Lemma listing_prefix_misses_uploads_witness :
  Str.HasPrefix
    (s3.PutObjectInput.Key
       {| s3.PutObjectInput.Bucket := "dwell-files";
          s3.PutObjectInput.Key :=
            "landlord-1/maintenance/request-7/kitchen.before-20060102-150405.jpg";
          s3.PutObjectInput.Body := "kitchen.before.jpg";
          s3.PutObjectInput.ContentType := "image/jpeg";
          s3.PutObjectInput.ContentLength := 48213%Z;
          s3.PutObjectInput.Metadata :=
            {[ "landlord_id" := "landlord-1";
               "category" := "maintenance";
               "entity_id" := "request-7";
               "description" := "Kitchen before the repair";
               "is_before_photo" := "true";
               "original_name" := "kitchen.before.jpg" ]} |})
    (s3.ListObjectsV2Input.Prefix
       {| s3.ListObjectsV2Input.Bucket := "dwell-files";
          s3.ListObjectsV2Input.Prefix :=
            "landlord-1/maintenance/request-7/-20060102-150405" |})
  = false.
Proof.
  apply (@listing_prefix_misses_uploads _ (ScriptedS3.client None None [])
           ScriptedS3.service ScriptedS3.upload ScriptedS3.photo
           "k" "itchen.before.jpg" ScriptedS3.world ScriptedS3.world
           _ None _ None);
    [reflexivity|reflexivity|discriminate|discriminate| |].
  - vm_compute. apply list_elem_of_further, list_elem_of_here.
  - vm_compute. apply list_elem_of_here.
Defined.

(** The same key asked for in the name of two landlords. *)
Lemma DeleteFile_ignores_the_landlord_witness :
  @DeleteFile _ (ScriptedS3.client None None []) ScriptedS3.service
    {| FileDeleteRequest.FileKey := "landlord-1/lease/lease-3/lease-20060102-150405.pdf";
       FileDeleteRequest.LandlordID := "landlord-1" |}
    ScriptedS3.world
  = @DeleteFile _ (ScriptedS3.client None None []) ScriptedS3.service
      {| FileDeleteRequest.FileKey := "landlord-1/lease/lease-3/lease-20060102-150405.pdf";
         FileDeleteRequest.LandlordID := "landlord-2" |}
      ScriptedS3.world.
Proof.
  apply (@DeleteFile_ignores_the_landlord _ (ScriptedS3.client None None [])).
  reflexivity.
Defined.

(** The key of a photo, generated twice at the same time. *)
Lemma equal_keys_have_one_owner_witness :
  "landlord-1" = "landlord-1" ∧ "maintenance" = "maintenance"
  ∧ "request-7" = "request-7".
Proof.
  apply (equal_keys_have_one_owner ScriptedS3.service
           "landlord-1" "maintenance" "request-7" "kitchen.jpg"
           ScriptedS3.world
           "landlord-1" "maintenance" "request-7" "kitchen.jpg"
           ScriptedS3.world);
    reflexivity.
Defined.

